(** * The space-video pipeline, its HTTP client and its scheduler

    A shallow embedding of the JavaScript sources of the repository:

    - the pipeline class [SpacePipeline], which the repository holds in two
      variants (both are in [src/unnamed/part_000]). The two differ in
      [makeHttpRequest], [parseRSSFeed], [collectNews] and [collectMedia] and
      agree, line for line, on everything else. The shared methods are
      embedded once; [Module PipelineA] holds the client and the media stage
      of the first variant (lines 1-515), [Module PipelineB] the client, the
      news stage and the media stage of the second (lines 516-1071);
    - the scheduler class [VideoScheduler] of [src/scheduler.js], embedded
      in [Module Scheduler];
    - the news server of [src/news-server.js], embedded in
      [Module NewsServer];
    - the feed reader of the first variant ([parseRSSFeed] and [collectNews],
      lines 82-113 and 152-191), embedded in [Module FeedsA] over a scanner
      for the two regular expressions it applies.

    Conventions of the embedding.

    - JavaScript numbers are integers ([Z], [nat]) where the code counts and
      rationals ([Q]) where it divides. A quotient or a product of the
      sources is rounded as IEEE 754 rounds it ([double]); the numbers of
      the sources are far from the overflow of the format.
    - Strings are sequences of bytes; on ASCII text their positions are
      those of JavaScript.
    - A string produced by [Date.prototype.toISOString] is represented by the
      millisecond count it denotes ([JIso ms]); every other string is text.
    - Text produced by [JSON.stringify] is represented by the value it
      serialises ([JsonDoc j]).
    - [JSON.parse] and [Date.parse] on foreign text belong to the JavaScript
      runtime, not to the repository: they are the fields of [JsRuntime].
    - [console.log] and [console.error] have no effect on any value the
      program computes; of a call only the conversion of a value of foreign
      origin to a string is kept, because it throws on some values
      ([printable]).
    - An article holds its title, its source and its URL as text. For the
      second variant this covers the items of the news service whose
      members are strings ([plain_item]), as [news-server.js] sends them:
      the source keeps any other value as it is and converts it where it
      prints it.
    - A date made of an object or an array has the time that the runtime
      gives ([Date_parse_object]); the conversion that [new Date] applies
      to such a value throws when the value is not [printable], which the
      statements about the scheduler exclude.
    - An [await] on a promise that never settles is the outcome [Hang]. *)

From Stdlib Require Import String Ascii List ZArith QArith Qround Lia Bool.
From Stdlib Require Import DecimalString DecimalFacts DecimalNat Permutation Sorted.
From Stdlib Require Import Qabs Qpower Lqa.
From stdpp Require Import base gmap strings.
Import ListNotations.
Open Scope string_scope.

(** ** JavaScript values *)

#[local] Set Warnings "-register-all".

(** The values that JSON documents and object literals of the sources hold.
    A property whose value is [undefined] is an absent key. *)
Inductive Json : Type :=
| JNull
| JBool (b : bool)
| JNum (q : Q)
| JStr (s : string)
| JIso (ms : Z)
| JArr (items : list Json)
| JObj (fields : list (string * Json)).

(** The part of the JavaScript runtime that the sources call on text they
    did not produce themselves. [None] is a thrown [SyntaxError] for
    [JSON_parse] and [NaN] for [Date_parse]; [Date_parse_object] is
    [new Date(v).getTime()] for an array or an object [v] that can be
    converted to a primitive value ([printable]); [String_of] is the text
    that a template literal prints for such a value. *)
Class JsRuntime : Type := {
  JSON_parse : string -> option Json;
  Date_parse : string -> option Z;
  Date_parse_object : Json -> option Z;
  String_of : Json -> string
}.

(** [obj[key]] on an object literal: the first binding of the key. *)
Fixpoint assoc (key : string) (fields : list (string * Json)) : option Json :=
  match fields with
  | [] => None
  | (k, v) :: rest => if String.eqb k key then Some v else assoc key rest
  end.

(** JavaScript truthiness of a value ([None] is [undefined]). *)
Definition truthy (v : option Json) : bool :=
  match v with
  | None | Some JNull => false
  | Some (JBool b) => b
  | Some (JNum q) => negb (Qeq_bool q 0)
  | Some (JStr s) => negb (String.eqb s "")
  | Some (JIso _) | Some (JArr _) | Some (JObj _) => true
  end.

(** [`${v}`] and [new Date(v)] convert [v] to a primitive value, and the
    conversion does not throw. An object of [JSON.parse] is converted by the
    [toString] it inherits, unless it has a member of that name: the member
    is no function, and then neither it nor the inherited [valueOf] yields a
    primitive value. An array is converted by joining the conversions of its
    elements. *)
Fixpoint printable (v : Json) : bool :=
  match v with
  | JObj fields => negb (existsb (fun entry => String.eqb (fst entry) "toString") fields)
  | JArr items => forallb printable items
  | _ => true
  end.

(** [Math.round]: the nearest integer, halves rounded up. *)
Definition Math_round (q : Q) : Z := Qfloor (q + (1 # 2)).

(** *** Double precision

    The result of an arithmetic operation of JavaScript is the double
    nearest to the exact result. *)

(** [2^e] for an integer exponent. *)
Definition pow2 (e : Z) : Q := (2 ^ e)%Q.

(** The binary exponent of a number that is not zero: the [e] with
    [2^e <= |q| < 2^(e+1)]. *)
Definition exponent (q : Q) : Z :=
  let e := (Z.log2 (Z.abs (Qnum q)) - Z.log2 (Zpos (Qden q)))%Z in
  if Qle_bool (pow2 e) (Qabs q) then e else (e - 1)%Z.

(** The nearest integer, a half going to the even neighbour. *)
Definition round_half_even (q : Q) : Z :=
  let f := Qfloor q in
  match Qcompare (q - inject_Z f) (1 # 2) with
  | Lt => f
  | Gt => (f + 1)%Z
  | Eq => if Z.even f then f else (f + 1)%Z
  end.

(** The double nearest to [q], in lowest terms: a multiple of the unit in
    the last of the 53 binary places of [q], or of [2^-1074] for a
    subnormal; a tie goes to the even significand. *)
Definition double (q : Q) : Q :=
  match Qnum q with
  | Z0 => 0
  | _ =>
      let ulp := pow2 (Z.max (exponent q - 52) (-1074)) in
      Qred (inject_Z (round_half_even (q / ulp)) * ulp)
  end.

(** [Math.round(x * k) / k]: [x] rounded to the decimal places of [k]. *)
Definition rounded (k : Z) (x : Q) : Q :=
  double (inject_Z (Math_round (double (x * inject_Z k))) / inject_Z k).

(** [2^-52], the distance from 1 to the next double. *)
Definition epsilon : Q := 1 # 4503599627370496.

(** The largest time value of a [Date], in milliseconds. *)
Definition max_time : Z := 8640000000000000.

(** [TimeClip] after truncation towards zero. *)
Definition TimeClip (q : Q) : option Z :=
  let t := Z.quot (Qnum q) (Zpos (Qden q)) in
  if (Z.abs t <=? max_time)%Z then Some t else None.

(** [new Date(v).getTime()], [None] being [NaN]. On an object or an array
    that is not [printable] the constructor throws instead; the function
    is applied to the stored timestamp of the scheduler and to the dates of
    the articles, and the statements that depend on the difference say so
    ([convertible_timestamp], [plain_item]). *)
Definition Date_getTime `{JsRuntime} (v : option Json) : option Z :=
  match v with
  | None => None
  | Some JNull => Some 0%Z
  | Some (JBool b) => Some (if b then 1 else 0)%Z
  | Some (JNum q) => TimeClip q
  | Some (JStr s) => Date_parse s
  | Some (JIso ms) => Some ms
  | Some (JArr l) => Date_parse_object (JArr l)
  | Some (JObj f) => Date_parse_object (JObj f)
  end.

(** ** Strings *)

(** The line feed, ['\n'] in the sources. *)
Definition LF : string := String "010"%char EmptyString.

(** The decimal numeral that a template literal prints for a count. *)
Definition decimal (n : nat) : string := NilEmpty.string_of_uint (Nat.to_uint n).

(** [s.split(c).length] and [s.split(c)] for a separator of one character:
    the pieces between consecutive occurrences, empty pieces included. *)
Fixpoint split (c : ascii) (s : string) : list string :=
  match s with
  | EmptyString => [EmptyString]
  | String a rest =>
      if Ascii.eqb a c then EmptyString :: split c rest
      else match split c rest with
           | [] => [String a EmptyString]
           | piece :: pieces => String a piece :: pieces
           end
  end.

(** [s.includes(sub)]. *)
Fixpoint includes (sub s : string) : bool :=
  String.prefix sub s ||
  match s with
  | EmptyString => false
  | String _ rest => includes sub rest
  end.

(** Number of occurrences of a character. *)
Fixpoint occurrences (c : ascii) (s : string) : nat :=
  match s with
  | EmptyString => 0
  | String a rest => (if Ascii.eqb a c then 1 else 0) + occurrences c rest
  end.

(** The whitespace of ASCII: space, tab, line feed, vertical tab, form feed
    and carriage return. *)
Definition is_whitespace (c : ascii) : bool :=
  let n := nat_of_ascii c in
  Nat.eqb n 32 || (Nat.leb 9 n && Nat.leb n 13).

(** Number of whitespace-delimited tokens, as the specification words the
    word count: the maximal runs of characters that are not whitespace.
    [inside] tells whether the previous character belongs to a token. *)
Fixpoint count_tokens (inside : bool) (s : string) : nat :=
  match s with
  | EmptyString => 0
  | String a rest =>
      if is_whitespace a then count_tokens false rest
      else (if inside then 0 else 1) + count_tokens true rest
  end.

Definition whitespace_tokens (s : string) : nat := count_tokens false s.

(** What reading [s] does to the count of tokens: whether its last
    character belongs to a token, and how many tokens begin in it. *)
Fixpoint scan (inside : bool) (s : string) : bool * nat :=
  match s with
  | EmptyString => (inside, 0)
  | String a rest =>
      if is_whitespace a then scan false rest
      else let '(last, begun) := scan true rest in
           (last, (if inside then 0 else 1) + begun)
  end.

(** No character of [s] is whitespace. *)
Fixpoint no_whitespace (s : string) : bool :=
  match s with
  | EmptyString => true
  | String a rest => negb (is_whitespace a) && no_whitespace rest
  end.

(** A word: a text that is not empty and holds no whitespace. *)
Definition is_word (s : string) : bool :=
  negb (String.eqb s "") && no_whitespace s.

(** Words separated by single spaces, as headlines are written. *)
Inductive spaced_words : string -> Prop :=
| one_word w : is_word w = true -> spaced_words w
| more_words w s : is_word w = true -> spaced_words s -> spaced_words (w ++ " " ++ s).

(** ** The run record *)

(** [details] of a step is an object literal; its keys keep their order. *)
Record StepLog : Type := {
  step : string;
  timestamp : Z;
  success : bool;
  details : list (string * Json)
}.

Inductive Status : Type := running | completed | failed.

Definition Status_text (st : Status) : string :=
  match st with
  | running => "running"
  | completed => "completed"
  | failed => "failed"
  end.

Record FinalOutputs : Type := {
  fo_script : string;
  fo_media_count : nat;
  fo_audio_duration : Q;
  fo_video_file : string;
  fo_video_url : string
}.

(** [this.results]. [workflow_id] is the clock reading of
    [`workflow_${Date.now()}`]; the four optional members are absent until
    [runPipeline] assigns them. *)
Record RunRecord : Type := {
  workflow_id : Z;
  start_time : Z;
  steps : list StepLog;
  status : Status;
  end_time : option Z;
  total_duration_seconds : option Q;
  final_outputs : option FinalOutputs;
  error : option string
}.

(** A thrown [Error]. *)
Record JsError : Type := { message : string }.

(** ** The world outside the program *)

(** The value of [Math.floor(Math.random() * 3)]: 0, 1 or 2. *)
Inductive Pick : Type := First | Second | Third.

Definition Pick_index (p : Pick) : nat :=
  match p with
  | First => 0
  | Second => 1
  | Third => 2
  end.

(** What a file name denotes on disk. [JsonDoc j] is the text
    [JSON.stringify(j, null, 2)]; [ReadOnly text] is a file that the process
    can read and cannot replace; [Unreadable] is an entry that the process
    can neither read nor replace (a directory, a file it has no rights on). *)
Inductive FileData : Type :=
| JsonDoc (j : Json)
| PlainText (s : string)
| ReadOnly (text : string)
| Unreadable.

(** The events that Node's [http] module delivers for one request, in the
    order in which their listeners run. *)
Inductive HttpEvent : Type :=
| EvResponse (statusCode : option Z) (statusMessage : string)
| EvData (chunk : string)
| EvEnd
| EvResponseError (msg : string)
| EvRequestError (msg : string)
| EvTimeout.

(** Everything one run reads from outside: the process environment, the
    system clock (its [k]-th reading, in milliseconds), the events of the
    request sent to each URL, and the results of the three expressions that
    draw from [Math.random]: [Math.floor(Math.random() * 3)] for the intro
    and the outro, [Math.round(Math.random() * 20 + 10)] for the narration. *)
Record World : Type := {
  env : gmap string string;
  clock : nat -> Z;
  network : string -> list HttpEvent;
  intro_draw : Pick;
  outro_draw : Pick;
  processing_draw : Z
}.

(** The mutable state: [this.results], the files, and the number of clock
    readings made so far. *)
Record PState : Type := {
  results : RunRecord;
  files : gmap string FileData;
  ticks : nat
}.

(** ** The monad of the methods *)

(** How a method ends: it returns, it throws, or it waits for ever. *)

Inductive Outcome (A : Type) : Type :=
| Ret (a : A)
| Throw (e : JsError)
| Hang.
Arguments Ret {A} a.
Arguments Throw {A} e.
Arguments Hang {A}.

Definition M (A : Type) : Type := PState -> Outcome A * PState.

Definition ret {A} (a : A) : M A := fun s => (Ret a, s).

Definition bind {A B} (c : M A) (k : A -> M B) : M B :=
  fun s =>
    match c s with
    | (Ret a, s') => k a s'
    | (Throw e, s') => (Throw e, s')
    | (Hang, s') => (Hang, s')
    end.

Definition throw {A} (e : JsError) : M A := fun s => (Throw e, s).

(** [try { c } catch (error) { handler(error) }]. *)
Definition try_catch {A} (c : M A) (handler : JsError -> M A) : M A :=
  fun s =>
    match c s with
    | (Throw e, s') => handler e s'
    | other => other
    end.

Declare Scope js_scope.
Delimit Scope js_scope with js.
Notation "x <- c ;; k" := (bind c (fun x => k))
  (at level 100, c at next level, right associativity) : js_scope.
Notation "c ;; k" := (bind c (fun _ => k))
  (at level 100, right associativity) : js_scope.
Open Scope js_scope.

Definition get_results : M RunRecord := fun s => (Ret (results s), s).

Definition modify_results (f : RunRecord -> RunRecord) : M unit :=
  fun s => (Ret tt, {| results := f (results s); files := files s; ticks := ticks s |}).

(** [Date.now()] and [new Date()]: one reading of the clock. *)
Definition now (w : World) : M Z :=
  fun s => (Ret (clock w (ticks s)),
            {| results := results s; files := files s; ticks := S (ticks s) |}).

(** The process can create or replace the entry [path]. *)
Definition writable (s : PState) (path : string) : bool :=
  match files s !! path with
  | Some Unreadable | Some (ReadOnly _) => false
  | _ => true
  end.

(** [fs.writeFileSync(path, data)]: the file is created or overwritten;
    throws when the entry cannot be replaced. The message stands for the one
    of Node, which goes on with the system call and the path. *)
Definition writeFileSync (path : string) (data : FileData) : M unit :=
  fun s =>
    if writable s path
    then (Ret tt, {| results := results s; files := <[path := data]> (files s);
                     ticks := ticks s |})
    else (Throw {| message := "EACCES: permission denied" |}, s).

(** [fs.readFileSync(path, 'utf8')]: throws for a missing or unreadable file. *)
Definition readFileSync (path : string) : M FileData :=
  fun s =>
    match files s !! path with
    | None => (Throw {| message := "ENOENT: no such file or directory" |}, s)
    | Some Unreadable => (Throw {| message := "EACCES: permission denied" |}, s)
    | Some data => (Ret data, s)
    end.

Definition push_step (entry : StepLog) (r : RunRecord) : RunRecord :=
  {| workflow_id := workflow_id r; start_time := start_time r;
     steps := steps r ++ [entry]; status := status r;
     end_time := end_time r; total_duration_seconds := total_duration_seconds r;
     final_outputs := final_outputs r; error := error r |}.

(** The error of a conversion to a string that finds no method to call. *)
Definition print_error : JsError :=
  {| message := "Cannot convert object to primitive value" |}.

(** Every value of [details] can be printed. *)
Definition prints (details : list (string * Json)) : Prop :=
  forallb (fun entry => printable (snd entry)) details = true.

(** The [forEach] of [logStep] prints every value of [details] through a
    template literal, and stops at the first one that cannot be printed. *)
Definition print_details (details : list (string * Json)) : M unit :=
  if forallb (fun entry => printable (snd entry)) details then ret tt
  else throw print_error.

(** [logStep(stepName, success, details)], lines 26-44 and 540-558: the
    step is pushed before anything is printed. *)
Definition logStep (w : World) (stepName : string) (success : bool)
    (details : list (string * Json)) : M unit :=
  t <- now w ;;
  modify_results (push_step {| step := stepName; timestamp := t;
                               success := success; details := details |}) ;;
  print_details details.

(** A count as a JavaScript number. *)
Definition JCount (n : nat) : Json := JNum (inject_Z (Z.of_nat n)).

(** ** The script stage

    [generateScript] is the same text in both variants of the pipeline
    (lines 193-236 and 756-799). *)

(** An article. [title], [source] and [url] are held as text, [published]
    as the value it was given: a string of [toISOString] or what the news
    service sent. *)
Record Article : Type := {
  title : string;
  source : string;
  published : Json;
  url : string
}.

Definition intros : list string :=
  [ "Welcome to Space News Today! Here are the latest developments in space exploration.";
    "Greetings, space enthusiasts! Let's dive into today's cosmic updates.";
    "Get ready for another incredible journey through the latest space discoveries!" ].

Definition outros : list string :=
  [ "That's all for today's space news. Stay curious, and keep looking up!";
    "Thanks for joining us on this cosmic journey. Until next time!";
    "Keep exploring the wonders of the universe. See you next time!" ].

(** [array[Math.floor(Math.random() * array.length)]] for an array of three
    strings; an index outside the array would give [undefined]. *)
Definition at_draw (array : list string) (draw : Pick) : string :=
  nth (Pick_index draw) array "undefined".

(** The three sentences appended when there is no article. *)
Definition filler : string :=
  "Today we're exploring the fascinating world of space exploration. " ++
  "From distant galaxies to Mars missions, the universe continues to amaze us. " ++
  "Space agencies around the world are pushing the boundaries of human knowledge. ".

(** The body of [articles.forEach((article, index) => ...)], appending to
    [script]. *)
Fixpoint forEach_story (articles : list Article) (index : nat) (script : string) : string :=
  match articles with
  | [] => script
  | article :: rest =>
      let script := script ++ "Story " ++ decimal (index + 1) ++ ": " ++ title article ++ ". " in
      let script := script ++ "This update comes from " ++ source article ++ ". " in
      let script := script ++ LF ++ LF in
      forEach_story rest (S index) script
  end.

(** The text that the loop appends for the articles from [index] on. *)
Fixpoint stories (articles : list Article) (index : nat) : string :=
  match articles with
  | [] => ""
  | article :: rest =>
      ("Story " ++ decimal (index + 1) ++ ": " ++ title article ++ ". " ++
       "This update comes from " ++ source article ++ ". " ++ LF ++ LF) ++
      stories rest (S index)
  end.

(** The title and the source of an article are words separated by single
    spaces. *)
Definition plain_article (a : Article) : Prop :=
  spaced_words (title a) /\ spaced_words (source a).

Definition assemble_script (w : World) (articles : list Article) : string :=
  let script := at_draw intros (intro_draw w) ++ LF ++ LF in
  let script :=
    if Nat.ltb 0 (length articles) then forEach_story articles 0 script
    else script ++ filler in
  script ++ at_draw outros (outro_draw w).

(** [script.split(' ').length]. *)
Definition wordCount (script : string) : nat := length (split " "%char script).

(** [(wordCount / 150) * 60], 150 words per minute: a division and a
    multiplication of doubles. *)
Definition estimatedDuration (script : string) : Q :=
  double (double (inject_Z (Z.of_nat (wordCount script)) / 150) * 60).

Definition script_details (script : string) (articles : list Article) : list (string * Json) :=
  [ ("word_count", JCount (wordCount script));
    ("estimated_duration_seconds", JNum (rounded 10 (estimatedDuration script)));
    ("segments", JCount (length articles));
    ("script_preview", JStr (String.substring 0 100 script ++ "...")) ].

(** Lines 193-236 and 756-799. *)
Definition generateScript (w : World) (articles : list Article) : M string :=
  let script := assemble_script w articles in
  logStep w "Script Generation" true (script_details script articles) ;;
  ret script.

(** ** The HTTP client *)

(** What [makeHttpRequest] resolves with. [status] is [res.statusCode],
    [None] when it is not a number; raw text is the string value [JStr]. *)
Record HttpResult : Type := {
  status_code : option Z;
  data : Json
}.

Inductive Promise : Type :=
| Pending
| Fulfilled (v : HttpResult)
| Rejected (e : JsError).

(** One request in flight: its promise, the status code of the response
    whose [data]/[end] listeners are attached (if any), and the text
    received so far. *)
Record Request : Type := {
  promise : Promise;
  attached : option (option Z);
  received : string
}.

Definition new_request : Request :=
  {| promise := Pending; attached := None; received := "" |}.

(** [resolve] and [reject] settle a pending promise and are ignored after. *)
Definition resolve (v : HttpResult) (r : Request) : Request :=
  {| promise := match promise r with Pending => Fulfilled v | p => p end;
     attached := attached r; received := received r |}.

Definition reject (msg : string) (r : Request) : Request :=
  {| promise := match promise r with Pending => Rejected {| message := msg |} | p => p end;
     attached := attached r; received := received r |}.

Definition attach (code : option Z) (r : Request) : Request :=
  {| promise := promise r; attached := Some code; received := "" |}.

Definition append_chunk (chunk : string) (r : Request) : Request :=
  {| promise := promise r; attached := attached r; received := received r ++ chunk |}.

(** [try { JSON.parse(data) } catch (e) { data }]. *)
Definition parse_or_raw `{JsRuntime} (text : string) : Json :=
  match JSON_parse text with
  | Some j => j
  | None => JStr text
  end.

(** The numeral that a template literal prints for an integer. *)
Definition decimalZ (z : Z) : string := NilEmpty.string_of_int (Z.to_int z).

(** [await] on the promise once every event has been delivered. *)
Definition await (p : Promise) : M HttpResult :=
  match p with
  | Pending => fun s => (Hang, s)
  | Fulfilled v => ret v
  | Rejected e => throw e
  end.


(** The response that a request receives: the first [response] event. *)
Fixpoint first_response (events : list HttpEvent) : option (option Z * string) :=
  match events with
  | [] => None
  | EvResponse code statusMessage :: _ => Some (code, statusMessage)
  | _ :: rest => first_response rest
  end.

(** ** Reading values that came from JSON *)

(** The result of an expression that may throw. *)
Inductive Try (A : Type) : Type :=
| Ok (a : A)
| Err (e : JsError).
Arguments Ok {A} a.
Arguments Err {A} e.

Definition TypeError (key : string) : JsError :=
  {| message := "Cannot read properties of undefined (reading '" ++ key ++ "')" |}.

(** [v.key]: a [TypeError] on [null] and [undefined], the binding on an
    object, [undefined] on every other value (none of the keys that the
    sources read is a property of a string, a number or an array). *)
Definition prop (key : string) (v : option Json) : Try (option Json) :=
  match v with
  | None | Some JNull => Err (TypeError key)
  | Some (JObj fields) => Ok (assoc key fields)
  | Some _ => Ok None
  end.

(** [v || fallback]. *)
Definition or_else (v : option Json) (fallback : Json) : Json :=
  match v with
  | Some j => if truthy v then j else fallback
  | None => fallback
  end.

(** The text that a template literal prints for a value: a string prints
    as itself. The source converts where it prints, the embedding where the
    article is made, which is the same on the plain items of the news
    service ([plain_item], [textual_as_text]). *)
Definition as_text `{JsRuntime} (v : Json) : string :=
  match v with
  | JStr s => s
  | other => String_of other
  end.

(** [v === 'text']. *)
Definition is_string (text : string) (v : option Json) : bool :=
  match v with
  | Some (JStr s) => String.eqb s text
  | _ => false
  end.

(** [v.key] on a value already known not to be [null] or [undefined]. *)
Definition member (key : string) (v : Json) : option Json :=
  match prop key (Some v) with
  | Ok found => found
  | Err _ => None
  end.

(** [response.status === 200]. *)
Definition is_200 (code : option Z) : bool :=
  match code with
  | Some c => (c =? 200)%Z
  | None => false
  end.

(** ** Sorting *)

(** [Array.prototype.sort(compare)]: a stable sort, written here as an
    insertion sort. [x], which stood before every element of [sorted], moves
    behind [y] only when [compare(x, y) > 0]; a [NaN] is not positive. When
    [compare] orders the elements consistently, as the comparators of the
    sources do on valid dates, every stable sort gives this result. When it
    yields [NaN] the order is left to the engine by the language, and the
    statements then speak of a permutation only. *)
Section Sort.
Context {A : Type} (compare : A -> A -> option Z).

Definition is_positive (d : option Z) : bool :=
  match d with
  | Some z => (0 <? z)%Z
  | None => false
  end.

Fixpoint insert_sorted (x : A) (sorted : list A) : list A :=
  match sorted with
  | [] => [x]
  | y :: rest =>
      if is_positive (compare x y) then y :: insert_sorted x rest
      else x :: y :: rest
  end.

Definition Array_sort (l : list A) : list A := fold_right insert_sorted [] l.
End Sort.

(** [(a, b) => new Date(b.published) - new Date(a.published)]. *)
Definition by_date_descending `{JsRuntime} (a b : Article) : option Z :=
  match Date_getTime (Some (published b)), Date_getTime (Some (published a)) with
  | Some tb, Some ta => Some (tb - ta)%Z
  | _, _ => None
  end.

(** [a] is published no earlier than [b], both dates being valid: the
    order of a list sorted by published time, descending. *)
Definition newer_or_equal `{JsRuntime} (a b : Article) : Prop :=
  match Date_getTime (Some (published a)), Date_getTime (Some (published b)) with
  | Some ta, Some tb => (tb <= ta)%Z
  | _, _ => False
  end.

(** The published date of [a] is a valid date. *)
Definition dated `{JsRuntime} (a : Article) : Prop :=
  exists t, Date_getTime (Some (published a)) = Some t.

(** ** The stages that both variants share *)

Record MediaItem : Type := {
  media_url : option Json;
  media_source : string;
  media_type : string;
  photographer : option Json;
  alt : Json
}.

Record Audio : Type := {
  audio_file : string;
  audio_duration : Q;
  audio_config : Json
}.

Record Video : Type := {
  video_file : string;
  video_url : string;
  video_duration : Q;
  video_config : Json
}.

(** [process.env.KEY || fallback], as the constructor fills [this.config]. *)
Definition env_or (w : World) (key fallback : string) : string :=
  match env w !! key with
  | Some v => if String.eqb v "" then fallback else v
  | None => fallback
  end.

Definition tts_openai_api_key (w : World) : string := env_or w "TTS_OPENAI_API_KEY" "".
Definition pexels_api_key (w : World) : string := env_or w "PEXELS_API_KEY" "".
Definition unsplash_access_key (w : World) : string := env_or w "UNSPLASH_ACCESS_KEY" "".
Definition nasa_api_key (w : World) : string := env_or w "NASA_API_KEY" "DEMO_KEY".

Definition nonempty (s : string) : bool := negb (String.eqb s "").

Definition requiredKeys : list string :=
  ["TTS_OPENAI_API_KEY"; "PEXELS_API_KEY"; "UNSPLASH_ACCESS_KEY"].

(** The test of [requiredKeys.forEach]: the variable is set, not empty, and
    holds neither ['your_'] nor ['_here']. *)
Definition is_configured (w : World) (key : string) : bool :=
  match env w !! key with
  | Some v => nonempty v && negb (includes "your_" v) && negb (includes "_here" v)
  | None => false
  end.

(** Lines 115-150 and 643-678. *)
Definition validateEnvironment (w : World) : M bool :=
  let configuredKeys := List.filter (fun key => is_configured w key) requiredKeys in
  let missingKeys := List.filter (fun key => negb (is_configured w key)) requiredKeys in
  let details :=
    [ ("configured_keys", JCount (length configuredKeys));
      ("missing_keys", JCount (length missingKeys));
      ("missing_list",
         if Nat.ltb 0 (length missingKeys) then JArr (map JStr missingKeys)
         else JStr "None") ] in
  let success := Nat.eqb (length missingKeys) 0 in
  logStep w "Environment Validation" success details ;;
  ret success.

(** The numeral that a template literal prints for the double nearest to
    [tenths / 10], for a count of tenths that is not negative: [176] prints
    as [17.6] and [170] as [17]. *)
Definition print_tenths (tenths : Z) : string :=
  if (tenths mod 10 =? 0)%Z then decimalZ (tenths / 10)
  else decimalZ (tenths / 10) ++ "." ++ decimalZ (tenths mod 10).

Definition ttsConfig : Json :=
  JObj [ ("voice_id", JStr "tts_openai_alloy"); ("voice_name", JStr "Alloy");
         ("language", JStr "en-US"); ("speed", JNum 1); ("pitch", JNum 0) ].

(** Lines 320-361 and 877-918. No request is made: with a credential the
    stage only sets [api_called]. *)
Definition generateTTS (w : World) (script : string) : M Audio :=
  let estimated := estimatedDuration script in
  let fileSizeMB := double (estimated * (1 # 2)) in
  let ttsSuccess := nonempty (tts_openai_api_key w) in
  let details :=
    [ ("duration_seconds", JNum (rounded 10 estimated));
      ("estimated_file_size_mb", JNum (rounded 100 fileSizeMB));
      ("voice_config", ttsConfig);
      ("processing_time", JStr (decimalZ (processing_draw w) ++ " seconds"));
      ("api_called", JBool ttsSuccess) ] in
  logStep w "TTS Generation" true details ;;
  ret {| audio_file := "output/narration.mp3"; audio_duration := estimated;
         audio_config := ttsConfig |}.

Definition productionConfig : Json :=
  JObj [ ("resolution", JStr "1920x1080"); ("fps", JNum 30); ("format", JStr "mp4");
         ("codec", JStr "h264"); ("bitrate", JStr "5000k") ].

(** Lines 363-395 and 920-952. *)
Definition produceVideo (w : World) (script : string) (media : list MediaItem)
    (audio : Audio) : M Video :=
  let videoDuration := audio_duration audio in
  let estimatedFileSize := double (videoDuration * 2) in
  let details :=
    [ ("video_duration",
         JStr (print_tenths (Math_round (double (videoDuration * 10))) ++ " seconds"));
      ("resolution", JStr "1920x1080");
      ("estimated_size_mb", JNum (rounded 10 estimatedFileSize));
      ("images_used", JCount (length media));
      ("production_config", productionConfig);
      ("output_file", JStr "output/space_news_video.mp4") ] in
  logStep w "Video Production" true details ;;
  ret {| video_file := "output/space_news_video.mp4";
         video_url := "https://example.com/space_news_video.mp4";
         video_duration := videoDuration; video_config := productionConfig |}.

(** [mediaItems.filter(item => item.source === name).length]. *)
Definition count_source (name : string) (items : list MediaItem) : nat :=
  length (List.filter (fun item => String.eqb (media_source item) name) items).

(** [mediaItems.length > 0 ? mediaItems[0].alt : 'None']. *)
Definition sample_image (items : list MediaItem) : Json :=
  match items with
  | first :: _ => alt first
  | [] => JStr "None"
  end.

(** [photos.forEach(photo => mediaItems.push(item(photo)))]: the items pushed
    before a throw stay in [mediaItems]; the flag tells whether the loop ran
    to its end. *)
Fixpoint forEach_push (item : Json -> Try MediaItem) (photos : list Json)
    (mediaItems : list MediaItem) : list MediaItem * bool :=
  match photos with
  | [] => (mediaItems, true)
  | photo :: rest =>
      match item photo with
      | Ok m => forEach_push item rest (mediaItems ++ [m])
      | Err _ => (mediaItems, false)
      end
  end.

(** [{ url: photo.src.large, source: 'pexels', type: 'image',
       photographer: photo.photographer, alt: photo.alt || 'Space image' }]. *)
Definition pexels_item (photo : Json) : Try MediaItem :=
  match prop "src" (Some photo) with
  | Err e => Err e
  | Ok src =>
      match prop "large" src with
      | Err e => Err e
      | Ok large =>
          Ok {| media_url := large; media_source := "pexels"; media_type := "image";
                photographer := member "photographer" photo;
                alt := or_else (member "alt" photo) (JStr "Space image") |}
      end
  end.

(** The body of [if (response.status === 200 && response.data.photos)]
    inside its [try]: the items after it, and whether it ran to the end
    of the [forEach]. [key] is [photos] for Pexels, [results] for Unsplash. *)
Definition push_photos (key : string) (item : Json -> Try MediaItem)
    (response : HttpResult) (mediaItems : list MediaItem) : list MediaItem * bool :=
  if is_200 (status_code response) then
    match prop key (Some (data response)) with
    | Err _ => (mediaItems, false)
    | Ok photos =>
        if truthy photos then
          match photos with
          | Some (JArr l) => forEach_push item l mediaItems
          | _ => (mediaItems, false)
          end
        else (mediaItems, false)
    end
  else (mediaItems, false).

(** [[...new Set(names)]]: the first occurrence of every name, in order. *)
Fixpoint unique (names : list string) : list string :=
  match names with
  | [] => []
  | x :: rest => x :: List.filter (fun y => negb (String.eqb y x)) (unique rest)
  end.

(** [allArticles.length > 0 ? allArticles[0].title : 'None']. *)
Definition latest_article (allArticles : list Article) : Json :=
  match allArticles with
  | first :: _ => JStr (title first)
  | [] => JStr "None"
  end.

(** ** The first variant of the pipeline (lines 1-515) *)

Module PipelineA.
Section Variant.
Context `{JsRuntime}.

(** Lines 59-72: the response callback attaches the [data] and [end]
    listeners whatever the status; only [error] on the request rejects.
    Nothing listens for [timeout] or for [error] on the response. *)
Definition on_event (r : Request) (ev : HttpEvent) : Request :=
  match ev with
  | EvResponse code _ => attach code r
  | EvData chunk =>
      match attached r with
      | Some _ => append_chunk chunk r
      | None => r
      end
  | EvEnd =>
      match attached r with
      | Some code => resolve {| status_code := code; data := parse_or_raw (received r) |} r
      | None => r
      end
  | EvResponseError _ => r
  | EvRequestError msg => reject msg r
  | EvTimeout => r
  end.

Definition deliver (events : list HttpEvent) : Request :=
  fold_left on_event events new_request.

Definition makeHttpRequest (w : World) (url : string) : M HttpResult :=
  await (promise (deliver (network w url))).

Definition pexelsUrl : string := "https://api.pexels.com/v1/search?query=space&per_page=5".
Definition unsplashUrl : string := "https://api.unsplash.com/search/photos?query=space&per_page=3".

(** [{ url: photo.urls.regular, source: 'unsplash', type: 'image',
       photographer: photo.user.name,
       alt: photo.alt_description || 'Space image' }]. *)
Definition unsplash_item (photo : Json) : Try MediaItem :=
  match prop "urls" (Some photo) with
  | Err e => Err e
  | Ok urls =>
      match prop "regular" urls with
      | Err e => Err e
      | Ok regular =>
          match prop "name" (member "user" photo) with
          | Err e => Err e
          | Ok name =>
              Ok {| media_url := regular; media_source := "unsplash"; media_type := "image";
                    photographer := name;
                    alt := or_else (member "alt_description" photo) (JStr "Space image") |}
          end
      end
  end.

Definition nasaImages : list string :=
  [ "https://images.nasa.gov/hubble-1.jpg";
    "https://images.nasa.gov/mars-1.jpg";
    "https://images.nasa.gov/nebula-1.jpg" ].

(** [nasaImages.forEach((url, index) => mediaItems.push(...))]. *)
Fixpoint forEach_nasa (urls : list string) (index : nat) (mediaItems : list MediaItem)
    : list MediaItem :=
  match urls with
  | [] => mediaItems
  | u :: rest =>
      forEach_nasa rest (S index)
        (mediaItems ++
         [ {| media_url := Some (JStr u); media_source := "nasa"; media_type := "image";
              photographer := Some (JStr "NASA");
              alt := JStr ("NASA space image " ++ decimal (index + 1)) |} ])
  end.

(** The three items that the loop over [nasaImages] appends. *)
Definition nasa_items : list MediaItem := forEach_nasa nasaImages 0 [].

(** Lines 238-318. *)
Definition collectMedia (w : World) : M (list MediaItem) :=
  mediaItems <-
    (if nonempty (pexels_api_key w) then
       try_catch
         (response <- makeHttpRequest w pexelsUrl ;;
          ret (fst (push_photos "photos" pexels_item response [])))
         (fun _ => ret [])
     else ret []) ;;
  mediaItems <-
    (if nonempty (unsplash_access_key w) then
       try_catch
         (response <- makeHttpRequest w unsplashUrl ;;
          ret (fst (push_photos "results" unsplash_item response mediaItems)))
         (fun _ => ret mediaItems)
     else ret mediaItems) ;;
  let mediaItems := forEach_nasa nasaImages 0 mediaItems in
  let details :=
    [ ("total_images", JCount (length mediaItems));
      ("pexels_count", JCount (count_source "pexels" mediaItems));
      ("unsplash_count", JCount (count_source "unsplash" mediaItems));
      ("nasa_count", JCount (count_source "nasa" mediaItems));
      ("sample_image", sample_image mediaItems) ] in
  logStep w "Media Collection" true details ;;
  ret mediaItems.
End Variant.
End PipelineA.

(** ** The second variant of the pipeline (lines 516-1071) *)

Module PipelineB.
Section Variant.
Context `{JsRuntime}.

(** Lines 574-616: the response callback rejects a status that is not a
    number and a status of 400 or more before it attaches any listener;
    the request rejects on [error] and on [timeout]. *)
Definition on_event (r : Request) (ev : HttpEvent) : Request :=
  match ev with
  | EvResponse None _ => reject "Invalid response - no status code" r
  | EvResponse (Some code) statusMessage =>
      if (400 <=? code)%Z then
        reject ("HTTP " ++ decimalZ code ++ ": " ++
                (if String.eqb statusMessage "" then "Request failed" else statusMessage)) r
      else attach (Some code) r
  | EvData chunk =>
      match attached r with
      | Some _ => append_chunk chunk r
      | None => r
      end
  | EvEnd =>
      match attached r with
      | Some code => resolve {| status_code := code; data := parse_or_raw (received r) |} r
      | None => r
      end
  | EvResponseError msg =>
      match attached r with
      | Some _ => reject ("Response error: " ++ msg) r
      | None => r
      end
  | EvRequestError msg => reject ("Request error: " ++ msg) r
  | EvTimeout => reject "Request timeout" r
  end.

Definition deliver (events : list HttpEvent) : Request :=
  fold_left on_event events new_request.

Definition makeHttpRequest (w : World) (url : string) : M HttpResult :=
  await (promise (deliver (network w url))).

Definition newsUrl : string := "http://localhost:5000/scrape-news".

(** The callback of [realNews.map]: [item.headline_title] throws on a
    [null] item; the clock is read only when [item.published] is falsy. *)
Definition convert_item (w : World) (item : Json) : M Article :=
  match prop "headline_title" (Some item) with
  | Err e => throw e
  | Ok headline =>
      published <-
        (if truthy (member "published" item) then ret (or_else (member "published" item) JNull)
         else t <- now w ;; ret (JIso t)) ;;
      ret {| title := as_text (or_else headline (JStr "Unknown Title"));
             source := as_text (or_else (member "source" item) (JStr "Unknown Source"));
             published := published;
             url := as_text (or_else (member "url" item) (JStr "")) |}
  end.

Fixpoint map_items (w : World) (items : list Json) : M (list Article) :=
  match items with
  | [] => ret []
  | item :: rest =>
      a <- convert_item w item ;;
      converted <- map_items w rest ;;
      ret (a :: converted)
  end.

(** Lines 686-712, the body of the [try]: [Some] is its [return],
    [None] is falling out of the [if]. *)
Definition news_from_service (w : World) : M (option (list Article)) :=
  response <- makeHttpRequest w newsUrl ;;
  if is_200 (status_code response) then
    match prop "status" (Some (data response)) with
    | Err e => throw e
    | Ok st =>
        if is_string "success" st then
          match or_else (member "data" (data response)) (JArr []) with
          | JArr realNews =>
              converted <- map_items w realNews ;;
              let allArticles := Array_sort by_date_descending converted in
              let details :=
                [ ("articles_collected", JCount (length allArticles));
                  ("sources", JArr (map JStr (unique (map source allArticles))));
                  ("successful_feeds", JStr "flask_service");
                  ("latest_article", latest_article allArticles) ] in
              logStep w "News Collection" true details ;;
              ret (Some (firstn 5 allArticles))
          | _ => throw {| message := "realNews.map is not a function" |}
          end
        else ret None
    end
  else ret None.

(** The news service fails: the request rejects (a connection error, a
    timeout, a status of 400 or more), or it resolves with a status other
    than 200, or with a body that is [null] or whose [status] member is not
    ['success']. *)
Inductive NewsServiceFails (w : World) : Prop :=
| fails_by_rejection e :
    promise (deliver (network w newsUrl)) = Rejected e ->
    NewsServiceFails w
| fails_by_status v :
    promise (deliver (network w newsUrl)) = Fulfilled v ->
    is_200 (status_code v) = false ->
    NewsServiceFails w
| fails_by_payload v :
    promise (deliver (network w newsUrl)) = Fulfilled v ->
    is_200 (status_code v) = true ->
    (forall st, prop "status" (Some (data v)) = Ok st -> is_string "success" st = false) ->
    NewsServiceFails w.

(** Lines 719-738, the array literal, given the three clock readings. *)
Definition placeholders (t1 t2 t3 : Z) : list Article :=
  [ {| title := "NASA Artemis Mission Achieves Major Milestone";
       source := "NASA News"; published := JIso t1;
       url := "https://www.nasa.gov/artemis" |};
    {| title := "SpaceX Launches Advanced Satellite Constellation";
       source := "Space News"; published := JIso t2;
       url := "https://www.spacex.com" |};
    {| title := "James Webb Telescope Discovers Distant Galaxy";
       source := "ESA Updates"; published := JIso t3;
       url := "https://www.esa.int" |} ].

(** The three [new Date()] of the literal read the clock in turn. *)
Definition fallbackNews (w : World) : M (list Article) :=
  t1 <- now w ;;
  t2 <- now w ;;
  t3 <- now w ;;
  ret (placeholders t1 t2 t3).

(** Lines 680-754. *)
Definition collectNews (w : World) : M (list Article) :=
  fromService <- try_catch (news_from_service w) (fun _ => ret None) ;;
  match fromService with
  | Some articles => ret articles
  | None =>
      fallback <- fallbackNews w ;;
      let allArticles := Array_sort by_date_descending fallback in
      let details :=
        [ ("articles_collected", JCount (length allArticles));
          ("sources", JArr [JStr "Simulated Data"]);
          ("successful_feeds", JStr "offline_mode");
          ("latest_article", latest_article allArticles) ] in
      logStep w "News Collection" true details ;;
      ret (firstn 5 allArticles)
  end.

Definition pexelsUrl : string :=
  "https://api.pexels.com/v1/search?query=space&per_page=10&orientation=landscape".

Definition simulatedImages : list string :=
  [ "https://images.pexels.com/photos/2150/sky-space-dark-galaxy.jpg";
    "https://images.pexels.com/photos/39649/space-cosmos-universe-galaxy-39649.jpeg";
    "https://images.pexels.com/photos/73873/rocket-launch-rocket-take-off-nasa-73873.jpeg";
    "https://images.pexels.com/photos/87009/earth-soil-creep-moon-lunar-surface-87009.jpeg";
    "https://images.pexels.com/photos/23769/pexels-photo-23769.jpg" ].

(** [realMediaCollected ? 'curated' : 'simulated']. *)
Definition fallback_source (realMediaCollected : bool) : string :=
  if realMediaCollected then "curated" else "simulated".

(** [simulatedImages.forEach((url, index) => mediaItems.push(...))]. *)
Fixpoint forEach_simulated (realMediaCollected : bool) (urls : list string) (index : nat)
    (mediaItems : list MediaItem) : list MediaItem :=
  match urls with
  | [] => mediaItems
  | u :: rest =>
      forEach_simulated realMediaCollected rest (S index)
        (mediaItems ++
         [ {| media_url := Some (JStr u);
              media_source := fallback_source realMediaCollected;
              media_type := "image";
              photographer :=
                Some (JStr (if realMediaCollected then "Curated" else "Simulated Data"));
              alt := JStr ("Space image " ++ decimal (index + 1)) |} ])
  end.

(** Lines 808-836: what [mediaItems] and [realMediaCollected] are after
    the Pexels block. *)
Definition collect_real (w : World) : M (list MediaItem * bool) :=
  if nonempty (pexels_api_key w) && negb (String.eqb (pexels_api_key w) "") then
    try_catch
      (pexelsResponse <- makeHttpRequest w pexelsUrl ;;
       ret (push_photos "photos" pexels_item pexelsResponse []))
      (fun _ => ret ([], false))
  else ret ([], false).

(** The five items that the padding appends to an empty list. *)
Definition padding (realMediaCollected : bool) : list MediaItem :=
  forEach_simulated realMediaCollected simulatedImages 0 [].

(** Lines 843-862: the padding with the five curated images. *)
Definition pad (realMediaCollected : bool) (mediaItems : list MediaItem) : list MediaItem :=
  if Nat.ltb (length mediaItems) 5 then
    forEach_simulated realMediaCollected simulatedImages 0 mediaItems
  else mediaItems.

(** Lines 801-875. *)
Definition collectMedia (w : World) : M (list MediaItem) :=
  collected <- collect_real w ;;
  let realMediaCollected := snd collected in
  let mediaItems := pad realMediaCollected (fst collected) in
  let details :=
    [ ("total_images", JCount (length mediaItems));
      ("pexels_count", JCount (count_source "pexels" mediaItems));
      ("unsplash_count", JNum 0);
      ("simulated_count",
         JCount (length (List.filter (fun item =>
                    String.eqb (media_source item) "simulated" ||
                    String.eqb (media_source item) "curated") mediaItems)));
      ("api_calls_successful", JStr (if realMediaCollected then "partial" else "offline_mode"));
      ("sample_image", sample_image mediaItems) ] in
  logStep w "Media Collection" true details ;;
  ret mediaItems.
End Variant.
End PipelineB.

(** ** The orchestrator

    [runPipeline], [healthCheck] and the constructor are the same text in
    both variants. [runPipeline] reaches the stages through [this]; the
    record [SpacePipeline] holds the methods it dispatches to, so that a
    run can be stated for the stages of the sources and for a stage that
    raises as well. *)

Record SpacePipeline : Type := {
  this_validateEnvironment : M bool;
  this_collectNews : M (list Article);
  this_generateScript : list Article -> M string;
  this_collectMedia : M (list MediaItem);
  this_generateTTS : string -> M Audio;
  this_produceVideo : string -> list MediaItem -> Audio -> M Video
}.

(** The methods of the second variant. *)
Definition SpacePipelineB `{JsRuntime} (w : World) : SpacePipeline :=
  {| this_validateEnvironment := validateEnvironment w;
     this_collectNews := PipelineB.collectNews w;
     this_generateScript := generateScript w;
     this_collectMedia := PipelineB.collectMedia w;
     this_generateTTS := generateTTS w;
     this_produceVideo := produceVideo w |}.

(** What [runPipeline] returns: the boolean of the health check, or
    [this.results]. *)
Inductive PipelineReturn : Type :=
| Health (allHealthy : bool)
| Results (r : RunRecord).

(** The constructor, lines 10-24 and 524-538: [Date.now()] for the workflow
    id, then [new Date()]; [this.config] is read off the environment where
    it is used. *)
Definition construct (w : World) : M unit :=
  id <- now w ;;
  start <- now w ;;
  modify_results (fun _ =>
    {| workflow_id := id; start_time := start; steps := []; status := running;
       end_time := None; total_duration_seconds := None;
       final_outputs := None; error := None |}).

Definition optional {A} (key : string) (f : A -> Json) (v : option A) : list (string * Json) :=
  match v with
  | Some a => [(key, f a)]
  | None => []
  end.

Definition StepLog_to_json (entry : StepLog) : Json :=
  JObj [ ("step", JStr (step entry)); ("timestamp", JIso (timestamp entry));
         ("success", JBool (success entry)); ("details", JObj (details entry)) ].

Definition FinalOutputs_to_json (o : FinalOutputs) : Json :=
  JObj [ ("script", JStr (fo_script o)); ("media_count", JCount (fo_media_count o));
         ("audio_duration", JNum (fo_audio_duration o));
         ("video_file", JStr (fo_video_file o)); ("video_url", JStr (fo_video_url o)) ].

(** [this.results] as [JSON.stringify] sees it: the keys in the order of
    their first assignment, the absent ones left out. *)
Definition RunRecord_to_json (r : RunRecord) : Json :=
  JObj ([ ("workflow_id", JStr ("workflow_" ++ decimalZ (workflow_id r)));
          ("start_time", JIso (start_time r));
          ("steps", JArr (map StepLog_to_json (steps r)));
          ("status", JStr (Status_text (status r))) ]
        ++ optional "end_time" JIso (end_time r)
        ++ optional "total_duration_seconds" JNum (total_duration_seconds r)
        ++ optional "final_outputs" FinalOutputs_to_json (final_outputs r)
        ++ optional "error" JStr (error r)).

Definition resultsFile : string := "pipeline_results.json".

(** [fs.writeFileSync('pipeline_results.json',
                      JSON.stringify(this.results, null, 2))]. *)
Definition save_results : M unit :=
  r <- get_results ;;
  writeFileSync resultsFile (JsonDoc (RunRecord_to_json r)).

Definition set_completed (endTime : Z) (outputs : FinalOutputs) (r : RunRecord) : RunRecord :=
  {| workflow_id := workflow_id r; start_time := start_time r; steps := steps r;
     status := completed; end_time := Some endTime;
     total_duration_seconds := Some (double (inject_Z (endTime - start_time r) / 1000));
     final_outputs := Some outputs; error := error r |}.

Definition set_failed (msg : string) (r : RunRecord) : RunRecord :=
  {| workflow_id := workflow_id r; start_time := start_time r; steps := steps r;
     status := failed; end_time := end_time r;
     total_duration_seconds := total_duration_seconds r;
     final_outputs := final_outputs r; error := Some msg |}.

Section Orchestrator.
Variable w : World.
Variable this : SpacePipeline.

(** Lines 397-417 and 954-974. *)
Definition healthCheck : M bool :=
  environment <- this_validateEnvironment this ;;
  let services :=
    [ environment; true;
      nonempty (pexels_api_key w) && nonempty (unsplash_access_key w);
      nonempty (tts_openai_api_key w) ] in
  ret (forallb (fun healthy => healthy) services).

(** Lines 430-445 and 987-1002, the six stages in their order. *)
Definition run_stages : M (string * list MediaItem * Audio * Video) :=
  envValid <- this_validateEnvironment this ;;
  articles <- this_collectNews this ;;
  script <- this_generateScript this articles ;;
  media <- this_collectMedia this ;;
  audio <- this_generateTTS this script ;;
  video <- this_produceVideo this script media audio ;;
  ret (script, media, audio, video).

(** Lines 424-475 and 981-1032, the body of the [try]. *)
Definition attempt (healthCheckOnly : bool) : M PipelineReturn :=
  if healthCheckOnly then
    allHealthy <- healthCheck ;;
    ret (Health allHealthy)
  else
    produced <- run_stages ;;
    let '(script, media, audio, video) := produced in
    endTime <- now w ;;
    modify_results (set_completed endTime
      {| fo_script := script; fo_media_count := length media;
         fo_audio_duration := audio_duration audio;
         fo_video_file := video_file video; fo_video_url := video_url video |}) ;;
    save_results ;;
    r <- get_results ;;
    ret (Results r).

(** Lines 477-486 and 1034-1043, the [catch]. *)
Definition on_failure (error : JsError) : M PipelineReturn :=
  modify_results (set_failed (message error)) ;;
  logStep w "Pipeline Execution" false [("error", JStr (message error))] ;;
  save_results ;;
  throw error.

(** Lines 419-487 and 976-1044. *)
Definition runPipeline (healthCheckOnly : bool) : M PipelineReturn :=
  try_catch (attempt healthCheckOnly) on_failure.
End Orchestrator.

(** A stage of [this] raises [e], the stages before it having returned;
    [s1] is the state at the throw. *)
Inductive StageRaises (this : SpacePipeline) (s : PState) (e : JsError) (s1 : PState)
    : Prop :=
| raises_validateEnvironment :
    this_validateEnvironment this s = (Throw e, s1) ->
    StageRaises this s e s1
| raises_collectNews envValid sa :
    this_validateEnvironment this s = (Ret envValid, sa) ->
    this_collectNews this sa = (Throw e, s1) ->
    StageRaises this s e s1
| raises_generateScript envValid sa articles sb :
    this_validateEnvironment this s = (Ret envValid, sa) ->
    this_collectNews this sa = (Ret articles, sb) ->
    this_generateScript this articles sb = (Throw e, s1) ->
    StageRaises this s e s1
| raises_collectMedia envValid sa articles sb script sc :
    this_validateEnvironment this s = (Ret envValid, sa) ->
    this_collectNews this sa = (Ret articles, sb) ->
    this_generateScript this articles sb = (Ret script, sc) ->
    this_collectMedia this sc = (Throw e, s1) ->
    StageRaises this s e s1
| raises_generateTTS envValid sa articles sb script sc media sd :
    this_validateEnvironment this s = (Ret envValid, sa) ->
    this_collectNews this sa = (Ret articles, sb) ->
    this_generateScript this articles sb = (Ret script, sc) ->
    this_collectMedia this sc = (Ret media, sd) ->
    this_generateTTS this script sd = (Throw e, s1) ->
    StageRaises this s e s1
| raises_produceVideo envValid sa articles sb script sc media sd audio se :
    this_validateEnvironment this s = (Ret envValid, sa) ->
    this_collectNews this sa = (Ret articles, sb) ->
    this_generateScript this articles sb = (Ret script, sc) ->
    this_collectMedia this sc = (Ret media, sd) ->
    this_generateTTS this script sd = (Ret audio, se) ->
    this_produceVideo this script media audio se = (Throw e, s1) ->
    StageRaises this s e s1.

(** ** The scheduler ([src/scheduler.js]) *)

Module Scheduler.
Section VideoScheduler.
Context `{JsRuntime}.
Variable w : World.
(** The class that [scheduler.js] imports from [./pipeline.js]. *)
Variable pipeline : SpacePipeline.

Definition lastRunFile : string := "last_run.json".

(** The object [runInfo] of [saveLastRun]; a member whose value is
    [undefined] is not written by [JSON.stringify]. *)
Definition runInfo (t : Z) (results : PipelineReturn) : Json :=
  match results with
  | Results r =>
      JObj ([ ("timestamp", JIso t); ("status", JStr (Status_text (status r))) ]
            ++ optional "duration" JNum (total_duration_seconds r)
            ++ optional "video_url" JStr (option_map fo_video_url (final_outputs r)))
  | Health _ => JObj [ ("timestamp", JIso t) ]
  end.

(** Lines 11-20. *)
Definition saveLastRun (results : PipelineReturn) : M unit :=
  t <- now w ;;
  writeFileSync lastRunFile (JsonDoc (runInfo t results)).

(** [JSON.parse(data)] on what the file holds. *)
Definition parse_file (d : FileData) : M Json :=
  match d with
  | JsonDoc j => ret j
  | PlainText text | ReadOnly text =>
      match JSON_parse text with
      | Some j => ret j
      | None => throw {| message := "Unexpected token in JSON" |}
      end
  | Unreadable => throw {| message := "EACCES: permission denied" |}
  end.

(** Lines 22-29; [null] is [JNull]. *)
Definition getLastRunInfo : M Json :=
  try_catch
    (d <- readFileSync lastRunFile ;;
     parse_file d)
    (fun _ => ret JNull).

(** What [getLastRunInfo] makes of the files: the parsed document, or
    [null] when there is none to parse. *)
Definition stored (s : PState) : Json :=
  match files s !! lastRunFile with
  | Some (JsonDoc j) => j
  | Some (PlainText text) | Some (ReadOnly text) =>
      match JSON_parse text with
      | Some j => j
      | None => JNull
      end
  | Some Unreadable | None => JNull
  end.

Definition twoHours : Z := 2 * 60 * 60 * 1000.

(** [timeSinceLast < twoHours], false when [timeSinceLast] is [NaN]. *)
Definition less_than (timeSinceLast : option Z) (bound : Z) : bool :=
  match timeSinceLast with
  | Some d => (d <? bound)%Z
  | None => false
  end.

(** Lines 31-45. *)
Definition shouldRunNow : M bool :=
  lastRun <- getLastRunInfo ;;
  if negb (truthy (Some lastRun)) then ret true
  else
    let lastRunTime := Date_getTime (member "timestamp" lastRun) in
    current <- now w ;;
    let timeSinceLast := option_map (fun t => (current - t)%Z) lastRunTime in
    if less_than timeSinceLast twoHours && is_string "completed" (member "status" lastRun)
    then ret false
    else ret true.

(** Lines 47-73. *)
Definition runScheduledVideoGeneration : M unit :=
  go <- shouldRunNow ;;
  if negb go then ret tt
  else
    try_catch
      (construct w ;;
       results <- runPipeline w pipeline false ;;
       saveLastRun results)
      (fun _ => ret tt).

(** The callback of [setInterval], run [n] times. *)
Fixpoint interval (n : nat) : M unit :=
  match n with
  | O => ret tt
  | S k => runScheduledVideoGeneration ;; interval k
  end.

(** Lines 75-91, followed by [n] periods of four hours. *)
Definition startScheduler (n : nat) : M unit :=
  lastRun <- getLastRunInfo ;;
  (if negb (truthy (Some lastRun)) then runScheduledVideoGeneration else ret tt) ;;
  interval n.
End VideoScheduler.
End Scheduler.

(** ** Sample inputs *)

(** A runtime that knows the JSON documents and the dates of a table; every
    other text is neither JSON nor a date. *)
Definition table_runtime (documents : list (string * Json)) (dates : list (string * Z))
    : JsRuntime :=
  {| JSON_parse := fun text => assoc text documents;
     Date_parse := fun text =>
       match find (fun entry => String.eqb (fst entry) text) dates with
       | Some entry => Some (snd entry)
       | None => None
       end;
     Date_parse_object := fun _ => None;
     String_of := fun _ => "[object Object]" |}.

(** A runtime for inputs that hold no foreign JSON and no foreign date. *)
Definition plain_runtime : JsRuntime := table_runtime [] [].

(** A clock that starts on 2 November 2026 and advances by one millisecond
    at every reading. *)
Definition sample_clock (k : nat) : Z := (1793620800000 + Z.of_nat k)%Z.

(** No credential is configured and no server answers: every request ends
    with a connection error. *)
Definition offline_world : World :=
  {| env := ∅;
     clock := sample_clock;
     network := fun _ => [EvRequestError "connect ECONNREFUSED"];
     intro_draw := First;
     outro_draw := First;
     processing_draw := 17 |}.

(** As [offline_world], with the second intro drawn: a script of 61 pieces
    when the placeholders fill it. *)
Definition second_intro_world : World :=
  {| env := ∅;
     clock := sample_clock;
     network := fun _ => [EvRequestError "connect ECONNREFUSED"];
     intro_draw := Second;
     outro_draw := First;
     processing_draw := 17 |}.

(** Every server answers 500, with a body that is not JSON. *)
Definition news_down_world : World :=
  {| env := ∅;
     clock := sample_clock;
     network := fun _ => [ EvResponse (Some 500%Z) "Internal Server Error";
                           EvData "Service down"; EvEnd ];
     intro_draw := Second;
     outro_draw := Third;
     processing_draw := 17 |}.

Definition fresh_record : RunRecord :=
  {| workflow_id := 0; start_time := 0; steps := []; status := running;
     end_time := None; total_duration_seconds := None;
     final_outputs := None; error := None |}.

(** A process that has made no clock reading yet, on an empty directory. *)
Definition initial_state : PState :=
  {| results := fresh_record; files := ∅; ticks := 0 |}.

Definition sample_article : Article :=
  {| title := "Lunar Gateway module docks";
     source := "ESA";
     published := JIso 1793620000000;
     url := "https://example.com/news/1" |}.

(** An article with a headline of five words. *)
Definition long_headline_article : Article :=
  {| title := "Second Lunar Gateway module docks";
     source := "ESA";
     published := JIso 1793620000000;
     url := "https://example.com/news/2" |}.

(** A photo of Pexels whose [alt] is an object with a member [toString]. *)
Definition odd_photo : Json :=
  JObj [ ("src", JObj [("large", JStr "https://images.pexels.com/photos/2150/sky.jpg")]);
         ("photographer", JStr "Ada");
         ("alt", JObj [("toString", JNum 1)]) ].

Definition odd_photos_answer : Json := JObj [ ("photos", JArr [odd_photo]) ].

(** The text [{..}] stands for the body that Pexels sends. *)
Definition odd_alt_runtime : JsRuntime := table_runtime [("{..}", odd_photos_answer)] [].

(** The Pexels credential is set and Pexels answers with [odd_photo]; every
    other request is refused. *)
Definition odd_alt_world : World :=
  {| env := {[ "PEXELS_API_KEY" := "px-31c9" ]};
     clock := sample_clock;
     network := fun url =>
       if String.eqb url PipelineB.pexelsUrl
       then [EvResponse (Some 200%Z) "OK"; EvData "{..}"; EvEnd]
       else [EvRequestError "connect ECONNREFUSED"];
     intro_draw := First;
     outro_draw := First;
     processing_draw := 17 |}.

(** The record that the scheduler saved after a completed run at time [t]. *)
Definition completed_run_info (t : Z) : Json :=
  JObj [ ("timestamp", JIso t); ("status", JStr "completed");
         ("duration", JNum (9 # 1000));
         ("video_url", JStr "https://example.com/space_news_video.mp4") ].


(** The last run completed three hours before the first clock reading, and
    [pipeline_results.json] is an entry that cannot be written. *)
Definition blocked_results_state : PState :=
  {| results := fresh_record;
     files := {[ Scheduler.lastRunFile :=
                   JsonDoc (completed_run_info (sample_clock 0 - 3 * 60 * 60 * 1000));
                 resultsFile := Unreadable ]};
     ticks := 0 |}.


(** ** Statements about the methods *)

(** The state after one call of [logStep]: one clock reading and one step
    more. *)
Definition after_step (w : World) (name : string) (ok : bool)
    (d : list (string * Json)) (s : PState) : PState :=
  {| results := push_step {| step := name; timestamp := clock w (ticks s);
                             success := ok; details := d |} (results s);
     files := files s;
     ticks := S (ticks s) |}.

(** [ensures c s Q]: started in [s], the method [c] does not throw, and if
    it returns then its value and final state satisfy [Q]. *)
Definition ensures {A} (c : M A) (s : PState) (Q : A -> PState -> Prop) : Prop :=
  match c s with
  | (Ret a, s') => Q a s'
  | (Throw _, _) => False
  | (Hang, _) => True
  end.

(** From [s] to [s'] the members [status], [end_time],
    [total_duration_seconds], [final_outputs] and [error] of [this.results]
    and the files are as they were. *)
Definition untouched (s s' : PState) : Prop :=
  status (results s') = status (results s) /\
  end_time (results s') = end_time (results s) /\
  total_duration_seconds (results s') = total_duration_seconds (results s) /\
  final_outputs (results s') = final_outputs (results s) /\
  error (results s') = error (results s) /\
  files s' = files s.

(** All that [c] does to the state is read the clock and log steps. *)
Definition only_logs {A} (c : M A) : Prop :=
  forall s, untouched s (snd (c s)).

(** The decision of [shouldRunNow], as a function of the stored document
    and of the clock reading that the decision makes. *)
Definition decision `{JsRuntime} (w : World) (s : PState) : bool :=
  let lastRun := Scheduler.stored s in
  negb (truthy (Some lastRun) &&
        Scheduler.less_than
          (option_map (fun t => (clock w (ticks s) - t)%Z)
                      (Date_getTime (member "timestamp" lastRun)))
          Scheduler.twoHours &&
        is_string "completed" (member "status" lastRun)).


(** The stored record has no [timestamp] on which [new Date] throws: so it
    is with every record that [saveLastRun] writes, and with every document
    whose [timestamp] is a string or a number. *)
Definition convertible_timestamp `{JsRuntime} (s : PState) : Prop :=
  match member "timestamp" (Scheduler.stored s) with
  | Some v => printable v = true
  | None => True
  end.

(** ** The trace of a method

    Every stage of the sources changes the state in two ways only: it reads
    the clock, and it calls [logStep]. *)

(** One reading of the clock. *)
Definition tick (s : PState) : PState :=
  {| results := results s; files := files s; ticks := S (ticks s) |}.

(** [logged w s entries s']: from [s] to [s'] the clock was read and the
    steps [entries] were logged, in this order, and nothing else happened. *)
Inductive logged (w : World) : PState -> list StepLog -> PState -> Prop :=
| logged_nothing s :
    logged w s [] s
| logged_tick s entries s' :
    logged w s entries s' ->
    logged w s entries (tick s')
| logged_step s entries s' name ok d :
    logged w s entries s' ->
    logged w s
      (entries ++ [ {| step := name; timestamp := clock w (ticks s');
                       success := ok; details := d |} ])
      (after_step w name ok d s').

(** [traced w c post]: whatever the state, [c] only reads the clock and
    logs steps, and its outcome and the steps it logged satisfy [post]. *)
Definition traced {A} (w : World) (c : M A)
    (post : Outcome A -> list StepLog -> Prop) : Prop :=
  forall s, exists entries, logged w s entries (snd (c s)) /\ post (fst (c s)) entries.

(** The clock never runs backwards. *)
Definition monotone_clock (w : World) : Prop :=
  forall i j, i <= j -> (clock w i <= clock w j)%Z.

(** The names of the six stages, in the order of [runPipeline]. *)
Definition stage_names : list string :=
  [ "Environment Validation"; "News Collection"; "Script Generation";
    "Media Collection"; "TTS Generation"; "Video Production" ].

(** The post-condition of a stage that cannot throw and logs exactly one
    step, named [name], when it returns. *)
Definition one_step {A} (name : string) (value : A -> StepLog -> Prop)
    (o : Outcome A) (entries : list StepLog) : Prop :=
  match o with
  | Ret a => exists entry, entries = [entry] /\ step entry = name /\ value a entry
  | Throw _ => False
  | Hang => entries = []
  end.

(** The post-condition of a media stage: it logs one step, named [name],
    and returns, or throws after the step because a value of the step, its
    sample image, cannot be printed. *)
Definition step_then_print {A} (name : string) (value : A -> StepLog -> Prop)
    (o : Outcome A) (entries : list StepLog) : Prop :=
  match o with
  | Ret a => exists entry, entries = [entry] /\ step entry = name /\ value a entry
  | Throw e =>
      e = print_error /\
      exists entry, entries = [entry] /\ step entry = name /\ ~ prints (details entry)
  | Hang => entries = []
  end.

(** The post-condition of a method that logs nothing. *)
Definition silent {A} (o : Outcome A) (entries : list StepLog) : Prop := entries = [].

(** What the [try] of [collectNews] (second variant) leaves: on its [return]
    one step and at most five articles, otherwise no step. *)
Definition service_post (o : Outcome (option (list Article))) (entries : list StepLog)
    : Prop :=
  match o with
  | Ret (Some articles) =>
      length articles <= 5 /\
      exists entry, entries = [entry] /\ step entry = "News Collection" /\
                    success entry = true
  | Ret None | Throw _ | Hang => entries = []
  end.

(** What the six stages of the second variant give [runPipeline] when they
    all return: the steps under their names, in order, every stage after the
    first one marked as a success, a script assembled from at most five
    articles, at least five media items, and the duration of the narration.
    When they throw, the media stage has logged its step and failed to
    print it. *)
Definition stages_post (w : World)
    (o : Outcome (string * list MediaItem * Audio * Video)) (entries : list StepLog)
    : Prop :=
  match o with
  | Ret (script, media, audio, video) =>
      map step entries = stage_names /\
      Forall (fun entry => success entry = true) (tl entries) /\
      (exists articles, length articles <= 5 /\ script = assemble_script w articles) /\
      5 <= length media /\
      audio_duration audio = estimatedDuration script /\
      video_duration video = estimatedDuration script /\
      video_file video = "output/space_news_video.mp4" /\
      video_url video = "https://example.com/space_news_video.mp4"
  | Throw e =>
      e = print_error /\
      map step entries = firstn 4 stage_names /\
      exists entry, last entries = Some entry /\ ~ prints (details entry)
  | Hang => True
  end.

(** The record at the end of the [try] of a full run whose stages returned
    in state [s1]: completed at the next clock reading. *)
Definition completed_record (w : World) (s1 : PState)
    (produced : string * list MediaItem * Audio * Video) : RunRecord :=
  let '(script, media, audio, video) := produced in
  set_completed (clock w (ticks s1))
    {| fo_script := script; fo_media_count := length media;
       fo_audio_duration := audio_duration audio;
       fo_video_file := video_file video; fo_video_url := video_url video |}
    (results s1).

(** The step that the [catch] of [runPipeline] logs. *)
Definition failure_step (t : Z) (msg : string) : StepLog :=
  {| step := "Pipeline Execution"; timestamp := t; success := false;
     details := [("error", JStr msg)] |}.

(** The error that [fs.writeFileSync] throws on an entry that cannot be
    replaced, with the message that stands for the one of Node. *)
Definition write_error : JsError := {| message := "EACCES: permission denied" |}.

(** [let data = ''; res.on('data', chunk => data += chunk)]: the text
    received once every chunk has arrived. *)
Definition joined (chunks : list string) : string :=
  fold_left (fun data chunk => data ++ chunk) chunks "".

(** The listeners of the second client hold a status below 400, and so
    does the value of a fulfilled promise. *)
Definition below_400 (code : option Z) : Prop :=
  exists c, code = Some c /\ (c < 400)%Z.

Definition B_request_invariant (r : Request) : Prop :=
  (forall code, attached r = Some code -> below_400 code) /\
  (forall v, promise r = Fulfilled v -> below_400 (status_code v)).

(** A server that answers 200 with a page of HTML in two chunks, after
    which the socket times out. *)
Definition late_timeout_events : list HttpEvent :=
  [ EvResponse (Some 200%Z) "OK"; EvData "<html>"; EvData "</html>"; EvEnd; EvTimeout ].

Definition late_timeout_world : World :=
  {| env := ∅;
     clock := sample_clock;
     network := fun _ => late_timeout_events;
     intro_draw := First;
     outro_draw := First;
     processing_draw := 17 |}.

(** A server that accepts the connection and never answers; the socket
    times out after thirty seconds. *)
Definition silent_server_world : World :=
  {| env := ∅;
     clock := sample_clock;
     network := fun _ => [EvTimeout];
     intro_draw := First;
     outro_draw := First;
     processing_draw := 17 |}.

(** A server that accepts the connection and never answers: the socket
    times out, the client destroys the request, and the request emits the
    error of the destruction. *)
Definition destroyed_request_world : World :=
  {| env := ∅;
     clock := sample_clock;
     network := fun _ => [EvTimeout; EvRequestError "socket hang up"];
     intro_draw := First;
     outro_draw := First;
     processing_draw := 17 |}.

(** The news service answers 200 with the body [{..}], a Pexels key is
    set, and the request to Pexels never gets an event. *)
Definition pexels_silent_world : World :=
  {| env := {[ "PEXELS_API_KEY" := "px-31c9" ]};
     clock := sample_clock;
     network := fun url =>
       if String.eqb url PipelineB.newsUrl
       then [EvResponse (Some 200%Z) "OK"; EvData "{..}"; EvEnd]
       else [];
     intro_draw := First;
     outro_draw := First;
     processing_draw := 17 |}.

(** The three credentials are set, the Pexels one to the placeholder of
    the [.env] template. *)
Definition placeholder_world : World :=
  {| env := {[ "TTS_OPENAI_API_KEY" := "sk-1f2e3d";
               "PEXELS_API_KEY" := "your_pexels_api_key_here";
               "UNSPLASH_ACCESS_KEY" := "u-77aa" ]};
     clock := sample_clock;
     network := fun _ => [EvRequestError "connect ECONNREFUSED"];
     intro_draw := First;
     outro_draw := First;
     processing_draw := 17 |}.

(** What [realNews.map] makes of one item of the service: the members of
    the item where they are truthy, the defaults of the source elsewhere;
    an item without a date is dated by a reading of the clock. *)
Definition converts_to `{JsRuntime} (w : World) (item : Json) (a : Article) : Prop :=
  title a = as_text (or_else (member "headline_title" item) (JStr "Unknown Title")) /\
  source a = as_text (or_else (member "source" item) (JStr "Unknown Source")) /\
  url a = as_text (or_else (member "url" item) (JStr "")) /\
  (if truthy (member "published" item) then Some (published a) = member "published" item
   else exists k, published a = JIso (clock w k)).

(** The answer of the news service that [collectNews] accepts: a status
    200 and a body whose [status] member is ['success']. *)
Definition service_answers `{JsRuntime} (w : World) (v : HttpResult) : Prop :=
  promise (PipelineB.deliver (network w PipelineB.newsUrl)) = Fulfilled v /\
  status_code v = Some 200%Z /\
  prop "status" (Some (data v)) = Ok (Some (JStr "success")).

(** [response.data.data || []]. *)
Definition realNews (v : HttpResult) : Json :=
  or_else (member "data" (data v)) (JArr []).

(** A member that [realNews.map] takes for a text: a string, or a value
    that gives way to the default of the source because it is absent or
    falsy. *)
Definition textual (v : option Json) : bool :=
  match v with
  | None | Some (JStr _) => true
  | Some other => negb (truthy (Some other))
  end.

(** A member that the comparator of the sort takes for a date: any value
    but an object or an array, whose conversion by [new Date] can throw. *)
Definition datable (v : option Json) : bool :=
  match v with
  | Some (JArr _) | Some (JObj _) => false
  | _ => true
  end.

(** An item as [news-server.js] sends it, or with members missing:
    [headline_title], [source] and [url] are texts, [published] is no
    object. *)
Definition plain_item (item : Json) : Prop :=
  textual (member "headline_title" item) = true /\
  textual (member "source" item) = true /\
  textual (member "url" item) = true /\
  datable (member "published" item) = true.

(** [v || fallback] for a member [v] that is a text. *)
Definition text_or (fallback : string) (v : option Json) : string :=
  match v with
  | Some (JStr t) => if String.eqb t "" then fallback else t
  | _ => fallback
  end.

(** The texts of the article made of a plain item: those of the item, the
    defaults of the source where the item has none. *)
Definition texts_of (item : Json) (a : Article) : Prop :=
  title a = text_or "Unknown Title" (member "headline_title" item) /\
  source a = text_or "Unknown Source" (member "source" item) /\
  url a = text_or "" (member "url" item).

(** The news service, if it answers with a list, answers with plain items. *)
Definition plain_news `{JsRuntime} (w : World) : Prop :=
  forall v items,
    service_answers w v -> realNews v = JArr items -> Forall plain_item items.

(** The state [s] after [n] more readings of the clock. *)
Definition later (n : nat) (s : PState) : PState :=
  {| results := results s; files := files s; ticks := n + ticks s |}.

(** A runtime that decodes the one body [text] as the document [j]. *)
Definition answering_runtime (text : string) (j : Json) : JsRuntime :=
  table_runtime [(text, j)] [].

(** The news service answers 200 with [text]; every other request is
    refused. *)
Definition service_world (text : string) : World :=
  {| env := ∅;
     clock := sample_clock;
     network := fun url =>
       if String.eqb url PipelineB.newsUrl
       then [EvResponse (Some 200%Z) "OK"; EvData text; EvEnd]
       else [EvRequestError "connect ECONNREFUSED"];
     intro_draw := First;
     outro_draw := First;
     processing_draw := 17 |}.

(** Two items of the service, the older one first; the second has no
    [source]. *)
Definition two_items : list Json :=
  [ JObj [ ("headline_title", JStr "Probe reaches Ceres");
           ("published", JIso 1793610000000);
           ("source", JStr "ESA");
           ("url", JStr "https://example.com/news/2") ];
    JObj [ ("headline_title", JStr "New comet sighted");
           ("published", JIso 1793617200000);
           ("url", JStr "https://example.com/news/1") ] ].

Definition two_items_answer : Json :=
  JObj [ ("status", JStr "success"); ("data", JArr two_items) ].

(** An answer whose [data] is an object, not an array. *)
Definition object_answer : Json :=
  JObj [ ("status", JStr "success"); ("data", JObj [("items", JArr two_items)]) ].

(** The record that the scheduler saved after a failed run at time [t]. *)
Definition failed_run_info (t : Z) : Json :=
  JObj [ ("timestamp", JIso t); ("status", JStr "failed") ].

(** The last run failed three hours before the first clock reading. *)
Definition failed_run_state : PState :=
  {| results := fresh_record;
     files := {[ Scheduler.lastRunFile :=
                   JsonDoc (failed_run_info (sample_clock 0 - 3 * 60 * 60 * 1000)) ]};
     ticks := 0 |}.

(** A method that throws from no state. *)
Definition never_throws {A} (c : M A) : Prop :=
  forall s e, fst (c s) <> Throw e.

(** A record of a completed run. *)
Definition completed_record_sample : RunRecord :=
  {| workflow_id := sample_clock 0; start_time := sample_clock 1; steps := [];
     status := completed; end_time := Some (sample_clock 9);
     total_duration_seconds := Some (8 # 1000);
     final_outputs :=
       Some {| fo_script := "Welcome"; fo_media_count := 5; fo_audio_duration := 1;
               fo_video_file := "output/space_news_video.mp4";
               fo_video_url := "https://example.com/space_news_video.mp4" |};
     error := None |}.

(** A method that, from every state, returns or throws. *)
Definition never_hangs {A} (c : M A) : Prop :=
  forall s, fst (c s) <> Hang.

(** The request sent to [url] is settled by the events it receives. *)
Definition settles `{JsRuntime} (w : World) (url : string) : Prop :=
  promise (PipelineB.deliver (network w url)) <> Pending.

(** No request ever receives an event. *)
Definition unanswered_world : World :=
  {| env := ∅;
     clock := sample_clock;
     network := fun _ => [];
     intro_draw := First;
     outro_draw := First;
     processing_draw := 17 |}.

(** ** The news server ([src/news-server.js]) *)

Module NewsServer.

Definition sources : list string := ["NASA"; "CNN"; "ESA"; "Space.com"].

Definition headlines : list string :=
  [ "NASA's Artemis Program Reaches New Milestone in Lunar Exploration";
    "SpaceX Successfully Launches Advanced Satellite Constellation";
    "James Webb Telescope Discovers Most Distant Galaxy Yet";
    "International Space Station Receives New Scientific Equipment";
    "Mars Rover Makes Groundbreaking Discovery in Ancient Crater";
    "European Space Agency Announces New Venus Mission";
    "Private Space Company Achieves Historic Orbital Flight";
    "Astronauts Complete Critical Spacewalk Outside ISS";
    "New Exoplanet Found in Habitable Zone of Nearby Star";
    "Solar Observatory Captures Unprecedented Sun Activity" ].

(** What one request reads from outside the server: the clock, once, and
    the successive results of [Math.random()]. *)
Record Outside : Type := {
  server_clock : Z;
  random : nat -> Q
}.

(** [array[Math.floor(x * array.length)]], [undefined] out of the array. *)
Definition pick (array : list string) (x : Q) : option string :=
  let index := Qfloor (x * inject_Z (Z.of_nat (length array))) in
  if (index <? 0)%Z then None else nth_error array (Z.to_nat index).

(** [new Date(t).toISOString()]: a [RangeError] when [t] is out of the
    range of time values. *)
Definition toISOString (t : Z) : Try Json :=
  if (Z.abs t <=? max_time)%Z then Ok (JIso t)
  else Err {| message := "Invalid time value" |}.

(** The object pushed at round [i], as [JSON.stringify] writes it. *)
Definition news_item (randomHeadline randomSource : option string) (published : Json)
    (i : nat) : Json :=
  JObj (optional "headline_title" JStr randomHeadline
        ++ [ ("published", published) ]
        ++ optional "source" JStr randomSource
        ++ [ ("url", JStr ("https://example.com/news/" ++ decimal (i + 1))) ]).

(** The rounds [i], [i + 1], ... of the loop of [generateSpaceNews], [count]
    of them; round [i] makes the draws [2 * i] and [2 * i + 1]. *)
Fixpoint rounds (o : Outside) (count i : nat) (news : list Json) : Try (list Json) :=
  match count with
  | O => Ok news
  | S rest =>
      let randomHeadline := pick headlines (random o (2 * i)) in
      let randomSource := pick sources (random o (2 * i + 1)) in
      match toISOString (server_clock o - Z.of_nat i * 3600000) with
      | Err e => Err e
      | Ok published =>
          rounds o rest (S i) (news ++ [news_item randomHeadline randomSource published i])
      end
  end.

(** Lines 12-45. *)
Definition generateSpaceNews (o : Outside) : Try (list Json) := rounds o 5 0 [].

Record IncomingMessage : Type := {
  req_method : string;
  req_url : string
}.

(** What the server has written for one request: the headers set, the
    status of [writeHead], and the document given to [end] (none for an
    empty body). *)
Record ServerResponse : Type := {
  res_headers : list (string * string);
  res_status : Z;
  res_body : option Json
}.

Definition cors_headers : list (string * string) :=
  [ ("Access-Control-Allow-Origin", "*");
    ("Access-Control-Allow-Methods", "GET, POST, OPTIONS");
    ("Access-Control-Allow-Headers", "Content-Type");
    ("Content-Type", "application/json") ].

Definition respond (code : Z) (body : option Json) : ServerResponse :=
  {| res_headers := cors_headers; res_status := code; res_body := body |}.

Definition success_envelope (payload : Json) : Json :=
  JObj [ ("status", JStr "success"); ("data", payload) ].

Definition error_envelope (msg : string) : Json :=
  JObj [ ("status", JStr "error"); ("message", JStr msg) ].

Section Handler.
(** [new URL(url, base).pathname] for the base of the server; [None] when
    the constructor throws. *)
Variable URL_pathname : string -> option string.

(** Lines 47-98. The URL is parsed outside the [try]: an address that
    cannot be parsed ends the handler by a throw, with no response. *)
Definition handleRequest (o : Outside) (req : IncomingMessage) : Try ServerResponse :=
  match URL_pathname (req_url req) with
  | None => Err {| message := "Invalid URL" |}
  | Some pathname =>
      if String.eqb (req_method req) "OPTIONS" then Ok (respond 200 None)
      else if String.eqb pathname "/" then
        Ok (respond 200
              (Some (success_envelope (JObj [("message", JStr "Server is running")]))))
      else if String.eqb pathname "/health" then
        Ok (respond 200 (Some (success_envelope (JObj [("message", JStr "ok")]))))
      else if String.eqb pathname "/scrape-news" then
        match generateSpaceNews o with
        | Ok newsData => Ok (respond 200 (Some (success_envelope (JArr newsData))))
        | Err _ => Ok (respond 500 (Some (error_envelope "Internal server error")))
        end
      else Ok (respond 404 (Some (error_envelope "Not found")))
  end.
End Handler.

(** The draws of [Math.random] lie in [[0, 1)]. *)
Definition fair (o : Outside) : Prop :=
  forall k, (0 <= random o k)%Q /\ (random o k < 1)%Q.

(** The clock of the server and the four hours before it are time values. *)
Definition in_range (o : Outside) : Prop :=
  (Z.abs (server_clock o) <= max_time - 4 * 3600000)%Z.

(** The published time of round [i]. *)
Definition published_at (o : Outside) (i : nat) : Z :=
  (server_clock o - Z.of_nat i * 3600000)%Z.

(** An item of the server: a headline and a source of the two lists, the
    published time and the address of round [i]. *)
Definition item_of_round (o : Outside) (i : nat) (item : Json) : Prop :=
  exists headline source,
    In headline headlines /\ In source sources /\
    item = JObj [ ("headline_title", JStr headline);
                  ("published", JIso (published_at o i));
                  ("source", JStr source);
                  ("url", JStr ("https://example.com/news/" ++ decimal (i + 1))) ].

(** A server whose every draw is one half, on 2 November 2026. *)
Definition sample_outside : Outside :=
  {| server_clock := 1793620800000; random := fun _ => 1 # 2 |}.

(** A parser for the addresses of the samples: the address is its own
    path unless it holds a space. *)
Definition sample_pathname (url : string) : option string :=
  if includes " " url then None else Some url.
End NewsServer.

(** What [collectNews] makes of the item of round [i] of the server. *)
Definition article_of_round (o : NewsServer.Outside) (i : nat) (a : Article) : Prop :=
  In (title a) NewsServer.headlines /\
  In (source a) NewsServer.sources /\
  published a = JIso (NewsServer.published_at o i) /\
  url a = "https://example.com/news/" ++ decimal (i + 1).

(** The comparator does not ask for [x] to move behind [y]. *)
Definition in_order {A} (compare : A -> A -> option Z) (x y : A) : Prop :=
  is_positive (compare x y) = false.

(** The pipeline asks a server of [news-server.js] for the news: the world
    in which the answer of [handleRequest] to [GET /scrape-news] arrives in
    one chunk, [text]. *)
Definition served_world (response : NewsServer.ServerResponse) (text : string) : World :=
  {| env := ∅;
     clock := sample_clock;
     network := fun url =>
       if String.eqb url PipelineB.newsUrl
       then [EvResponse (Some (NewsServer.res_status response)) "OK"; EvData text; EvEnd]
       else [EvRequestError "connect ECONNREFUSED"];
     intro_draw := First;
     outro_draw := First;
     processing_draw := 17 |}.

Definition sample_request : NewsServer.IncomingMessage :=
  {| NewsServer.req_method := "GET"; NewsServer.req_url := "/scrape-news" |}.

(** The answer of the sample server to the sample request. *)
Definition sample_response : NewsServer.ServerResponse :=
  match NewsServer.handleRequest NewsServer.sample_pathname NewsServer.sample_outside
          sample_request with
  | Ok response => response
  | Err _ => NewsServer.respond 500 None
  end.

Definition sample_body : Json :=
  match NewsServer.res_body sample_response with
  | Some body => body
  | None => JNull
  end.

(** ** The feed reader of the first variant (lines 82-113 and 152-191) *)

(** The regular expressions of [parseRSSFeed], by what they match:
    [item_matches xml] is [xml.match(/<item[^>]*>[\s\S]*?<\/item>/gi) || []],
    and [tag_text tag itemXml] is the first group, trimmed, of the match of
    [<tag ...>...</tag>] in [itemXml], [None] without a match. *)
Class XmlScanner : Type := {
  item_matches : string -> list string;
  tag_text : string -> string -> option string
}.

Record FeedItem : Type := {
  item_title : string;
  item_link : string;
  item_published : Json
}.

Module FeedsA.
Section Reader.
Context `{JsRuntime} `{XmlScanner}.

(** The body of the loop over the item matches: the clock is read only
    for an item without a [pubDate]. *)
Definition read_item (w : World) (itemXml : string) : M FeedItem :=
  let titleMatch := tag_text "title" itemXml in
  let linkMatch := tag_text "link" itemXml in
  let pubDateMatch := tag_text "pubDate" itemXml in
  published <-
    match pubDateMatch with
    | Some text => ret (JStr text)
    | None => t <- now w ;; ret (JIso t)
    end ;;
  ret {| item_title := match titleMatch with Some text => text | None => "No title" end;
         item_link := match linkMatch with Some text => text | None => "" end;
         item_published := published |}.

Fixpoint read_items (w : World) (itemMatches : list string) : M (list FeedItem) :=
  match itemMatches with
  | [] => ret []
  | itemXml :: rest =>
      item <- read_item w itemXml ;;
      items <- read_items w rest ;;
      ret (item :: items)
  end.

(** The text that [`HTTP ${response.status}`] prints. *)
Definition status_text (code : option Z) : string :=
  match code with
  | Some c => decimalZ c
  | None => "undefined"
  end.

(** Lines 82-113. [xmlData.match] exists on a string only: on the decoded
    JSON of a body that is not a string the call throws, and the [catch]
    returns the empty list; a date string holds no item. *)
Definition parseRSSFeed (w : World) (url : string) : M (list FeedItem) :=
  try_catch
    (response <- PipelineA.makeHttpRequest w url ;;
     if negb (is_200 (status_code response)) then
       throw {| message := "HTTP " ++ status_text (status_code response) |}
     else
       match data response with
       | JStr xmlData => read_items w (firstn 5 (item_matches xmlData))
       | JIso _ => ret []
       | _ => throw {| message := "xmlData.match is not a function" |}
       end)
    (fun _ => ret []).

Definition feeds : list (string * string) :=
  [ ("CNN Space", "https://rss.cnn.com/rss/cnn_space.rss");
    ("NASA News", "https://www.nasa.gov/rss/dyn/breaking_news.rss");
    ("ESA Updates", "https://www.esa.int/rssfeed/Our_Activities");
    ("Space.com", "https://www.space.com/feeds/all") ].

(** [items.forEach(item => allArticles.push({...}))]. *)
Definition articles_of (source : string) (items : list FeedItem) : list Article :=
  map (fun item => {| title := item_title item; source := source;
                      published := item_published item; url := item_link item |}) items.

(** The loop over [Object.entries(feeds)]. *)
Fixpoint read_feeds (w : World) (entries : list (string * string))
    (allArticles : list Article) : M (list Article) :=
  match entries with
  | [] => ret allArticles
  | (source, url) :: rest =>
      allArticles <-
        try_catch
          (items <- parseRSSFeed w url ;;
           ret (allArticles ++ articles_of source items)%list)
          (fun _ => ret allArticles) ;;
      read_feeds w rest allArticles
  end.

(** Lines 152-191. *)
Definition collectNews (w : World) : M (list Article) :=
  collected <- read_feeds w feeds [] ;;
  let allArticles := Array_sort by_date_descending collected in
  let details :=
    [ ("articles_collected", JCount (length allArticles));
      ("sources", JArr (map (fun entry => JStr (fst entry)) feeds));
      ("latest_article", latest_article allArticles) ] in
  logStep w "News Collection" true details ;;
  ret (firstn 5 allArticles).
End Reader.
End FeedsA.

(** The methods of the first variant. *)
Definition SpacePipelineA `{JsRuntime} `{XmlScanner} (w : World) : SpacePipeline :=
  {| this_validateEnvironment := validateEnvironment w;
     this_collectNews := FeedsA.collectNews w;
     this_generateScript := generateScript w;
     this_collectMedia := PipelineA.collectMedia w;
     this_generateTTS := generateTTS w;
     this_produceVideo := produceVideo w |}.

(** A feed fails: its request is rejected, or resolves with a status other
    than 200. *)
Definition feed_fails `{JsRuntime} (w : World) (url : string) : Prop :=
  match promise (PipelineA.deliver (network w url)) with
  | Pending => False
  | Fulfilled v => is_200 (status_code v) = false
  | Rejected _ => True
  end.

(** What the six stages of the first variant give [runPipeline] when they
    all return, and when they throw. *)
Definition stages_post_A (w : World)
    (o : Outcome (string * list MediaItem * Audio * Video)) (entries : list StepLog)
    : Prop :=
  match o with
  | Ret (script, media, audio, video) =>
      map step entries = stage_names /\
      Forall (fun entry => success entry = true) (tl entries) /\
      (exists articles,
         length articles <= 5 /\
         Forall (fun a => In (source a) (map fst FeedsA.feeds)) articles /\
         script = assemble_script w articles) /\
      3 <= length media /\
      audio_duration audio = estimatedDuration script /\
      video_duration video = estimatedDuration script
  | Throw e =>
      e = print_error /\
      map step entries = firstn 4 stage_names /\
      exists entry, last entries = Some entry /\ ~ prints (details entry)
  | Hang => True
  end.

(** A scanner that finds, in the text [<rss>], two items, the second
    without a date or a link. *)
Definition sample_scanner : XmlScanner :=
  {| item_matches := fun xml =>
       if String.eqb xml "<rss>" then ["<item>1</item>"; "<item>2</item>"] else [];
     tag_text := fun tag itemXml =>
       if String.eqb itemXml "<item>1</item>" then
         if String.eqb tag "title" then Some "Launch window opens"
         else if String.eqb tag "link" then Some "https://example.com/launch"
         else if String.eqb tag "pubDate" then Some "Mon, 02 Nov 2026 08:00:00 GMT"
         else None
       else if String.eqb tag "title" then Some "Crew returns" else None |}.

(** The NASA feed answers 200 with the text [<rss>]; every other request
    is refused. *)
Definition one_feed_world : World :=
  {| env := ∅;
     clock := sample_clock;
     network := fun url =>
       if String.eqb url "https://www.nasa.gov/rss/dyn/breaking_news.rss"
       then [EvResponse (Some 200%Z) "OK"; EvData "<rss>"; EvEnd]
       else [EvRequestError "connect ECONNREFUSED"];
     intro_draw := First;
     outro_draw := First;
     processing_draw := 17 |}.

(** A runtime that knows the date of the sample feed. *)
Definition feed_runtime : JsRuntime :=
  table_runtime [] [("Mon, 02 Nov 2026 08:00:00 GMT", 1793606400000%Z)].

(** The post-condition of a method that logs nothing, does not throw, and
    returns a value that satisfies [P]. *)
Definition quiet {A} (P : A -> Prop) (o : Outcome A) (entries : list StepLog) : Prop :=
  entries = [] /\
  match o with
  | Ret a => P a
  | Throw _ => False
  | Hang => True
  end.

(** The post-condition of the body of a [try] that logs nothing and
    returns a value that satisfies [P], if it returns. *)
Definition quiet_or_throws {A} (P : A -> Prop) (o : Outcome A) (entries : list StepLog)
    : Prop :=
  entries = [] /\
  match o with
  | Ret a => P a
  | Throw _ | Hang => True
  end.

(** The source of an article is the name of one of the four feeds. *)
Definition from_a_feed (a : Article) : Prop :=
  In (source a) (map fst FeedsA.feeds).

(** ** The command line (lines 491-508 and 1048-1065) *)

(** [args.includes('--health-check')]. *)
Definition health_check_asked (args : list string) : bool :=
  existsb (String.eqb "--health-check") args.

(** [main], for the arguments after the script name: [Some 1] is
    [process.exit(1)], [None] is the end of [main] without an exit. *)
Definition main (w : World) (this : SpacePipeline) (args : list string) : M (option Z) :=
  try_catch
    (let healthCheck := health_check_asked args in
     construct w ;;
     runPipeline w this healthCheck ;;
     ret None)
    (fun _ => ret (Some 1%Z)).

(** The sentences that the script stage writes for [article] as story
    number [index + 1]. *)
Definition story (index : nat) (article : Article) : string :=
  "Story " ++ decimal (index + 1) ++ ": " ++ title article ++ ". " ++
  "This update comes from " ++ source article ++ ". ".

(** Only the narration key is set, to the placeholder of the template. *)
Definition placeholder_tts_world : World :=
  {| env := {[ "TTS_OPENAI_API_KEY" := "your_tts_key_here" ]};
     clock := sample_clock;
     network := fun _ => [EvRequestError "connect ECONNREFUSED"];
     intro_draw := First;
     outro_draw := First;
     processing_draw := 17 |}.
(** * Properties *)

(** ** Strings and numbers *)

Lemma append_String (x : ascii) (a b : string) : String x a ++ b = String x (a ++ b).
Proof. reflexivity. Qed.

Lemma append_empty (b : string) : "" ++ b = b.
Proof. reflexivity. Qed.

Lemma append_assoc (a b c : string) : (a ++ b) ++ c = a ++ (b ++ c).
Proof.
  induction a as [|x a IH].
  - reflexivity.
  - rewrite !append_String. f_equal. exact IH.
Qed.


(** [split] never returns the empty list, so the inner [match] of its
    definition always takes the second branch. *)
Lemma split_cons (c : ascii) (s : string) :
  exists piece pieces, split c s = piece :: pieces.
Proof.
  induction s as [|a s IH]; simpl.
  - eauto.
  - destruct (Ascii.eqb a c); [eauto|].
    destruct IH as (p & ps & ->). eauto.
Qed.

(** One piece more than there are separators. *)
Lemma split_length (c : ascii) (s : string) :
  length (split c s) = S (occurrences c s).
Proof.
  induction s as [|a s IH]; simpl.
  - reflexivity.
  - destruct (Ascii.eqb a c); simpl.
    + now rewrite IH.
    + destruct (split_cons c s) as (p & ps & E).
      rewrite E in IH |- *. exact IH.
Qed.

Lemma Math_round_integer (q : Q) (z : Z) : q == inject_Z z -> Math_round q = z.
Proof.
  intros E. unfold Math_round.
  assert (E' : q + (1 # 2) == (2 * z + 1) # 2).
  { rewrite E. unfold Qeq, Qplus, inject_Z. simpl. lia. }
  rewrite (Qfloor_comp _ _ E'). unfold Qfloor.
  symmetry. apply (Z.div_unique _ _ _ 1); lia.
Qed.

(** *** Rounding to a double *)

Section Rounding.
Local Open Scope Q_scope.

Lemma pow2_pos (e : Z) : 0 < pow2 e.
Proof. unfold pow2. apply Qpower_0_lt. reflexivity. Qed.

Lemma pow2_add (a b : Z) : pow2 (a + b) == pow2 a * pow2 b.
Proof. unfold pow2. apply Qpower_plus. discriminate. Qed.

Lemma pow2_nonneg_exponent (e : Z) : (0 <= e)%Z -> pow2 e == inject_Z (2 ^ e).
Proof. intros He. unfold pow2. rewrite Zpower_Qpower by exact He. reflexivity. Qed.

(** The nearest integer is at most a half away. *)
Lemma round_half_even_error (x : Q) :
  x - (1 # 2) <= inject_Z (round_half_even x) <= x + (1 # 2).
Proof.
  unfold round_half_even.
  pose proof (Qfloor_le x) as Hlow. pose proof (Qlt_floor x) as Hhigh.
  rewrite inject_Z_plus in Hhigh. change (inject_Z 1) with 1 in Hhigh.
  destruct (Qcompare_spec (x - inject_Z (Qfloor x)) (1 # 2)) as [He | Hl | Hg].
  - destruct (Z.even (Qfloor x));
      [|rewrite inject_Z_plus; change (inject_Z 1) with 1]; lra.
  - lra.
  - rewrite inject_Z_plus. change (inject_Z 1) with 1. lra.
Qed.

Lemma round_half_even_nonneg (x : Q) : 0 <= x -> (0 <= round_half_even x)%Z.
Proof.
  intros Hx. assert (Hf : (0 <= Qfloor x)%Z).
  { change 0%Z with (Qfloor 0). apply Qfloor_resp_le. exact Hx. }
  unfold round_half_even.
  destruct (Qcompare _ _); [destruct (Z.even _)| |]; lia.
Qed.

(** Rounding keeps the sign. *)
Lemma double_nonneg (q : Q) : 0 <= q -> 0 <= double q.
Proof.
  intros Hq. unfold double. destruct (Qnum q) eqn:Hn; [lra| |];
    (rewrite Qred_correct; apply Qmult_le_0_compat;
     [ change 0 with (inject_Z 0); rewrite <- Zle_Qle; apply round_half_even_nonneg;
       apply Qle_shift_div_l; [apply pow2_pos | lra]
     | apply Qlt_le_weak, pow2_pos ]).
Qed.

(** The power of two of the exponent is not above the number. *)
Lemma pow2_exponent_le (q : Q) : 0 < q -> pow2 (exponent q) <= q.
Proof.
  intros Hq. unfold exponent.
  rewrite (Qabs_pos q) by lra.
  destruct (Qle_bool _ q) eqn:Htest; [now apply Qle_bool_iff|].
  destruct q as [n d]. unfold Qlt in Hq. cbn in Hq. cbn [Qnum Qden].
  assert (Hn : (0 < n)%Z) by lia.
  rewrite (Z.abs_eq n) by lia.
  set (ln := Z.log2 n). set (ld := Z.log2 (Z.pos d)).
  assert (Hln : (2 ^ ln <= n)%Z) by (apply Z.log2_spec; exact Hn).
  assert (Hld : (Z.pos d < 2 ^ (ld + 1))%Z).
  { replace (ld + 1)%Z with (Z.succ ld) by lia. apply Z.log2_spec. lia. }
  assert (H0ln : (0 <= ln)%Z) by apply Z.log2_nonneg.
  assert (H0ld : (0 <= ld)%Z) by apply Z.log2_nonneg.
  rewrite (Qmake_Qdiv n d).
  apply Qle_shift_div_l; [reflexivity|].
  apply Qle_trans with (pow2 (ln - ld - 1) * pow2 (ld + 1)).
  - apply Qmult_le_l; [apply pow2_pos|].
    rewrite pow2_nonneg_exponent by lia. rewrite <- Zle_Qle. lia.
  - rewrite <- pow2_add. replace (ln - ld - 1 + (ld + 1))%Z with ln by lia.
    rewrite pow2_nonneg_exponent by lia. rewrite <- Zle_Qle. exact Hln.
Qed.

(** Rounding moves a number by at most [2^-53] of itself (half of
    [epsilon]), here for the numbers from [2^-8] on. *)
Lemma double_error (q : Q) :
  (1 # 256) <= q ->
  q - q * (1 # 9007199254740992) <= double q <= q + q * (1 # 9007199254740992).
Proof.
  intros Hq.
  assert (Hpos : 0 < q) by lra.
  unfold double. destruct (Qnum q) eqn:Hn.
  { exfalso. destruct q as [n d]. cbn in Hn. subst n. unfold Qlt in Hpos. cbn in Hpos. lia. }
  2:{ exfalso. destruct q as [n d]. cbn in Hn. subst n. unfold Qlt in Hpos. cbn in Hpos. lia. }
  cbv zeta. rewrite Qred_correct.
  set (ulp := pow2 (Z.max (exponent q - 52) (-1074))).
  assert (Hulp : 0 < ulp) by apply pow2_pos.
  assert (Hsmall : ulp * (1 # 2) <= q * (1 # 9007199254740992)).
  { unfold ulp. destruct (Z.max_spec (exponent q - 52) (-1074)) as [[_ ->] | [_ ->]].
    - apply Qle_trans with ((1 # 256) * (1 # 9007199254740992)).
      + vm_compute. discriminate.
      + lra.
    - replace (exponent q - 52)%Z with (exponent q + -52)%Z by lia.
      rewrite pow2_add. pose proof (pow2_exponent_le q Hpos) as Hle.
      assert (H52 : pow2 (-52) * (1 # 2) == 1 # 9007199254740992) by reflexivity.
      rewrite <- H52.
      assert (Hp52 : 0 < pow2 (-52)) by apply pow2_pos.
      set (p52 := pow2 (-52)) in *. set (pe := pow2 (exponent q)) in *.
      assert (Hmul : pe * p52 <= q * p52).
      { apply Qmult_le_compat_r; lra. }
      lra. }
  pose proof (round_half_even_error (q / ulp)) as [Hlow Hhigh].
  set (r := inject_Z (round_half_even (q / ulp))) in *.
  assert (H1 : (q / ulp - (1 # 2)) * ulp <= r * ulp).
  { apply Qmult_le_compat_r; lra. }
  assert (H2 : r * ulp <= (q / ulp + (1 # 2)) * ulp).
  { apply Qmult_le_compat_r; lra. }
  assert (E1 : (q / ulp - (1 # 2)) * ulp == q - ulp * (1 # 2)) by (field; lra).
  assert (E2 : (q / ulp + (1 # 2)) * ulp == q + ulp * (1 # 2)) by (field; lra).
  rewrite E1 in H1. rewrite E2 in H2. split; lra.
Qed.

Lemma Qfloor_unique (x : Q) (z : Z) : inject_Z z <= x -> x < inject_Z z + 1 -> Qfloor x = z.
Proof.
  intros Hlow Hhigh.
  pose proof (Qfloor_le x) as H1. pose proof (Qlt_floor x) as H2.
  rewrite inject_Z_plus in H2. change (inject_Z 1) with 1 in H2.
  assert (Ha : (Qfloor x < z + 1)%Z).
  { rewrite Zlt_Qlt, inject_Z_plus. change (inject_Z 1) with 1. lra. }
  assert (Hb : (z < Qfloor x + 1)%Z).
  { rewrite Zlt_Qlt, inject_Z_plus. change (inject_Z 1) with 1. lra. }
  lia.
Qed.

(** The estimate of the duration is within [2^-51] of four tenths of a
    second for every word. *)
Lemma estimatedDuration_error (script : string) :
  let exact := inject_Z (Z.of_nat (wordCount script)) * (2 # 5) in
  exact - exact * (2 * epsilon) <= estimatedDuration script <= exact + exact * (2 * epsilon).
Proof.
  intros exact. unfold estimatedDuration, epsilon.
  assert (Hwc : (1 <= Z.of_nat (wordCount script))%Z).
  { unfold wordCount. rewrite split_length. lia. }
  assert (H1 : 1 <= inject_Z (Z.of_nat (wordCount script))).
  { change 1 with (inject_Z 1). rewrite <- Zle_Qle. exact Hwc. }
  subst exact. set (x := inject_Z (Z.of_nat (wordCount script))) in *.
  unfold Qdiv. change (/ 150) with (1 # 150).
  assert (Ha : (1 # 256) <= x * (1 # 150)) by lra.
  pose proof (double_error _ Ha) as [Ha1 Ha2].
  set (a := double (x * (1 # 150))) in *.
  assert (Hb : (1 # 256) <= a * 60) by lra.
  pose proof (double_error _ Hb) as [Hb1 Hb2].
  set (b := double (a * 60)) in *.
  split; lra.
Qed.

(** Ten times the estimate rounds to four times the word count. *)
Lemma tenths_of_estimatedDuration (script : string) :
  (Z.of_nat (wordCount script) <= 2 ^ 40)%Z ->
  Math_round (double (estimatedDuration script * 10)) = (4 * Z.of_nat (wordCount script))%Z.
Proof.
  intros Hhigh.
  pose proof (estimatedDuration_error script) as [He1 He2]. cbv zeta in He1, He2.
  unfold epsilon in He1, He2.
  assert (Hwc : (1 <= Z.of_nat (wordCount script))%Z).
  { unfold wordCount. rewrite split_length. lia. }
  assert (H1 : 1 <= inject_Z (Z.of_nat (wordCount script))).
  { change 1 with (inject_Z 1). rewrite <- Zle_Qle. exact Hwc. }
  assert (H2 : inject_Z (Z.of_nat (wordCount script)) <= inject_Z (2 ^ 40)).
  { rewrite <- Zle_Qle. exact Hhigh. }
  change (inject_Z (2 ^ 40)) with 1099511627776 in H2.
  set (x := inject_Z (Z.of_nat (wordCount script))) in *.
  set (e := estimatedDuration script) in *.
  assert (Hc : (1 # 256) <= e * 10) by lra.
  pose proof (double_error _ Hc) as [Hc1 Hc2].
  set (c := double (e * 10)) in *.
  unfold Math_round. apply Qfloor_unique.
  - rewrite inject_Z_mult. fold x. change (inject_Z 4) with 4. lra.
  - rewrite inject_Z_mult. fold x. change (inject_Z 4) with 4. lra.
Qed.

(** The value that the stages report to one decimal is the double nearest
    to four tenths of the word count. *)
Lemma rounded_estimatedDuration (script : string) :
  (Z.of_nat (wordCount script) <= 2 ^ 40)%Z ->
  rounded 10 (estimatedDuration script) =
    double (inject_Z (4 * Z.of_nat (wordCount script)) / 10).
Proof.
  intros Hhigh. unfold rounded. change (inject_Z 10) with 10.
  now rewrite tenths_of_estimatedDuration.
Qed.

End Rounding.

(** ** The script stage *)

Lemma printable_strings (l : list string) : forallb printable (map JStr l) = true.
Proof. induction l as [|x l IH]; [reflexivity | exact IH]. Qed.

Lemma logStep_run (w : World) (name : string) (ok : bool) (d : list (string * Json))
    (s : PState) :
  prints d ->
  logStep w name ok d s = (Ret tt, after_step w name ok d s).
Proof.
  intros Hd. unfold logStep, bind, now, modify_results, print_details.
  cbn [results files ticks]. unfold prints in Hd. rewrite Hd. reflexivity.
Qed.

(** A value that cannot be printed: the step is logged, then the call
    throws. *)
Lemma logStep_throws (w : World) (name : string) (ok : bool) (d : list (string * Json))
    (s : PState) :
  ~ prints d ->
  logStep w name ok d s = (Throw print_error, after_step w name ok d s).
Proof.
  intros Hd. unfold logStep, bind, now, modify_results, print_details.
  cbn [results files ticks]. unfold prints in Hd.
  destruct (forallb _ d); [now destruct Hd | reflexivity].
Qed.

Lemma printable_latest_article (l : list Article) : printable (latest_article l) = true.
Proof. destruct l; reflexivity. Qed.

(** The details of a step of the news stage or of the environment stage
    print: they hold numbers, texts and lists of texts. *)
Ltac details_print :=
  unfold prints; cbn [forallb snd printable JCount andb];
  repeat match goal with
         | |- context [printable (if ?b then _ else _)] => destruct b
         end;
  cbn [printable andb];
  rewrite ?printable_strings, ?printable_latest_article; reflexivity.

Lemma prints_script_details (script : string) (articles : list Article) :
  prints (script_details script articles).
Proof. reflexivity. Qed.

Lemma generateScript_run (w : World) (articles : list Article) (s : PState) :
  generateScript w articles s =
    (Ret (assemble_script w articles),
     after_step w "Script Generation" true
       (script_details (assemble_script w articles) articles) s).
Proof.
  unfold generateScript, bind. cbv zeta.
  rewrite logStep_run by apply prints_script_details. reflexivity.
Qed.

(** *** The word count against the tokens *)

Lemma occurrences_app (c : ascii) (a b : string) :
  occurrences c (a ++ b) = occurrences c a + occurrences c b.
Proof.
  induction a as [|x a IH]; [reflexivity|].
  rewrite append_String. simpl. rewrite IH. lia.
Qed.

Lemma count_tokens_app (inside : bool) (a b : string) :
  count_tokens inside (a ++ b) =
    snd (scan inside a) + count_tokens (fst (scan inside a)) b.
Proof.
  revert inside. induction a as [|x a IH]; intros inside; [reflexivity|].
  rewrite append_String. simpl.
  destruct (is_whitespace x).
  - apply IH.
  - rewrite IH. destruct (scan true a) as [last begun]. simpl. lia.
Qed.

Lemma scan_app (inside : bool) (a b : string) :
  scan inside (a ++ b) =
    (fst (scan (fst (scan inside a)) b),
     snd (scan inside a) + snd (scan (fst (scan inside a)) b)).
Proof.
  revert inside. induction a as [|x a IH]; intros inside.
  - rewrite append_empty. simpl. now destruct (scan inside b).
  - rewrite append_String. simpl.
    destruct (is_whitespace x).
    + apply IH.
    + rewrite IH. destruct (scan true a) as [last begun]. simpl.
      f_equal; lia.
Qed.

Lemma scan_no_whitespace (s : string) :
  no_whitespace s = true -> scan true s = (true, 0).
Proof.
  induction s as [|x s IH]; [reflexivity|]. simpl.
  intros [Hx Hs]%andb_true_iff. apply negb_true_iff in Hx. rewrite Hx.
  now rewrite (IH Hs).
Qed.

Lemma scan_word (inside : bool) (w : string) :
  is_word w = true -> scan inside w = (true, if inside then 0 else 1).
Proof.
  unfold is_word. destruct w as [|x w]; [discriminate|]. simpl.
  intros [Hx Hw]%andb_true_iff. apply negb_true_iff in Hx. rewrite Hx.
  rewrite (scan_no_whitespace w Hw). f_equal; lia.
Qed.

Lemma occurrences_no_whitespace (s : string) :
  no_whitespace s = true -> occurrences " " s = 0.
Proof.
  induction s as [|x s IH]; [reflexivity|]. simpl.
  intros [Hx Hs]%andb_true_iff. rewrite (IH Hs).
  destruct (Ascii.eqb_spec x " ") as [->|]; [discriminate|reflexivity].
Qed.

Lemma occurrences_word (w : string) : is_word w = true -> occurrences " " w = 0.
Proof.
  unfold is_word. intros [_ Hw]%andb_true_iff. now apply occurrences_no_whitespace.
Qed.

(** Words separated by single spaces: one token per word, one space less. *)
Lemma scan_spaced_words (s : string) :
  spaced_words s ->
  forall inside,
    scan inside s = (true, (if inside then 0 else 1) + occurrences " " s).
Proof.
  induction 1 as [w Hw | w s Hw Hs IH]; intros inside.
  - rewrite (scan_word inside w Hw), (occurrences_word w Hw). f_equal; lia.
  - rewrite scan_app, (scan_word inside w Hw). cbn [fst snd].
    rewrite scan_app. cbn [scan is_whitespace fst snd]. simpl.
    rewrite (IH false). cbn [fst snd].
    rewrite !occurrences_app, (occurrences_word w Hw). simpl. f_equal; lia.
Qed.

Lemma decimal_is_word (n : nat) : is_word (decimal n) = true.
Proof.
  unfold decimal, is_word.
  assert (Hnonnil : Nat.to_uint n <> Decimal.Nil).
  { rewrite <- (DecimalNat.Unsigned.of_to n) at 1.
    rewrite DecimalNat.Unsigned.to_of. apply DecimalFacts.unorm_nonnil. }
  assert (Hdigits : forall d, no_whitespace (NilEmpty.string_of_uint d) = true).
  { induction d; simpl; auto. }
  rewrite Hdigits, andb_true_r.
  destruct (Nat.to_uint n); [now destruct Hnonnil | reflexivity ..].
Qed.

(** The reading of a literal, by evaluation. *)
Ltac scan_literal inside text result :=
  replace (scan inside text) with result by (vm_compute; reflexivity);
  cbn [fst snd].

Lemma forEach_story_appends (articles : list Article) (index : nat) (script : string) :
  forEach_story articles index script = script ++ stories articles index.
Proof.
  revert index script. induction articles as [|a articles IH]; intros index script; simpl.
  - induction script as [|x script IHs]; [reflexivity|].
    rewrite append_String. now rewrite <- IHs.
  - rewrite IH. now rewrite !append_assoc.
Qed.

(** One story, read after whitespace: as many tokens as spaces, and it ends
    in whitespace. *)
Lemma scan_story (a : Article) (index : nat) :
  plain_article a ->
  let story := "Story " ++ decimal (index + 1) ++ ": " ++ title a ++ ". " ++
               "This update comes from " ++ source a ++ ". " ++ LF ++ LF in
  scan false story = (false, occurrences " " story).
Proof.
  intros [Htitle Hsource] story. unfold story.
  rewrite !occurrences_app.
  rewrite (occurrences_word _ (decimal_is_word (index + 1))).
  rewrite scan_app; scan_literal false "Story " (false, 1).
  rewrite scan_app, (scan_word false _ (decimal_is_word (index + 1))). cbn [fst snd].
  rewrite scan_app; scan_literal true ": " (false, 0).
  rewrite scan_app, (scan_spaced_words _ Htitle false). cbn [fst snd].
  rewrite scan_app; scan_literal true ". " (false, 0).
  rewrite scan_app; scan_literal false "This update comes from " (false, 4).
  rewrite scan_app, (scan_spaced_words _ Hsource false). cbn [fst snd].
  rewrite scan_app; scan_literal true ". " (false, 0).
  rewrite scan_app; scan_literal false LF (false, 0).
  scan_literal false LF (false, 0).
  replace (occurrences " " "Story ") with 1 by reflexivity.
  replace (occurrences " " ": ") with 1 by reflexivity.
  replace (occurrences " " ". ") with 1 by reflexivity.
  replace (occurrences " " "This update comes from ") with 4 by reflexivity.
  replace (occurrences " " LF) with 0 by reflexivity.
  f_equal; lia.
Qed.

Lemma scan_stories (articles : list Article) (index : nat) :
  Forall plain_article articles ->
  scan false (stories articles index) = (false, occurrences " " (stories articles index)).
Proof.
  intros Hall. revert index.
  induction Hall as [|a articles Ha _ IH]; intros index; [reflexivity|].
  cbn [stories]. rewrite scan_app, occurrences_app.
  rewrite (scan_story a index Ha). cbn [fst snd]. now rewrite IH.
Qed.

(** For headlines and sources written as words separated by single spaces,
    the word count of the script stage is one less than the number of
    whitespace-delimited tokens: the last word of the intro and the first
    word after it are one piece for [split(' ')]. *)
Lemma wordCount_is_tokens_minus_one (w : World) (articles : list Article) :
  Forall plain_article articles ->
  whitespace_tokens (assemble_script w articles) = S (wordCount (assemble_script w articles)).
Proof.
  intros Hall. unfold wordCount, whitespace_tokens. rewrite split_length.
  assert (Hbody : exists body,
             assemble_script w articles =
               (at_draw intros (intro_draw w) ++ LF ++ LF) ++ body ++
               at_draw outros (outro_draw w) /\
             scan false body = (false, occurrences " " body)).
  { unfold assemble_script. destruct articles as [|a articles].
    - exists filler. cbn [length Nat.ltb Nat.leb]. split; [now rewrite !append_assoc|].
      vm_compute. reflexivity.
    - exists (stories (a :: articles) 0). cbn [length Nat.ltb Nat.leb]. split.
      + now rewrite forEach_story_appends, !append_assoc.
      + now apply scan_stories. }
  destruct Hbody as (body & -> & Hscan).
  assert (Hintro : scan false (at_draw intros (intro_draw w) ++ LF ++ LF) =
                   (false, S (occurrences " " (at_draw intros (intro_draw w) ++ LF ++ LF)))).
  { destruct (intro_draw w); vm_compute; reflexivity. }
  assert (Houtro : count_tokens false (at_draw outros (outro_draw w)) =
                   S (occurrences " " (at_draw outros (outro_draw w)))).
  { destruct (outro_draw w); vm_compute; reflexivity. }
  rewrite count_tokens_app, Hintro. cbn [fst snd].
  rewrite count_tokens_app, Hscan. cbn [fst snd].
  rewrite Houtro, !occurrences_app. lia.
Qed.

(** C1, as amended. For every article list, the word count that the script
    stage reports is the number of pieces that splitting the assembled text at
    every single space character yields, which is one more than the number of
    space characters (line feeds do not delimit); for headlines and sources
    written as words separated by single spaces it is one less than the
    number of whitespace-delimited tokens; and the reported duration is the
    estimate [word_count / 150 * 60], a quotient and a product of doubles,
    rounded to one decimal by [Math.round(estimate * 10) / 10]: for a script
    of at most [2^40] words it is the double nearest to four tenths of the
    word count, from which the estimate itself differs by at most [2^-51] of
    that amount. *)
Theorem generateScript_word_count_and_duration
    (w : World) (articles : list Article) (s : PState) :
  exists script s' entry reported,
    generateScript w articles s = (Ret script, s') /\
    steps (results s') = (steps (results s) ++ [entry])%list /\
    assoc "word_count" (details entry) = Some (JCount (length (split " " script))) /\
    length (split " " script) = S (occurrences " " script) /\
    (Forall plain_article articles ->
     whitespace_tokens script = S (length (split " " script))) /\
    assoc "estimated_duration_seconds" (details entry) = Some (JNum reported) /\
    reported = rounded 10 (estimatedDuration script) /\
    ((Z.of_nat (length (split " " script)) <= 2 ^ 40)%Z ->
     reported = double (inject_Z (4 * Z.of_nat (length (split " " script))) / 10)) /\
    (let exact := inject_Z (Z.of_nat (length (split " " script))) * (2 # 5) in
     exact - exact * (2 * epsilon) <= estimatedDuration script
       <= exact + exact * (2 * epsilon))%Q.
Proof.
  eexists _, _, _, _. rewrite generateScript_run.
  split; [reflexivity|]. split; [reflexivity|]. split; [reflexivity|].
  split; [apply split_length|].
  split; [apply wordCount_is_tokens_minus_one|].
  split; [reflexivity|].
  split; [reflexivity|].
  split; [apply rounded_estimatedDuration | apply estimatedDuration_error].
Qed.

(** One article with a headline of four words: 35 pieces, 36 tokens, and a
    reported duration of 14 seconds. *)
Lemma generateScript_word_count_and_duration_witness :
  exists script s' entry,
    generateScript offline_world [sample_article] initial_state = (Ret script, s') /\
    length (split " " script) = 35 /\
    whitespace_tokens script = S (length (split " " script)) /\
    steps (results s') = [entry] /\
    assoc "estimated_duration_seconds" (details entry) = Some (JNum 14).
Proof.
  destruct (generateScript_word_count_and_duration offline_world [sample_article]
              initial_state)
    as (script & s' & entry & reported & Hrun & Hsteps & _ & _ & Htokens & Hreported &
        _ & Hnearest & _).
  exists script, s', entry. split; [exact Hrun|].
  assert (Hscript : script = assemble_script offline_world [sample_article]).
  { rewrite generateScript_run in Hrun. now injection Hrun as <- _. }
  assert (Hcount : length (split " " script) = 35).
  { rewrite Hscript. vm_compute. reflexivity. }
  split; [exact Hcount|]. split.
  - apply Htokens. constructor; [|constructor]. split.
    + apply (more_words "Lunar" "Gateway module docks"); [reflexivity|].
      apply (more_words "Gateway" "module docks"); [reflexivity|].
      apply (more_words "module" "docks"); [reflexivity|].
      now apply one_word.
    + now apply one_word.
  - split; [exact Hsteps|].
    rewrite Hreported, Hnearest by (rewrite Hcount; vm_compute; discriminate).
    rewrite Hcount. vm_compute. reflexivity.
Defined.

(** C1, refuted as stated: for the one-article list [[sample_article]] the
    reported word count is 35 while the assembled text has 36
    whitespace-delimited tokens, because the intro and the first story are
    separated by line feeds only. *)
Lemma generateScript_word_count_is_not_token_count :
  let script := assemble_script offline_world [sample_article] in
  assoc "word_count" (script_details script [sample_article]) = Some (JCount 35) /\
  whitespace_tokens script = 36 /\
  wordCount script <> whitespace_tokens script.
Proof. vm_compute. split; [reflexivity | split; [reflexivity | discriminate]]. Qed.

(** The estimate is not the reported duration in general: for the 36 pieces
    of a script with one headline of five words, the doubles of
    [36 / 150 * 60] give 14.399999999999999, and the stage reports the
    double nearest to 14.4. *)
Lemma estimatedDuration_of_36_words :
  let script := assemble_script offline_world [long_headline_article] in
  wordCount script = 36 /\
  estimatedDuration script = (2026619832316723 # 140737488355328) /\
  rounded 10 (estimatedDuration script) = double (72 # 5) /\
  rounded 10 (estimatedDuration script) = (8106479329266893 # 562949953421312) /\
  ~ (estimatedDuration script == 72 # 5)%Q.
Proof.
  vm_compute. do 4 (split; [reflexivity|]). discriminate.
Qed.

(** *** The empty list *)




(** ** Reasoning about the methods *)

Lemma ensures_ret {A} (a : A) (s : PState) (Q : A -> PState -> Prop) :
  Q a s -> ensures (ret a) s Q.
Proof. intros HQ. exact HQ. Qed.

Lemma ensures_bind {A B} (c : M A) (k : A -> M B) (s : PState)
    (Q : B -> PState -> Prop) :
  ensures c s (fun a s' => ensures (k a) s' Q) -> ensures (bind c k) s Q.
Proof.
  unfold ensures, bind. destruct (c s) as [[a|e|] s']; trivial.
Qed.

Lemma ensures_weaken {A} (c : M A) (s : PState) (P Q : A -> PState -> Prop) :
  (forall a s', P a s' -> Q a s') -> ensures c s P -> ensures c s Q.
Proof.
  unfold ensures. intros HPQ. destruct (c s) as [[a|e|] s']; auto.
Qed.

Lemma ensures_logStep (w : World) (name : string) (ok : bool)
    (d : list (string * Json)) (s : PState) (Q : unit -> PState -> Prop) :
  prints d ->
  ensures (logStep w name ok d) s Q = Q tt (after_step w name ok d s).
Proof. intros Hd. unfold ensures. now rewrite logStep_run. Qed.

(** ** The HTTP client *)

Section ClientFacts.
Context `{JsRuntime}.

(** A rejected promise stays rejected whatever arrives later. *)
Lemma B_rejected_stays (events : list HttpEvent) (r : Request) (e : JsError) :
  promise r = Rejected e ->
  promise (fold_left PipelineB.on_event events r) = Rejected e.
Proof.
  revert r. induction events as [|ev events IH]; intros r Hr; [exact Hr|].
  simpl. apply IH.
  destruct ev as [[code|] msg | chunk | | msg | msg | ]; simpl;
    repeat match goal with
           | |- context [if ?b then _ else _] => destruct b
           | |- context [match attached r with _ => _ end] => destruct (attached r)
           end; simpl; rewrite ?Hr; reflexivity.
Qed.

(** Before the response arrives no listener is attached, so nothing can
    resolve the promise; the response with an error status then rejects
    it, unless it is rejected already. *)
Lemma B_error_status_rejects (events : list HttpEvent) (r : Request) (code : Z)
    (msg : string) :
  attached r = None ->
  (forall v, promise r <> Fulfilled v) ->
  first_response events = Some (Some code, msg) ->
  (400 <= code)%Z ->
  exists e, promise (fold_left PipelineB.on_event events r) = Rejected e.
Proof.
  revert r. induction events as [|ev events IH]; intros r Ha Hp Hf Hc; [discriminate|].
  destruct ev as [c m | chunk | | m | m | ]; simpl in Hf |- *.
  - injection Hf as -> ->.
    destruct (Z.leb_spec 400 code) as [_|]; [|lia].
    destruct (promise r) as [|v|e0] eqn:E.
    + eexists. apply B_rejected_stays. unfold reject. simpl. rewrite E. reflexivity.
    + now destruct (Hp v).
    + exists e0. apply B_rejected_stays. unfold reject. simpl. now rewrite E.
  - rewrite Ha. now apply IH.
  - rewrite Ha. now apply IH.
  - rewrite Ha. now apply IH.
  - apply IH; try assumption. intros v. unfold reject. simpl.
    destruct (promise r) eqn:E; try discriminate. now destruct (Hp v0).
  - apply IH; try assumption. intros v. unfold reject. simpl.
    destruct (promise r) eqn:E; try discriminate. now destruct (Hp v0).
Qed.

Lemma B_error_status_message (rest : list HttpEvent) (code : Z) (msg : string) :
  (400 <= code)%Z ->
  promise (PipelineB.deliver (EvResponse (Some code) msg :: rest)) =
    Rejected {| message := "HTTP " ++ decimalZ code ++ ": " ++
                           (if String.eqb msg "" then "Request failed" else msg) |}.
Proof.
  intros Hc. unfold PipelineB.deliver. simpl.
  destruct (Z.leb_spec 400 code) as [_|]; [|lia].
  now apply B_rejected_stays.
Qed.
End ClientFacts.

(** C3, as amended. In the second variant of the client (lines 560-624) a
    request whose response has a status of 400 or more rejects and never
    resolves; when the response is the first event of the request, the error
    is [HTTP <status>: <statusMessage, or 'Request failed'>]. The first
    variant (lines 46-80) has no test on the status: it resolves with the
    status and the decoded body whatever the status is. *)
Theorem makeHttpRequest_error_status :
  (forall (rt : JsRuntime) (w : World) (url : string) (s : PState) (code : Z) (msg : string),
      first_response (network w url) = Some (Some code, msg) ->
      (400 <= code)%Z ->
      exists e,
        PipelineB.makeHttpRequest w url s = (Throw e, s) /\
        (forall rest, network w url = EvResponse (Some code) msg :: rest ->
           message e = "HTTP " ++ decimalZ code ++ ": " ++
                       (if String.eqb msg "" then "Request failed" else msg))) /\
  (forall (rt : JsRuntime) (w : World) (url : string) (s : PState) (code : option Z)
          (msg body : string),
      network w url = [EvResponse code msg; EvData body; EvEnd] ->
      PipelineA.makeHttpRequest w url s =
        (Ret {| status_code := code; data := parse_or_raw body |}, s)).
Proof.
  split.
  - intros rt w url s code msg Hf Hc.
    destruct (B_error_status_rejects (network w url) new_request code msg)
      as [e He]; try assumption; try reflexivity; [discriminate|].
    exists e. unfold PipelineB.makeHttpRequest, PipelineB.deliver. rewrite He.
    split; [reflexivity|].
    intros rest Hn. pose proof (B_error_status_message rest code msg Hc) as Hm.
    unfold PipelineB.deliver in Hm. rewrite Hn in He. rewrite He in Hm.
    now injection Hm as ->.
  - intros rt w url s code msg body Hn.
    unfold PipelineA.makeHttpRequest, PipelineA.deliver. rewrite Hn. reflexivity.
Qed.

(** The second variant, asked for the news while the service answers 500,
    rejects with [HTTP 500: Internal Server Error]. *)
Lemma makeHttpRequest_error_status_witness :
  exists e,
    @PipelineB.makeHttpRequest plain_runtime news_down_world PipelineB.newsUrl initial_state
      = (Throw e, initial_state) /\
    message e = "HTTP 500: Internal Server Error".
Proof.
  destruct (proj1 makeHttpRequest_error_status plain_runtime news_down_world
              PipelineB.newsUrl initial_state 500%Z "Internal Server Error"
              eq_refl ltac:(lia)) as [e [Hrun Hmsg]].
  exists e. split; [exact Hrun|].
  exact (Hmsg _ eq_refl).
Defined.

(** C3, refuted as stated: the client of the first variant, given a
    response 500 with a body, resolves with status 500 and the raw body
    instead of rejecting. *)
Lemma makeHttpRequest_A_resolves_status_500 :
  @PipelineA.makeHttpRequest plain_runtime news_down_world PipelineA.pexelsUrl initial_state
    = (Ret {| status_code := Some 500%Z; data := JStr "Service down" |}, initial_state).
Proof. reflexivity. Qed.

(** ** The media stage *)

Lemma forEach_push_appends (item : Json -> Try MediaItem) (P : MediaItem -> Prop)
    (photos : list Json) (mediaItems : list MediaItem) :
  (forall photo m, item photo = Ok m -> P m) ->
  exists added,
    fst (forEach_push item photos mediaItems) = (mediaItems ++ added)%list /\
    Forall P added.
Proof.
  intros HP. revert mediaItems.
  induction photos as [|photo photos IH]; intros mediaItems; simpl.
  - exists []. split; [now rewrite app_nil_r | constructor].
  - destruct (item photo) as [m|e] eqn:E; simpl.
    + destruct (IH (mediaItems ++ [m])%list) as (added & Heq & Hall).
      exists (m :: added). split.
      * rewrite Heq, <- app_assoc. reflexivity.
      * constructor; [eapply HP; eassumption | exact Hall].
    + exists []. split; [now rewrite app_nil_r | constructor].
Qed.

Lemma pexels_item_source (photo : Json) (m : MediaItem) :
  pexels_item photo = Ok m -> media_source m = "pexels".
Proof.
  unfold pexels_item.
  destruct (prop "src" (Some photo)) as [src|]; [|discriminate].
  destruct (prop "large" src); [|discriminate].
  now intros [= <-].
Qed.

(** The response block only appends to [mediaItems]. *)
Lemma push_photos_appends (key : string) (item : Json -> Try MediaItem)
    (P : MediaItem -> Prop) (response : HttpResult) (mediaItems : list MediaItem) :
  (forall photo m, item photo = Ok m -> P m) ->
  exists added,
    fst (push_photos key item response mediaItems) = (mediaItems ++ added)%list /\
    Forall P added.
Proof.
  intros HP. unfold push_photos.
  assert (Hnone : exists added : list MediaItem,
             mediaItems = (mediaItems ++ added)%list /\ Forall P added).
  { exists []. split; [now rewrite app_nil_r | constructor]. }
  destruct (is_200 (status_code response)); [|exact Hnone].
  destruct (prop key (Some (data response))) as [photos|]; [|exact Hnone].
  destruct (truthy photos); [|exact Hnone].
  destruct photos as [[| | | | |l|]|]; try exact Hnone.
  now apply forEach_push_appends.
Qed.

Section MediaFacts.
Context `{JsRuntime}.

Lemma forEach_simulated_appends (flag : bool) (urls : list string) (index : nat)
    (mediaItems : list MediaItem) :
  PipelineB.forEach_simulated flag urls index mediaItems =
    (mediaItems ++ PipelineB.forEach_simulated flag urls index [])%list.
Proof.
  revert index mediaItems.
  induction urls as [|u urls IH]; intros index mediaItems; simpl.
  - now rewrite app_nil_r.
  - rewrite IH. rewrite (IH _ [_]). now rewrite <- app_assoc.
Qed.

Lemma pad_appends (flag : bool) (mediaItems : list MediaItem) :
  PipelineB.pad flag mediaItems =
    (mediaItems ++ if Nat.ltb (length mediaItems) 5 then PipelineB.padding flag else [])%list.
Proof.
  unfold PipelineB.pad, PipelineB.padding.
  destruct (Nat.ltb (length mediaItems) 5).
  - apply forEach_simulated_appends.
  - now rewrite app_nil_r.
Qed.

Lemma padding_is_fallback (flag : bool) :
  length (PipelineB.padding flag) = 5 /\
  Forall (fun m => media_source m = PipelineB.fallback_source flag) (PipelineB.padding flag).
Proof. split; [reflexivity|]. destruct flag; repeat constructor. Qed.

(** The Pexels block returns the items it pushed, all marked [pexels], or
    hangs with the request; it does not throw. *)
Lemma B_collect_real_run (w : World) (s : PState) :
  match PipelineB.collect_real w s with
  | (Ret (real, _), s') => s' = s /\ Forall (fun m => media_source m = "pexels") real
  | (Throw _, _) => False
  | (Hang, _) => promise (PipelineB.deliver (network w PipelineB.pexelsUrl)) = Pending
  end.
Proof.
  unfold PipelineB.collect_real.
  destruct (nonempty (pexels_api_key w) && negb (String.eqb (pexels_api_key w) ""));
    [|simpl; split; [reflexivity | constructor]].
  unfold try_catch, bind, PipelineB.makeHttpRequest, await.
  destruct (promise (PipelineB.deliver (network w PipelineB.pexelsUrl))) as [|v|e]; simpl.
  - reflexivity.
  - destruct (push_photos_appends "photos" pexels_item
                (fun m => media_source m = "pexels") v [] pexels_item_source)
      as (added & Heq & Hall).
    destruct (push_photos "photos" pexels_item v []) as [real flag].
    simpl in Heq. subst real. split; [reflexivity | exact Hall].
  - split; [reflexivity | constructor].
Qed.

(** A request block of the first variant returns or waits; its [catch]
    lets no error out, and the state is as before. *)
Lemma A_request_block (w : World) (key url : string) (item : Json -> Try MediaItem)
    (mediaItems : list MediaItem) (s : PState) :
  ensures (try_catch
             (response <- PipelineA.makeHttpRequest w url ;;
              ret (fst (push_photos key item response mediaItems)))
             (fun _ => ret mediaItems)) s
          (fun _ s' => s' = s).
Proof.
  unfold ensures, try_catch, bind, PipelineA.makeHttpRequest, await.
  destruct (promise (PipelineA.deliver (network w url))); simpl; trivial.
Qed.

Lemma forEach_nasa_appends (urls : list string) (index : nat)
    (mediaItems : list MediaItem) :
  PipelineA.forEach_nasa urls index mediaItems =
    (mediaItems ++ PipelineA.forEach_nasa urls index [])%list.
Proof.
  revert index mediaItems.
  induction urls as [|u urls IH]; intros index mediaItems; simpl.
  - now rewrite app_nil_r.
  - rewrite IH. rewrite (IH _ [_]). now rewrite <- app_assoc.
Qed.
End MediaFacts.

(** The details of a media stage print when its sample image does. *)
Ltac media_details_print Hp :=
  unfold prints; cbn [forallb snd printable JCount andb]; rewrite Hp;
  first [reflexivity | discriminate].

(** What the media stage of the first variant does, in one equation: the
    two request blocks leave the state as it is, the three NASA items are
    appended, and the step is logged; the call throws when the sample image
    cannot be printed. *)
Lemma A_collectMedia_run (rt : JsRuntime) (w : World) (s : PState) :
  match PipelineA.collectMedia w s with
  | (Ret media, s') =>
      exists real d,
        media = (real ++ PipelineA.nasa_items)%list /\
        s' = after_step w "Media Collection" true d s
  | (Throw e, s') =>
      e = print_error /\
      exists image d,
        printable image = false /\
        s' = after_step w "Media Collection" true d s /\
        assoc "sample_image" d = Some image
  | (Hang, _) => True
  end.
Proof.
  unfold PipelineA.collectMedia. unfold bind at 1.
  assert (Hfirst :
    ensures (if nonempty (pexels_api_key w)
             then try_catch
                    (response <- PipelineA.makeHttpRequest w PipelineA.pexelsUrl ;;
                     ret (fst (push_photos "photos" pexels_item response [])))
                    (fun _ => ret [])
             else ret []) s (fun _ s' => s' = s)).
  { destruct (nonempty (pexels_api_key w)); [apply A_request_block | reflexivity]. }
  unfold ensures in Hfirst.
  destruct (_ s) as [[fromPexels|e|] s1]; [subst s1 | destruct Hfirst | exact I].
  unfold bind at 1.
  assert (Hsecond :
    ensures (if nonempty (unsplash_access_key w)
             then try_catch
                    (response <- PipelineA.makeHttpRequest w PipelineA.unsplashUrl ;;
                     ret (fst (push_photos "results" PipelineA.unsplash_item response
                                 fromPexels)))
                    (fun _ => ret fromPexels)
             else ret fromPexels) s (fun _ s' => s' = s)).
  { destruct (nonempty (unsplash_access_key w)); [apply A_request_block | reflexivity]. }
  unfold ensures in Hsecond.
  destruct (_ s) as [[fromBoth|e|] s1]; [subst s1 | destruct Hsecond | exact I].
  cbv zeta. unfold bind at 1.
  destruct (printable (sample_image (PipelineA.forEach_nasa PipelineA.nasaImages 0 fromBoth)))
    eqn:Hp.
  - rewrite logStep_run by media_details_print Hp. unfold ret.
    eexists fromBoth, _. split; [apply forEach_nasa_appends | reflexivity].
  - rewrite logStep_throws by media_details_print Hp.
    split; [reflexivity|]. eexists _, _. split; [exact Hp|]. split; reflexivity.
Qed.


(** The sample image of the second variant is a text of the padding, or the
    [alt] of the first item that Pexels gave. *)
Lemma B_sample_image (rt : JsRuntime) (flag : bool) (real : list MediaItem) :
  printable (sample_image (PipelineB.pad flag real)) = false ->
  exists first rest, real = first :: rest /\ printable (alt first) = false.
Proof.
  destruct real as [|first rest]; [destruct flag; discriminate|].
  rewrite pad_appends. intros Hp. now exists first, rest.
Qed.

(** C2, as amended. In the second variant (lines 801-875) every run of
    [collectMedia] that returns yields at least 5 items: the items pushed from
    Pexels, none of them removed, followed, when they are fewer than 5, by the
    five fallback items, which all carry the fallback marker of the run
    ([curated] after a completed Pexels loop, [simulated] otherwise). The
    stage throws in one case: its step is logged, and printing the sample
    image, the [alt] of the first item that Pexels gave, fails. The first
    variant (lines 238-318) has no minimum: it returns what Pexels and
    Unsplash gave followed by its three NASA items, and throws in the same
    way on a sample image that cannot be printed. *)
Theorem collectMedia_minimum_and_padding :
  (forall (rt : JsRuntime) (w : World) (s : PState),
      match PipelineB.collectMedia w s with
      | (Ret media, _) =>
          exists real flag,
            PipelineB.collect_real w s = (Ret (real, flag), s) /\
            media = (real ++ if Nat.ltb (length real) 5
                             then PipelineB.padding flag else [])%list /\
            5 <= length media /\
            Forall (fun m => media_source m = "pexels") real /\
            length (PipelineB.padding flag) = 5 /\
            Forall (fun m => media_source m = PipelineB.fallback_source flag)
                   (PipelineB.padding flag)
      | (Throw e, s') =>
          e = print_error /\
          exists first rest flag entry,
            PipelineB.collect_real w s = (Ret (first :: rest, flag), s) /\
            printable (alt first) = false /\
            steps (results s') = (steps (results s) ++ [entry])%list /\
            step entry = "Media Collection" /\
            assoc "sample_image" (details entry) = Some (alt first)
      | (Hang, _) => promise (PipelineB.deliver (network w PipelineB.pexelsUrl)) = Pending
      end) /\
  (forall (rt : JsRuntime) (w : World) (s : PState),
      match PipelineA.collectMedia w s with
      | (Ret media, _) =>
          exists real,
            media = (real ++ PipelineA.nasa_items)%list /\
            length media = length real + 3
      | (Throw e, s') =>
          e = print_error /\
          exists image entry,
            printable image = false /\
            steps (results s') = (steps (results s) ++ [entry])%list /\
            step entry = "Media Collection" /\
            assoc "sample_image" (details entry) = Some image
      | (Hang, _) => True
      end).
Proof.
  split; intros rt w s.
  - unfold PipelineB.collectMedia, bind.
    pose proof (B_collect_real_run w s) as Hreal.
    destruct (PipelineB.collect_real w s) as [[[real flag]|e|] s1];
      [|destruct Hreal|exact Hreal].
    destruct Hreal as [-> Hpexels].
    cbv zeta. cbn [fst snd].
    destruct (printable (sample_image (PipelineB.pad flag real))) eqn:Hp.
    + rewrite logStep_run by media_details_print Hp. cbn [fst snd ret].
      exists real, flag. split; [reflexivity|].
      rewrite pad_appends. split; [reflexivity|].
      destruct (padding_is_fallback flag) as [Hlen Hall].
      split; [|now repeat split].
      rewrite length_app.
      destruct (Nat.ltb_spec (length real) 5); simpl in *; lia.
    + rewrite logStep_throws by media_details_print Hp.
      split; [reflexivity|].
      destruct (B_sample_image rt flag real Hp) as (first & rest & -> & Hfirst).
      eexists first, rest, flag, _. split; [reflexivity|]. split; [exact Hfirst|].
      split; [reflexivity|]. split; [reflexivity|].
      cbn [details assoc String.eqb Ascii.eqb Bool.eqb]. rewrite pad_appends. reflexivity.
  - pose proof (A_collectMedia_run rt w s) as Hrun.
    destruct (PipelineA.collectMedia w s) as [[media|e|] s']; [| |exact I].
    + destruct Hrun as (real & d & -> & _). exists real. split; [reflexivity|].
      rewrite length_app. reflexivity.
    + destruct Hrun as (-> & image & d & Hp & -> & Hd). split; [reflexivity|].
      eexists image, _. split; [exact Hp|]. split; [reflexivity|].
      split; [reflexivity | exact Hd].
Qed.

(** C2, refuted as stated: with no credential configured, [collectMedia] of
    the first variant returns its three NASA items and nothing else. *)
Lemma collectMedia_A_returns_three_items :
  exists media s',
    @PipelineA.collectMedia plain_runtime offline_world initial_state = (Ret media, s') /\
    length media = 3 /\
    map media_source media = ["nasa"; "nasa"; "nasa"].
Proof. eexists _, _. vm_compute. repeat split. Qed.

(** ** Sorting *)

Section SortFacts.
Context {A : Type} (compare : A -> A -> option Z).

Lemma insert_sorted_perm (x : A) (l : list A) :
  Permutation (insert_sorted compare x l) (x :: l).
Proof.
  induction l as [|y l IH]; simpl.
  - reflexivity.
  - destruct (is_positive (compare x y)).
    + rewrite IH. apply perm_swap.
    + reflexivity.
Qed.

(** Sorting neither drops nor adds an element. *)
Lemma Array_sort_perm (l : list A) : Permutation (Array_sort compare l) l.
Proof.
  induction l as [|x l IH]; simpl.
  - reflexivity.
  - rewrite insert_sorted_perm. now constructor.
Qed.

Lemma Array_sort_length (l : list A) : length (Array_sort compare l) = length l.
Proof. apply Permutation_length, Array_sort_perm. Qed.
End SortFacts.

Section DateOrder.
Context `{JsRuntime}.

Lemma insert_sorted_by_date (x : Article) (l : list Article) :
  dated x -> Forall dated l -> Sorted newer_or_equal l ->
  Sorted newer_or_equal (insert_sorted by_date_descending x l).
Proof.
  intros [tx Hx] Hall Hsorted.
  induction l as [|y l IH]; simpl.
  - repeat constructor.
  - inversion Hall as [|? ? [ty Hy] Hall']; subst.
    inversion Hsorted as [|? ? Hs Hhd]; subst.
    unfold by_date_descending at 1. rewrite Hx, Hy. simpl.
    destruct (Z.ltb_spec 0 (ty - tx)) as [Hlt|Hge].
    + constructor; [now apply IH|].
      destruct l as [|z l]; simpl.
      * constructor. unfold newer_or_equal. rewrite Hx, Hy. lia.
      * inversion Hall' as [|? ? [tz Hz] _]; subst.
        unfold by_date_descending. rewrite Hx, Hz. simpl.
        destruct (Z.ltb_spec 0 (tz - tx)).
        -- constructor. now inversion Hhd.
        -- constructor. unfold newer_or_equal. rewrite Hx, Hy. lia.
    + constructor; [exact Hsorted|].
      constructor. unfold newer_or_equal. rewrite Hx, Hy. lia.
Qed.

(** On articles whose dates are all valid, the comparator of the news
    stage sorts by published time, most recent first. *)
Lemma Array_sort_by_date (l : list Article) :
  Forall dated l -> Sorted newer_or_equal (Array_sort by_date_descending l).
Proof.
  induction l as [|x l IH]; intros Hall; simpl.
  - constructor.
  - inversion Hall; subst.
    apply insert_sorted_by_date; auto.
    eapply Permutation_Forall; [symmetry; apply Array_sort_perm | assumption].
Qed.
End DateOrder.

(** ** The news stage *)

Section NewsFacts.
Context `{JsRuntime}.

Lemma placeholders_dated (t1 t2 t3 : Z) : Forall dated (PipelineB.placeholders t1 t2 t3).
Proof. repeat constructor; eexists; reflexivity. Qed.

(** The path that [collectNews] takes once the service has given nothing:
    three clock readings for the placeholders, a sort, one step. *)
Lemma collectNews_offline_run (w : World) (s : PState) :
  try_catch (PipelineB.news_from_service w) (fun _ => ret None) s = (Ret None, s) ->
  let t1 := clock w (ticks s) in
  let t2 := clock w (S (ticks s)) in
  let t3 := clock w (S (S (ticks s))) in
  let sorted := Array_sort by_date_descending (PipelineB.placeholders t1 t2 t3) in
  PipelineB.collectNews w s =
    (Ret sorted,
     after_step w "News Collection" true
       [ ("articles_collected", JCount (length sorted));
         ("sources", JArr [JStr "Simulated Data"]);
         ("successful_feeds", JStr "offline_mode");
         ("latest_article", latest_article sorted) ]
       {| results := results s; files := files s; ticks := S (S (S (ticks s))) |}).
Proof.
  intros Htry t1 t2 t3 sorted.
  unfold PipelineB.collectNews. unfold bind at 1. rewrite Htry.
  unfold bind at 1. unfold PipelineB.fallbackNews, bind, now, ret. cbn [results files ticks].
  fold t1 t2 t3. fold sorted. rewrite logStep_run by details_print.
  rewrite firstn_all2; [reflexivity|].
  unfold sorted. rewrite Array_sort_length. simpl. lia.
Qed.

Lemma news_service_fails_run (w : World) (s : PState) :
  PipelineB.NewsServiceFails w ->
  try_catch (PipelineB.news_from_service w) (fun _ => ret None) s = (Ret None, s).
Proof.
  intros [e Hp | v Hp Hstatus | v Hp Hstatus Hpayload];
    unfold try_catch, PipelineB.news_from_service, PipelineB.makeHttpRequest;
    unfold bind at 1; rewrite Hp; cbn [await ret throw]; rewrite ?Hstatus;
    try reflexivity.
  destruct (prop "status" (Some (data v))) as [st|e]; [|reflexivity].
  now rewrite (Hpayload st eq_refl).
Qed.
End NewsFacts.

(** C8. Whenever the news service fails (the request rejects, as it does on
    a response 500, or the answer is not a 200 with [status: 'success']), the
    news stage of the second variant returns its three placeholder articles,
    dated by three consecutive clock readings and sorted by published time,
    most recent first, and appends one step, named [News Collection], whose
    success flag is true. *)
Theorem collectNews_falls_back_on_failure (rt : JsRuntime) (w : World) (s : PState) :
  PipelineB.NewsServiceFails w ->
  exists articles s' entry,
    PipelineB.collectNews w s = (Ret articles, s') /\
    length articles = 3 /\
    Permutation articles
      (PipelineB.placeholders (clock w (ticks s)) (clock w (S (ticks s)))
                              (clock w (S (S (ticks s))))) /\
    Sorted newer_or_equal articles /\
    steps (results s') = (steps (results s) ++ [entry])%list /\
    step entry = "News Collection" /\
    success entry = true.
Proof.
  intros Hfails.
  pose proof (collectNews_offline_run w s (news_service_fails_run w s Hfails)) as Hrun.
  cbv zeta in Hrun. eexists _, _, _. split; [exact Hrun|].
  split; [now rewrite Array_sort_length|].
  split; [apply Array_sort_perm|].
  split; [apply Array_sort_by_date, placeholders_dated|].
  repeat split; reflexivity.
Qed.

(** The service answers 500: the stage returns the three placeholders, the
    one dated last in front. *)
Lemma collectNews_falls_back_on_failure_witness :
  exists articles s' entry,
    @PipelineB.collectNews plain_runtime news_down_world initial_state = (Ret articles, s') /\
    map title articles =
      [ "James Webb Telescope Discovers Distant Galaxy";
        "SpaceX Launches Advanced Satellite Constellation";
        "NASA Artemis Mission Achieves Major Milestone" ] /\
    length articles = 3 /\
    Sorted (@newer_or_equal plain_runtime) articles /\
    steps (results s') = (steps (results initial_state) ++ [entry])%list /\
    step entry = "News Collection" /\
    success entry = true.
Proof.
  destruct (collectNews_falls_back_on_failure plain_runtime news_down_world initial_state)
    as (articles & s' & entry & Hrun & Hlen & _ & Hsorted & Hsteps & Hname & Hok).
  { eapply PipelineB.fails_by_rejection. reflexivity. }
  exists articles, s', entry. repeat split; try assumption.
  assert (Hval : fst (@PipelineB.collectNews plain_runtime news_down_world initial_state)
                 = Ret articles) by now rewrite Hrun.
  vm_compute in Hval. injection Hval as <-. reflexivity.
Defined.

(** ** The orchestrator *)

Lemma run_stages_raises (this : SpacePipeline) (s : PState) (e : JsError) (s1 : PState) :
  StageRaises this s e s1 <-> run_stages this s = (Throw e, s1).
Proof.
  unfold run_stages, bind. split.
  - intros [H1 | ? ? H1 H2 | ? ? ? ? H1 H2 H3 | ? ? ? ? ? ? H1 H2 H3 H4
           | ? ? ? ? ? ? ? ? H1 H2 H3 H4 H5 | ? ? ? ? ? ? ? ? ? ? H1 H2 H3 H4 H5 H6];
      rewrite H1; try rewrite H2; try rewrite H3; try rewrite H4; try rewrite H5;
      try rewrite H6; reflexivity.
  - destruct (this_validateEnvironment this s) as [[envValid|e1|] sa] eqn:H1;
      [|intros [= -> ->]; now apply raises_validateEnvironment|discriminate].
    destruct (this_collectNews this sa) as [[articles|e2|] sb] eqn:H2;
      [|intros [= -> ->]; now eapply raises_collectNews; eauto|discriminate].
    destruct (this_generateScript this articles sb) as [[script|e3|] sc] eqn:H3;
      [|intros [= -> ->]; now eapply raises_generateScript; eauto|discriminate].
    destruct (this_collectMedia this sc) as [[media|e4|] sd] eqn:H4;
      [|intros [= -> ->]; now eapply raises_collectMedia; eauto|discriminate].
    destruct (this_generateTTS this script sd) as [[audio|e5|] se] eqn:H5;
      [|intros [= -> ->]; now eapply raises_generateTTS; eauto|discriminate].
    destruct (this_produceVideo this script media audio se) as [[video|e6|] sf] eqn:H6;
      [discriminate|intros [= -> ->]; now eapply raises_produceVideo; eauto|discriminate].
Qed.

(** What [JSON.stringify] writes for the members [status], [error] and
    [steps] of the record. *)
Lemma RunRecord_to_json_members (r : RunRecord) :
  member "status" (RunRecord_to_json r) = Some (JStr (Status_text (status r))) /\
  member "error" (RunRecord_to_json r) = option_map JStr (error r) /\
  member "steps" (RunRecord_to_json r) = Some (JArr (map StepLog_to_json (steps r))).
Proof.
  unfold RunRecord_to_json, member, prop.
  destruct (end_time r), (total_duration_seconds r), (final_outputs r), (error r);
    repeat split.
Qed.

(** The record that the [catch] of [runPipeline] leaves. *)
Lemma on_failure_run (w : World) (e : JsError) (s1 : PState) :
  let entry := {| step := "Pipeline Execution"; timestamp := clock w (ticks s1);
                  success := false; details := [("error", JStr (message e))] |} in
  let r2 := push_step entry (set_failed (message e) (results s1)) in
  writable s1 resultsFile = true ->
  on_failure w e s1 =
    (Throw e, {| results := r2;
                 files := <[resultsFile := JsonDoc (RunRecord_to_json r2)]> (files s1);
                 ticks := S (ticks s1) |}).
Proof.
  intros entry r2 Hw. unfold writable in Hw.
  cbv beta delta [on_failure save_results bind modify_results logStep now get_results
                  writeFileSync throw writable print_details forallb snd printable andb
                  ret] iota zeta.
  cbn [results files ticks]. now rewrite Hw.
Qed.

(** The [catch] when the results file cannot be written: the record is
    marked and the step logged all the same, and the error of the write is
    what leaves the method. *)
Lemma on_failure_blocked (w : World) (e : JsError) (s1 : PState) :
  let entry := {| step := "Pipeline Execution"; timestamp := clock w (ticks s1);
                  success := false; details := [("error", JStr (message e))] |} in
  writable s1 resultsFile = false ->
  on_failure w e s1 =
    (Throw {| message := "EACCES: permission denied" |},
     {| results := push_step entry (set_failed (message e) (results s1));
        files := files s1;
        ticks := S (ticks s1) |}).
Proof.
  intros entry Hblocked. unfold writable in Hblocked.
  cbv beta delta [on_failure save_results bind modify_results logStep now get_results
                  writeFileSync throw writable print_details forallb snd printable andb
                  ret] iota zeta.
  cbn [results files ticks]. now rewrite Hblocked.
Qed.

(** C4, as amended. For every run of the orchestrator in which a stage
    raises an error [e]: the status becomes [failed], the message of [e] is
    recorded in the [error] member, the steps logged so far are kept and
    followed by the step [Pipeline Execution] (success false, with the
    message). What follows depends on the results file. When it can be
    written, the record is written to [pipeline_results.json], with its
    status [failed], the message and the steps, and then [e] itself is
    raised. When it cannot, no file changes, and the error that leaves the
    run is the one of the write. *)
Theorem runPipeline_stage_failure
    (w : World) (this : SpacePipeline) (s : PState) (e : JsError) (s1 : PState) :
  StageRaises this s e s1 ->
  exists raised s2 entry,
    runPipeline w this false s = (Throw raised, s2) /\
    status (results s2) = failed /\
    error (results s2) = Some (message e) /\
    steps (results s2) = (steps (results s1) ++ [entry])%list /\
    step entry = "Pipeline Execution" /\
    success entry = false /\
    assoc "error" (details entry) = Some (JStr (message e)) /\
    if writable s1 resultsFile
    then raised = e /\
         files s2 = <[resultsFile := JsonDoc (RunRecord_to_json (results s2))]> (files s1) /\
         member "status" (RunRecord_to_json (results s2)) = Some (JStr "failed") /\
         member "error" (RunRecord_to_json (results s2)) = Some (JStr (message e)) /\
         member "steps" (RunRecord_to_json (results s2)) =
           Some (JArr (map StepLog_to_json (steps (results s1) ++ [entry])))
    else files s2 = files s1 /\
         writeFileSync resultsFile (JsonDoc (RunRecord_to_json (results s2))) s2 =
           (Throw raised, s2).
Proof.
  intros Hraise. apply run_stages_raises in Hraise.
  assert (Hrun : runPipeline w this false s = on_failure w e s1).
  { unfold runPipeline, try_catch, attempt. unfold bind at 1. now rewrite Hraise. }
  rewrite Hrun.
  destruct (writable s1 resultsFile) eqn:Hfile.
  - rewrite on_failure_run by exact Hfile.
    eexists _, _, _. split; [reflexivity|]. cbn [results files].
    do 6 (split; [reflexivity|]). split; [reflexivity|]. split; [reflexivity|].
    match goal with |- context [RunRecord_to_json ?r] =>
      destruct (RunRecord_to_json_members r) as (Hst & Herr & Hsteps) end.
    rewrite Hst, Herr, Hsteps. repeat split.
  - rewrite on_failure_blocked by exact Hfile.
    eexists _, _, _. split; [reflexivity|]. cbn [results files].
    do 6 (split; [reflexivity|]). split; [reflexivity|].
    unfold writeFileSync. unfold writable in *. cbn [files]. now rewrite Hfile.
Qed.

(** The media stage of the second variant raises, Pexels having answered
    with a photo whose [alt] is an object with a member [toString]: the run
    is recorded as failed, with the message of the error and the four steps
    logged before it, the record is written and the error is raised again. *)
Lemma runPipeline_stage_failure_witness :
  exists s1 s2 entry,
    StageRaises (@SpacePipelineB odd_alt_runtime odd_alt_world) initial_state print_error s1 /\
    runPipeline odd_alt_world (@SpacePipelineB odd_alt_runtime odd_alt_world) false
      initial_state = (Throw print_error, s2) /\
    status (results s2) = failed /\
    error (results s2) = Some "Cannot convert object to primitive value" /\
    steps (results s2) = (steps (results s1) ++ [entry])%list /\
    map step (steps (results s1)) =
      [ "Environment Validation"; "News Collection"; "Script Generation";
        "Media Collection" ] /\
    step entry = "Pipeline Execution" /\
    success entry = false /\
    files s2 !! resultsFile = Some (JsonDoc (RunRecord_to_json (results s2))) /\
    member "status" (RunRecord_to_json (results s2)) = Some (JStr "failed").
Proof.
  set (this := @SpacePipelineB odd_alt_runtime odd_alt_world).
  set (s1 := snd (run_stages this initial_state)).
  assert (Hr : StageRaises this initial_state print_error s1).
  { apply run_stages_raises. vm_compute. reflexivity. }
  assert (Hw : writable s1 resultsFile = true) by (vm_compute; reflexivity).
  assert (Hnames : map step (steps (results s1)) =
                   [ "Environment Validation"; "News Collection"; "Script Generation";
                     "Media Collection" ]).
  { vm_compute. reflexivity. }
  destruct (runPipeline_stage_failure odd_alt_world this initial_state print_error s1 Hr)
    as (raised & s2 & entry & Hrun & Hst & Herr & Hsteps & Hname & Hok & _ & Hwritten).
  rewrite Hw in Hwritten. destruct Hwritten as (-> & Hfiles & Hdoc & _).
  exists s1, s2, entry. repeat split; try assumption.
  rewrite Hfiles. apply lookup_insert_eq.
Defined.

(** C4, refuted as stated: the media stage raises as above while
    [pipeline_results.json] is an entry that cannot be written. The record
    is marked as failed in memory, nothing is persisted, and the error that
    leaves the run is the one of the write, not the one of the stage. *)
Lemma stage_failure_is_not_always_persisted :
  exists e s1 raised s2,
    StageRaises (@SpacePipelineB odd_alt_runtime odd_alt_world) blocked_results_state e s1 /\
    runPipeline odd_alt_world (@SpacePipelineB odd_alt_runtime odd_alt_world) false
      blocked_results_state = (Throw raised, s2) /\
    message e = "Cannot convert object to primitive value" /\
    message raised = "EACCES: permission denied" /\
    raised <> e /\
    status (results s2) = failed /\
    files s2 = files blocked_results_state /\
    files s2 !! resultsFile = Some Unreadable.
Proof.
  eexists print_error, _, _, _.
  split; [apply run_stages_raises; vm_compute; reflexivity|].
  split; [vm_compute; reflexivity|].
  cbn [message print_error].
  split; [reflexivity|]. split; [reflexivity|]. split; [discriminate|].
  split; [reflexivity|]. split; reflexivity.
Qed.

(** *** Stages that only log *)

Lemma untouched_refl (s : PState) : untouched s s.
Proof. repeat split. Qed.

Lemma untouched_trans (s1 s2 s3 : PState) :
  untouched s1 s2 -> untouched s2 s3 -> untouched s1 s3.
Proof.
  unfold untouched. intros (?&?&?&?&?&?) (?&?&?&?&?&?).
  repeat split; congruence.
Qed.

Lemma only_logs_ret {A} (a : A) : only_logs (ret a).
Proof. intros s. apply untouched_refl. Qed.

Lemma only_logs_throw {A} (e : JsError) : only_logs (@throw A e).
Proof. intros s. apply untouched_refl. Qed.

Lemma only_logs_bind {A B} (c : M A) (k : A -> M B) :
  only_logs c -> (forall a, only_logs (k a)) -> only_logs (bind c k).
Proof.
  intros Hc Hk s. unfold bind. specialize (Hc s).
  destruct (c s) as [[a|e|] s1]; simpl in *; try exact Hc.
  eapply untouched_trans; [exact Hc | apply Hk].
Qed.

Lemma only_logs_try_catch {A} (c : M A) (h : JsError -> M A) :
  only_logs c -> (forall e, only_logs (h e)) -> only_logs (try_catch c h).
Proof.
  intros Hc Hh s. unfold try_catch. specialize (Hc s).
  destruct (c s) as [[a|e|] s1]; simpl in *; try exact Hc.
  eapply untouched_trans; [exact Hc | apply Hh].
Qed.

Lemma only_logs_now (w : World) : only_logs (now w).
Proof. intros s. repeat split. Qed.

Lemma only_logs_logStep (w : World) (name : string) (ok : bool)
    (d : list (string * Json)) : only_logs (logStep w name ok d).
Proof.
  intros s. unfold logStep, bind, now, modify_results, print_details.
  destruct (forallb _ d); repeat split.
Qed.

Lemma only_logs_await (p : Promise) : only_logs (await p).
Proof. intros s. destruct p; apply untouched_refl. Qed.

Create HintDb only_logs.

#[local] Hint Resolve only_logs_ret only_logs_throw only_logs_now only_logs_logStep
  only_logs_await : only_logs.

Ltac only_logs_step :=
  first [ solve [auto with only_logs]
        | apply only_logs_bind; [|intros ?]
        | apply only_logs_try_catch; [|intros ?]
        | match goal with
          | |- only_logs (if ?b then _ else _) => destruct b
          | |- only_logs (match ?x with _ => _ end) => destruct x
          | |- only_logs (let _ := _ in _) => cbv zeta
          end ].

Section StagesOnlyLog.
Context `{JsRuntime}.
Variable w : World.

Lemma only_logs_validateEnvironment : only_logs (validateEnvironment w).
Proof. unfold validateEnvironment. repeat only_logs_step. Qed.

Lemma only_logs_generateScript articles : only_logs (generateScript w articles).
Proof. unfold generateScript. repeat only_logs_step. Qed.

Lemma only_logs_generateTTS script : only_logs (generateTTS w script).
Proof. unfold generateTTS. repeat only_logs_step. Qed.

Lemma only_logs_produceVideo script media audio :
  only_logs (produceVideo w script media audio).
Proof. unfold produceVideo. repeat only_logs_step. Qed.

Lemma only_logs_B_makeHttpRequest url : only_logs (PipelineB.makeHttpRequest w url).
Proof. unfold PipelineB.makeHttpRequest. auto with only_logs. Qed.

Lemma only_logs_B_map_items items : only_logs (PipelineB.map_items w items).
Proof.
  induction items as [|item items IH]; simpl; [auto with only_logs|].
  apply only_logs_bind.
  - unfold PipelineB.convert_item. repeat only_logs_step.
  - intros a. apply only_logs_bind; [exact IH | auto with only_logs].
Qed.

Lemma only_logs_B_collectNews : only_logs (PipelineB.collectNews w).
Proof.
  unfold PipelineB.collectNews, PipelineB.news_from_service, PipelineB.fallbackNews.
  repeat first [ apply only_logs_B_makeHttpRequest
               | apply only_logs_B_map_items
               | only_logs_step ].
Qed.

Lemma only_logs_B_collectMedia : only_logs (PipelineB.collectMedia w).
Proof.
  unfold PipelineB.collectMedia, PipelineB.collect_real.
  repeat first [ apply only_logs_B_makeHttpRequest | only_logs_step ].
Qed.

Lemma only_logs_B_run_stages : only_logs (run_stages (SpacePipelineB w)).
Proof.
  unfold run_stages. cbn [SpacePipelineB this_validateEnvironment this_collectNews
    this_generateScript this_collectMedia this_generateTTS this_produceVideo].
  repeat first [ apply only_logs_validateEnvironment
               | apply only_logs_B_collectNews
               | apply only_logs_generateScript
               | apply only_logs_B_collectMedia
               | apply only_logs_generateTTS
               | apply only_logs_produceVideo
               | apply only_logs_bind; [|intros ?]
               | solve [auto with only_logs]
               | match goal with
                 | |- only_logs (let '(_, _) := ?x in _) => destruct x
                 end ].
Qed.
End StagesOnlyLog.

(** *** The final record *)

(** Whatever the disk does, the [catch] ends by a throw, with the record
    marked failed and the message of the caught error in it. *)
Lemma on_failure_outcome (w : World) (e : JsError) (s1 : PState) :
  exists e' s2,
    on_failure w e s1 = (Throw e', s2) /\
    status (results s2) = failed /\
    error (results s2) = Some (message e).
Proof.
  destruct (writable s1 resultsFile) eqn:Hfile.
  - rewrite on_failure_run by exact Hfile. eexists _, _. repeat split.
  - rewrite on_failure_blocked by exact Hfile. eexists _, _. repeat split.
Qed.

(** The [try] of a full run returns only [this.results], completed and with
    its outputs, the [error] member being what the stages left. *)
Lemma attempt_outcome (w : World) (this : SpacePipeline) (s : PState) :
  match attempt w this false s with
  | (Ret (Results r), s') =>
      r = results s' /\ status r = completed /\
      (exists o, final_outputs r = Some o) /\
      exists produced s1,
        run_stages this s = (Ret produced, s1) /\ error r = error (results s1)
  | (Ret (Health _), _) => False
  | (Throw _, _) | (Hang, _) => True
  end.
Proof.
  unfold attempt. unfold bind at 1.
  destruct (run_stages this s) as [[[[[script media] audio] video]|e|] s1] eqn:E;
    [|exact I|exact I].
  cbv beta delta [save_results bind modify_results now get_results writeFileSync writable ret]
    iota zeta.
  cbn [results files ticks].
  destruct (files s1 !! resultsFile) as [[| | |]|]; try exact I;
    (split; [reflexivity|]; split; [reflexivity|]; split; [eexists; reflexivity|];
     eexists _, _; split; reflexivity).
Qed.

Lemma attempt_health_outcome (w : World) (this : SpacePipeline) (s : PState) :
  match attempt w this true s with
  | (Ret (Results _), _) => False
  | _ => True
  end.
Proof.
  unfold attempt, healthCheck, bind.
  destruct (this_validateEnvironment this s) as [[b|e|] s1]; exact I.
Qed.

Lemma construct_run (w : World) (s0 : PState) :
  construct w s0 =
    (Ret tt, {| results := {| workflow_id := clock w (ticks s0);
                              start_time := clock w (S (ticks s0));
                              steps := []; status := running; end_time := None;
                              total_duration_seconds := None; final_outputs := None;
                              error := None |};
                files := files s0;
                ticks := S (S (ticks s0)) |}).
Proof. reflexivity. Qed.

(** C7. Whatever the stages are, a run that returns [this.results] returns a
    record whose status is [completed] and whose [final_outputs] is present,
    and a run that ends by a throw leaves a record whose status is [failed]
    and whose [error] is present. For the stages of the second variant, run
    on a freshly constructed pipeline, the completed record has no [error]
    member, and a full run never returns the boolean of the health check. *)
Theorem runPipeline_final_record :
  (forall (w : World) (this : SpacePipeline) (healthCheckOnly : bool) (s : PState),
      match runPipeline w this healthCheckOnly s with
      | (Ret (Results r), s') =>
          r = results s' /\ status r = completed /\ exists o, final_outputs r = Some o
      | (Throw _, s') =>
          status (results s') = failed /\ exists msg, error (results s') = Some msg
      | (Ret (Health _), _) | (Hang, _) => True
      end) /\
  (forall (rt : JsRuntime) (w : World) (s0 : PState),
      match (construct w ;; runPipeline w (SpacePipelineB w) false) s0 with
      | (Ret (Results r), s') =>
          r = results s' /\ status r = completed /\
          (exists o, final_outputs r = Some o) /\ error r = None
      | (Ret (Health _), _) => False
      | (Throw _, s') =>
          status (results s') = failed /\ exists msg, error (results s') = Some msg
      | (Hang, _) => True
      end).
Proof.
  split.
  - intros w this healthCheckOnly s. unfold runPipeline, try_catch.
    destruct healthCheckOnly.
    + pose proof (attempt_health_outcome w this s) as Ha.
      destruct (attempt w this true s) as [[[b|r]|e|] s1]; try exact I; [now destruct Ha|].
      destruct (on_failure_outcome w e s1) as (e' & s2 & -> & Hst & Herr). eauto.
    + pose proof (attempt_outcome w this s) as Ha.
      destruct (attempt w this false s) as [[[b|r]|e|] s1]; try exact I.
      * destruct Ha as (Hr & Hst & Hout & _). auto.
      * destruct (on_failure_outcome w e s1) as (e' & s2 & -> & Hst & Herr). eauto.
  - intros rt w s0. unfold bind at 1. rewrite construct_run.
    set (s := {| results := _; files := files s0; ticks := _ |}).
    unfold runPipeline, try_catch.
    pose proof (attempt_outcome w (SpacePipelineB w) s) as Ha.
    destruct (attempt w (SpacePipelineB w) false s) as [[[b|r]|e|] s1]; try exact Ha.
    + destruct Ha as (Hr & Hst & Hout & produced & s' & Hrun & Herr).
      repeat split; try assumption.
      rewrite Herr.
      pose proof (only_logs_B_run_stages w s) as Hlog. rewrite Hrun in Hlog.
      destruct Hlog as (_ & _ & _ & _ & He & _). exact He.
    + destruct (on_failure_outcome w e s1) as (e' & s2 & -> & Hst & Herr). eauto.
Qed.

(** A run of the second variant with every service down and an empty
    directory completes; the same run with a results file that cannot be
    written fails. Both final records are as the theorem says. *)
Lemma runPipeline_final_record_witness :
  (exists r s',
      (construct offline_world ;;
       runPipeline offline_world (@SpacePipelineB plain_runtime offline_world) false)
        initial_state = (Ret (Results r), s') /\
      status r = completed /\ (exists o, final_outputs r = Some o) /\ error r = None) /\
  (exists e s',
      (construct offline_world ;;
       runPipeline offline_world (@SpacePipelineB plain_runtime offline_world) false)
        blocked_results_state = (Throw e, s') /\
      status (results s') = failed /\ exists msg, error (results s') = Some msg).
Proof.
  split.
  - pose proof (proj2 runPipeline_final_record plain_runtime offline_world initial_state)
      as Hfinal.
    destruct ((construct offline_world ;;
               runPipeline offline_world (@SpacePipelineB plain_runtime offline_world) false)
                initial_state) as [[[b|r]|e|] s'] eqn:Hrun;
      try (vm_compute in Hrun; discriminate).
    exists r, s'. destruct Hfinal as (_ & Hst & Hout & Herr). auto.
  - pose proof (proj2 runPipeline_final_record plain_runtime offline_world
                  blocked_results_state) as Hfinal.
    destruct ((construct offline_world ;;
               runPipeline offline_world (@SpacePipelineB plain_runtime offline_world) false)
                blocked_results_state) as [[[b|r]|e|] s'] eqn:Hrun;
      try (vm_compute in Hrun; discriminate).
    exists e, s'. destruct Hfinal as (Hst & Herr). auto.
Defined.

(** ** The scheduler *)

Section SchedulerFacts.
Context `{JsRuntime}.

Lemma getLastRunInfo_run (s : PState) :
  Scheduler.getLastRunInfo s = (Ret (Scheduler.stored s), s).
Proof.
  unfold Scheduler.getLastRunInfo, Scheduler.stored, try_catch, bind, readFileSync,
    Scheduler.parse_file.
  destruct (files s !! Scheduler.lastRunFile) as [[j|text|text|]|]; try reflexivity;
    destruct (JSON_parse text); reflexivity.
Qed.

Lemma shouldRunNow_run (w : World) (s : PState) :
  exists s', Scheduler.shouldRunNow w s = (Ret (decision w s), s') /\
             files s' = files s /\ results s' = results s.
Proof.
  unfold Scheduler.shouldRunNow, decision. unfold bind at 1.
  rewrite getLastRunInfo_run.
  destruct (truthy (Some (Scheduler.stored s))); simpl.
  - unfold bind, now.
    destruct (Scheduler.less_than _ _ && is_string _ _); eexists; repeat split.
  - eexists; repeat split.
Qed.

(** A document that is falsy has no [status] member. *)
Lemma falsy_has_no_status (j : Json) (text : string) :
  truthy (Some j) = false -> is_string text (member "status" j) = false.
Proof. destruct j; simpl; try discriminate; reflexivity. Qed.
End SchedulerFacts.

Section DecisionFacts.
Context `{JsRuntime}.
Variables (w : World) (s : PState).

Lemma decision_false_iff :
  decision w s = false <->
  exists t,
    is_string "completed" (member "status" (Scheduler.stored s)) = true /\
    Date_getTime (member "timestamp" (Scheduler.stored s)) = Some t /\
    (clock w (ticks s) - t < 2 * 60 * 60 * 1000)%Z.
Proof.
  unfold decision. cbv zeta. rewrite negb_false_iff, !andb_true_iff. split.
  - intros [[_ Hlt] Hst].
    destruct (Date_getTime (member "timestamp" (Scheduler.stored s))) as [t|];
      [|discriminate].
    exists t. repeat split; [exact Hst|].
    simpl in Hlt. apply Z.ltb_lt in Hlt. exact Hlt.
  - intros (t & Hst & Ht & Hlt). repeat split; [| |exact Hst].
    + destruct (truthy (Some (Scheduler.stored s))) eqn:Htruthy; [reflexivity|].
      rewrite (falsy_has_no_status _ "completed" Htruthy) in Hst. discriminate.
    + rewrite Ht. simpl. apply Z.ltb_lt. exact Hlt.
Qed.


End DecisionFacts.





(** *** What the scheduler stores after a run *)

Section ScheduledRunFacts.
Context `{JsRuntime}.
Variables (w : World) (pipeline : SpacePipeline).

(** After a run that returns, [saveLastRun] overwrites [last_run.json]
    with the outcome and a new timestamp. *)
Lemma scheduled_run_that_returns (s s0 s2 : PState) (outcome : PipelineReturn) :
  Scheduler.shouldRunNow w s = (Ret true, s0) ->
  (construct w ;; runPipeline w pipeline false) s0 = (Ret outcome, s2) ->
  writable s2 Scheduler.lastRunFile = true ->
  Scheduler.runScheduledVideoGeneration w pipeline s =
    (Ret tt,
     {| results := results s2;
        files := <[Scheduler.lastRunFile :=
                     JsonDoc (Scheduler.runInfo (clock w (ticks s2)) outcome)]> (files s2);
        ticks := S (ticks s2) |}).
Proof.
  intros Hgo Hrun Hw.
  unfold Scheduler.runScheduledVideoGeneration. unfold bind at 1. rewrite Hgo.
  cbn [negb]. unfold try_catch.
  change (construct w ;; results <- runPipeline w pipeline false ;;
          Scheduler.saveLastRun w results)
    with (construct w ;; (results <- runPipeline w pipeline false ;;
                          Scheduler.saveLastRun w results)).
  unfold bind at 1 in Hrun. unfold bind at 1.
  destruct (construct w s0) as [[[]|e|] s1]; try discriminate.
  unfold bind at 1. rewrite Hrun.
  unfold writable in Hw.
  cbv beta delta [Scheduler.saveLastRun bind now writeFileSync writable] iota zeta.
  cbn [results files ticks]. now rewrite Hw.
Qed.

(** After a run that throws, the scheduler swallows the error and does
    nothing else: the state is the one in which the pipeline threw, and
    [saveLastRun] has not been called. *)
Lemma scheduled_run_that_throws (s s0 s2 : PState) (e : JsError) :
  Scheduler.shouldRunNow w s = (Ret true, s0) ->
  (construct w ;; runPipeline w pipeline false) s0 = (Throw e, s2) ->
  Scheduler.runScheduledVideoGeneration w pipeline s = (Ret tt, s2).
Proof.
  intros Hgo Hrun.
  unfold Scheduler.runScheduledVideoGeneration. unfold bind at 1. rewrite Hgo.
  cbn [negb]. unfold try_catch.
  unfold bind at 1 in Hrun. unfold bind at 1.
  destruct (construct w s0) as [[[]|e0|] s1]; try discriminate.
  - unfold bind at 1. rewrite Hrun. reflexivity.
  - injection Hrun as -> ->. reflexivity.
Qed.
End ScheduledRunFacts.

(** C6, the code against the claim. The last run completed three hours ago
    and [pipeline_results.json] cannot be written: the scheduler invokes the
    pipeline, the run fails (its record has status [failed] and the message of
    the write error), and [last_run.json] still holds the record of three
    hours ago, status [completed], timestamp unchanged. *)
Theorem failed_run_leaves_last_run_stale :
  exists s',
    @Scheduler.runScheduledVideoGeneration plain_runtime offline_world
      (@SpacePipelineB plain_runtime offline_world) blocked_results_state = (Ret tt, s') /\
    status (results s') = failed /\
    error (results s') = Some "EACCES: permission denied" /\
    files s' !! Scheduler.lastRunFile =
      Some (JsonDoc (completed_run_info (sample_clock 0 - 3 * 60 * 60 * 1000))) /\
    files s' !! Scheduler.lastRunFile = files blocked_results_state !! Scheduler.lastRunFile.
Proof.
  eexists. split; [vm_compute; reflexivity|].
  vm_compute. repeat split; reflexivity.
Qed.

(** The same holds when the run fails because a stage raises, here the
    media stage on a sample image that cannot be printed. *)
Lemma stage_failure_leaves_last_run_stale :
  exists s',
    @Scheduler.runScheduledVideoGeneration odd_alt_runtime odd_alt_world
      (@SpacePipelineB odd_alt_runtime odd_alt_world)
      {| results := fresh_record;
         files := {[ Scheduler.lastRunFile :=
                       JsonDoc (completed_run_info (sample_clock 0 - 3 * 60 * 60 * 1000)) ]};
         ticks := 0 |} = (Ret tt, s') /\
    status (results s') = failed /\
    error (results s') = Some "Cannot convert object to primitive value" /\
    files s' !! Scheduler.lastRunFile =
      Some (JsonDoc (completed_run_info (sample_clock 0 - 3 * 60 * 60 * 1000))).
Proof.
  eexists. split; [vm_compute; reflexivity|].
  vm_compute. repeat split; reflexivity.
Qed.

(** By contrast, a run that completes is recorded with its new timestamp. *)
Lemma completed_run_updates_last_run :
  exists s' t,
    @Scheduler.runScheduledVideoGeneration plain_runtime offline_world
      (@SpacePipelineB plain_runtime offline_world) initial_state = (Ret tt, s') /\
    status (results s') = completed /\
    assoc "timestamp"
      (match files s' !! Scheduler.lastRunFile with
       | Some (JsonDoc (JObj fields)) => fields
       | _ => []
       end) = Some (JIso t) /\
    (sample_clock 0 < t)%Z.
Proof.
  eexists _, _. split; [vm_compute; reflexivity|].
  vm_compute. repeat split; reflexivity.
Qed.

(** * Further properties of the sources *)

(** ** Traces *)

Lemma logged_trans (w : World) (s s1 s2 : PState) (l1 l2 : list StepLog) :
  logged w s l1 s1 -> logged w s1 l2 s2 -> logged w s (l1 ++ l2)%list s2.
Proof.
  intros H1 H2. induction H2 as [s1 | s1 l2 s2 _ IH | s1 l2 s2 name ok d _ IH].
  - now rewrite app_nil_r.
  - apply logged_tick. now apply IH.
  - rewrite app_assoc. apply logged_step. now apply IH.
Qed.

(** What a trace leaves as it was, and what it appends. *)
Lemma logged_frame (w : World) (s s' : PState) (entries : list StepLog) :
  logged w s entries s' ->
  steps (results s') = (steps (results s) ++ entries)%list /\
  files s' = files s /\
  workflow_id (results s') = workflow_id (results s) /\
  start_time (results s') = start_time (results s) /\
  untouched s s' /\
  ticks s <= ticks s'.
Proof.
  induction 1 as [s | s l s' _ IH | s l s' name ok d _ IH].
  - rewrite app_nil_r. repeat split; auto.
  - destruct IH as (Hsteps & Hfiles & Hid & Hstart & Hun & Hticks).
    unfold untouched in *. cbn [tick results files ticks]. repeat split; try tauto. lia.
  - destruct IH as (Hsteps & Hfiles & Hid & Hstart & Hun & Hticks).
    unfold untouched in *. cbn [after_step push_step results files ticks steps status
      end_time total_duration_seconds final_outputs error workflow_id start_time].
    rewrite Hsteps, app_assoc. repeat split; try tauto. lia.
Qed.

Lemma Sorted_snoc (l : list Z) (y : Z) :
  Sorted Z.le l -> Forall (fun x => (x <= y)%Z) l -> Sorted Z.le (l ++ [y]).
Proof.
  induction l as [|x l IH]; intros Hs Hall; simpl.
  - repeat constructor.
  - inversion Hs as [|? ? Hs' Hhd]; subst. inversion Hall as [|? ? Hx Hall']; subst.
    constructor; [now apply IH|].
    destruct l as [|z l]; simpl; constructor; [exact Hx | now inversion Hhd].
Qed.

(** With a clock that never runs backwards, the steps of a trace are
    stamped in order, between the first and the last reading. *)
Lemma logged_timestamps (w : World) (s s' : PState) (entries : list StepLog) :
  monotone_clock w ->
  logged w s entries s' ->
  Sorted Z.le (map timestamp entries) /\
  Forall (fun t => (clock w (ticks s) <= t <= clock w (ticks s'))%Z) (map timestamp entries).
Proof.
  intros Hmono. induction 1 as [s | s l s' Hl IH | s l s' name ok d Hl IH].
  - split; constructor.
  - destruct IH as [Hs Hall]. split; [exact Hs|].
    eapply Forall_impl; [exact Hall|]. cbn [tick ticks]. intros t [Hlo Hhi].
    split; [exact Hlo|]. specialize (Hmono (ticks s') (S (ticks s'))). lia.
  - destruct IH as [Hs Hall].
    pose proof (logged_frame w s s' l Hl) as (_ & _ & _ & _ & _ & Hticks).
    rewrite map_app. cbn [map timestamp after_step ticks]. split.
    + apply Sorted_snoc; [exact Hs|].
      eapply Forall_impl; [exact Hall|]. intros t [_ Hhi]. exact Hhi.
    + apply Forall_app. split.
      * eapply Forall_impl; [exact Hall|]. intros t [Hlo Hhi]. split; [exact Hlo|].
        specialize (Hmono (ticks s') (S (ticks s'))). lia.
      * constructor; [|constructor]. split.
        -- apply Hmono. exact Hticks.
        -- apply Hmono. lia.
Qed.

(** *** Rules *)

Lemma traced_weaken {A} (w : World) (c : M A) (P Q : Outcome A -> list StepLog -> Prop) :
  (forall o l, P o l -> Q o l) -> traced w c P -> traced w c Q.
Proof. intros HPQ Hc s. destruct (Hc s) as (l & Hl & HP). eauto. Qed.

Lemma traced_ret {A} (w : World) (a : A) (Q : Outcome A -> list StepLog -> Prop) :
  Q (Ret a) [] -> traced w (ret a) Q.
Proof. intros HQ s. exists []. split; [constructor | exact HQ]. Qed.

Lemma traced_throw {A} (w : World) (e : JsError) (Q : Outcome A -> list StepLog -> Prop) :
  Q (Throw e) [] -> traced w (throw e) Q.
Proof. intros HQ s. exists []. split; [constructor | exact HQ]. Qed.

Lemma traced_await (w : World) (p : Promise) (Q : Outcome HttpResult -> list StepLog -> Prop) :
  (forall o, Q o []) -> traced w (await p) Q.
Proof. intros HQ s. exists []. split; [destruct p; constructor | apply HQ]. Qed.

Lemma traced_now (w : World) (Q : Outcome Z -> list StepLog -> Prop) :
  (forall t, Q (Ret t) []) -> traced w (now w) Q.
Proof.
  intros HQ s. exists []. split; [|apply HQ].
  apply (logged_tick w s [] s). constructor.
Qed.

Lemma prints_or_not (d : list (string * Json)) : prints d \/ ~ prints d.
Proof. unfold prints. destruct (forallb _ d); [left | right]; congruence. Qed.

(** [logStep] logs its step, and throws after it when a value of the
    details cannot be printed. *)
Lemma traced_logStep (w : World) (name : string) (ok : bool) (d : list (string * Json))
    (Q : Outcome unit -> list StepLog -> Prop) :
  (forall t, prints d ->
     Q (Ret tt) [ {| step := name; timestamp := t; success := ok; details := d |} ]) ->
  (forall t, ~ prints d ->
     Q (Throw print_error)
       [ {| step := name; timestamp := t; success := ok; details := d |} ]) ->
  traced w (logStep w name ok d) Q.
Proof.
  intros HQ Hthrow s. destruct (prints_or_not d) as [Hd | Hd].
  - rewrite logStep_run by exact Hd. eexists. split; [|now apply HQ].
    apply (logged_step w s [] s). constructor.
  - rewrite logStep_throws by exact Hd. eexists. split; [|now apply Hthrow].
    apply (logged_step w s [] s). constructor.
Qed.

Lemma traced_bind {A B} (w : World) (c : M A) (k : A -> M B)
    (P : Outcome A -> list StepLog -> Prop) (Q : Outcome B -> list StepLog -> Prop) :
  traced w c P ->
  (forall a l1, P (Ret a) l1 -> traced w (k a) (fun o l2 => Q o (l1 ++ l2)%list)) ->
  (forall e l, P (Throw e) l -> Q (Throw e) l) ->
  (forall l, P Hang l -> Q Hang l) ->
  traced w (bind c k) Q.
Proof.
  intros Hc Hk Hthrow Hhang s. unfold bind.
  destruct (Hc s) as (l1 & Hl1 & HP).
  destruct (c s) as [[a|e|] s1]; cbn [fst snd] in *.
  - destruct (Hk a l1 HP s1) as (l2 & Hl2 & HQ).
    exists (l1 ++ l2)%list. split; [eapply logged_trans; eassumption | exact HQ].
  - exists l1. split; [exact Hl1 | now apply Hthrow].
  - exists l1. split; [exact Hl1 | now apply Hhang].
Qed.

Lemma traced_try_catch {A} (w : World) (c : M A) (h : JsError -> M A)
    (P Q : Outcome A -> list StepLog -> Prop) :
  traced w c P ->
  (forall e l1, P (Throw e) l1 -> traced w (h e) (fun o l2 => Q o (l1 ++ l2)%list)) ->
  (forall a l, P (Ret a) l -> Q (Ret a) l) ->
  (forall l, P Hang l -> Q Hang l) ->
  traced w (try_catch c h) Q.
Proof.
  intros Hc Hh Hret Hhang s. unfold try_catch.
  destruct (Hc s) as (l1 & Hl1 & HP).
  destruct (c s) as [[a|e|] s1]; cbn [fst snd] in *.
  - exists l1. split; [exact Hl1 | now apply Hret].
  - destruct (Hh e l1 HP s1) as (l2 & Hl2 & HQ).
    exists (l1 ++ l2)%list. split; [eapply logged_trans; eassumption | exact HQ].
  - exists l1. split; [exact Hl1 | now apply Hhang].
Qed.

Lemma traced_bind_silent {A B} (w : World) (c : M A) (k : A -> M B)
    (Q : Outcome B -> list StepLog -> Prop) :
  traced w c silent ->
  (forall a, traced w (k a) Q) ->
  (forall e, Q (Throw e) []) ->
  Q Hang [] ->
  traced w (bind c k) Q.
Proof.
  intros Hc Hk Hthrow Hhang.
  apply (traced_bind w c k silent Q Hc).
  - intros a l1 ->. apply Hk.
  - intros e l ->. apply Hthrow.
  - intros l ->. exact Hhang.
Qed.

Lemma traced_bind_total {A B} (w : World) (c : M A) (k : A -> M B)
    (Q : Outcome B -> list StepLog -> Prop) :
  traced w c (fun o l => l = [] /\ exists a, o = Ret a) ->
  (forall a, traced w (k a) Q) ->
  traced w (bind c k) Q.
Proof.
  intros Hc Hk.
  apply (traced_bind w c k _ Q Hc).
  - intros a l1 [-> _]. apply Hk.
  - intros e l [_ [a [=]]].
  - intros l [_ [a [=]]].
Qed.

Lemma traced_log_or_throw {A} (w : World) (name : string) (ok : bool)
    (d : list (string * Json)) (v : A) (Q : Outcome A -> list StepLog -> Prop) :
  (forall t, prints d ->
     Q (Ret v) [ {| step := name; timestamp := t; success := ok; details := d |} ]) ->
  (forall t, ~ prints d ->
     Q (Throw print_error)
       [ {| step := name; timestamp := t; success := ok; details := d |} ]) ->
  traced w (logStep w name ok d ;; ret v) Q.
Proof.
  intros HQ Hthrow s. unfold bind. destruct (prints_or_not d) as [Hd | Hd].
  - rewrite logStep_run by exact Hd. eexists. split; [|now apply HQ].
    apply (logged_step w s [] s). constructor.
  - rewrite logStep_throws by exact Hd. eexists. split; [|now apply Hthrow].
    apply (logged_step w s [] s). constructor.
Qed.

Lemma traced_log_then_ret {A} (w : World) (name : string) (ok : bool)
    (d : list (string * Json)) (v : A) (Q : Outcome A -> list StepLog -> Prop) :
  prints d ->
  (forall t, Q (Ret v) [ {| step := name; timestamp := t; success := ok; details := d |} ]) ->
  traced w (logStep w name ok d ;; ret v) Q.
Proof.
  intros Hd HQ. apply traced_log_or_throw; [intros t _; apply HQ | intros t Hn].
  now destruct Hn.
Qed.

(** ** The stages of the second variant, one by one *)

Section StageTraces.
Context `{JsRuntime}.
Variable w : World.

Lemma traced_B_makeHttpRequest (url : string) :
  traced w (PipelineB.makeHttpRequest w url) silent.
Proof. apply traced_await. reflexivity. Qed.

Lemma traced_A_makeHttpRequest (url : string) :
  traced w (PipelineA.makeHttpRequest w url) silent.
Proof. apply traced_await. reflexivity. Qed.

Lemma traced_B_convert_item (item : Json) :
  traced w (PipelineB.convert_item w item) silent.
Proof.
  unfold PipelineB.convert_item.
  destruct (prop "headline_title" (Some item)); [|now apply traced_throw].
  apply traced_bind_silent; try reflexivity.
  - destruct (truthy (member "published" item)).
    + now apply traced_ret.
    + apply traced_bind_silent; try reflexivity.
      * now apply traced_now.
      * intros t. now apply traced_ret.
  - intros p. now apply traced_ret.
Qed.

Lemma traced_B_map_items (items : list Json) :
  traced w (PipelineB.map_items w items) silent.
Proof.
  induction items as [|item items IH]; simpl; [now apply traced_ret|].
  apply traced_bind_silent; try reflexivity; [apply traced_B_convert_item|].
  intros a. apply traced_bind_silent; try reflexivity; [exact IH|].
  intros l. now apply traced_ret.
Qed.

Lemma traced_B_news_from_service :
  traced w (PipelineB.news_from_service w) service_post.
Proof.
  unfold PipelineB.news_from_service.
  apply traced_bind_silent; try reflexivity; [apply traced_B_makeHttpRequest|].
  intros response.
  destruct (is_200 (status_code response)); [|now apply traced_ret].
  destruct (prop "status" (Some (data response))) as [st|e]; [|now apply traced_throw].
  destruct (is_string "success" st); [|now apply traced_ret].
  destruct (or_else (member "data" (data response)) (JArr [])) as [| | | | |realNews|];
    try (now apply traced_throw).
  apply traced_bind_silent; try reflexivity; [apply traced_B_map_items|].
  intros converted. cbv zeta.
  apply traced_log_then_ret; [details_print|]. intros t. simpl.
  split; [apply firstn_le_length|].
  eexists. repeat split.
Qed.

Lemma traced_validateEnvironment :
  traced w (validateEnvironment w) (one_step "Environment Validation"
                                      (fun valid entry => success entry = valid)).
Proof.
  unfold validateEnvironment. cbv zeta.
  apply traced_log_then_ret; [details_print|]. intros t. simpl. eexists. repeat split.
Qed.

Lemma traced_generateScript (articles : list Article) :
  traced w (generateScript w articles)
    (one_step "Script Generation"
       (fun script entry => success entry = true /\ script = assemble_script w articles)).
Proof.
  intros s. eexists. split.
  - rewrite generateScript_run. apply (logged_step w s [] s). constructor.
  - rewrite generateScript_run. simpl. eexists. repeat split.
Qed.

Lemma traced_generateTTS (script : string) :
  traced w (generateTTS w script)
    (one_step "TTS Generation"
       (fun audio entry => success entry = true /\
                           audio_duration audio = estimatedDuration script)).
Proof.
  unfold generateTTS. cbv zeta.
  apply traced_log_then_ret; [details_print|]. intros t. simpl. eexists. repeat split.
Qed.

Lemma traced_produceVideo (script : string) (media : list MediaItem) (audio : Audio) :
  traced w (produceVideo w script media audio)
    (one_step "Video Production"
       (fun video entry =>
          success entry = true /\
          video_duration video = audio_duration audio /\
          video_file video = "output/space_news_video.mp4" /\
          video_url video = "https://example.com/space_news_video.mp4" /\
          assoc "images_used" (details entry) = Some (JCount (length media)))).
Proof.
  unfold produceVideo. cbv zeta.
  apply traced_log_then_ret; [details_print|]. intros t. simpl. eexists. repeat split.
Qed.

Lemma traced_B_collectNews :
  traced w (PipelineB.collectNews w)
    (one_step "News Collection"
       (fun articles entry => success entry = true /\ length articles <= 5)).
Proof.
  unfold PipelineB.collectNews.
  eapply traced_bind.
  - eapply (traced_try_catch w _ _ service_post
              (fun o l => service_post o l /\ forall e, o <> Throw e)).
    + apply traced_B_news_from_service.
    + intros e l1 ->. apply traced_ret. split; [reflexivity | discriminate].
    + intros a l Hp. split; [exact Hp | discriminate].
    + intros l Hp. split; [exact Hp | discriminate].
  - intros [articles|] l1 [Hp _]; simpl in Hp.
    + destruct Hp as (Hlen & entry & -> & Hname & Hok).
      apply traced_ret. simpl. exists entry. auto.
    + subst l1.
      apply traced_bind_total.
      * intros s. exists []. split; [|split; [reflexivity | eexists; reflexivity]].
        apply (logged_tick w s [] (tick (tick s))), (logged_tick w s [] (tick s)),
          (logged_tick w s [] s). constructor.
      * intros fallback. cbv zeta.
        apply traced_log_then_ret; [details_print|]. intros t. simpl. eexists.
        repeat split.
        apply firstn_le_length.
  - intros e l [_ Hne]. now destruct (Hne e).
  - intros l [Hp _]. exact Hp.
Qed.
End StageTraces.

Section MediaTrace.
Context `{JsRuntime}.
Variable w : World.

(** The Pexels block of the second variant leaves the state as it is. *)
Lemma B_collect_real_state (s : PState) : snd (PipelineB.collect_real w s) = s.
Proof.
  unfold PipelineB.collect_real.
  destruct (nonempty (pexels_api_key w) && negb (String.eqb (pexels_api_key w) ""));
    [|reflexivity].
  unfold try_catch, bind, PipelineB.makeHttpRequest, await.
  destruct (promise (PipelineB.deliver (network w PipelineB.pexelsUrl))); reflexivity.
Qed.

Lemma pad_length (flag : bool) (mediaItems : list MediaItem) :
  5 <= length (PipelineB.pad flag mediaItems).
Proof.
  rewrite pad_appends, length_app.
  destruct (Nat.ltb_spec (length mediaItems) 5); [|lia].
  destruct (padding_is_fallback flag) as [-> _]. lia.
Qed.

Lemma count_source_app (name : string) (a b : list MediaItem) :
  count_source name (a ++ b) = count_source name a + count_source name b.
Proof. unfold count_source. now rewrite List.filter_app, length_app. Qed.

Lemma filter_all {A} (f : A -> bool) (l : list A) :
  Forall (fun x => f x = true) l -> List.filter f l = l.
Proof.
  induction 1 as [|x l Hx _ IH]; simpl; [reflexivity|]. now rewrite Hx, IH.
Qed.

Lemma filter_none {A} (f : A -> bool) (l : list A) :
  Forall (fun x => f x = false) l -> List.filter f l = [].
Proof.
  induction 1 as [|x l Hx _ IH]; simpl; [reflexivity|]. now rewrite Hx, IH.
Qed.

(** What [collectMedia] of the second variant does, in one equation: the
    Pexels block, the padding, one step, and the printing of the step. *)
Lemma B_collectMedia_run (s : PState) :
  match PipelineB.collect_real w s with
  | (Ret (real, flag), _) =>
      Forall (fun m => media_source m = "pexels") real /\
      exists d,
        PipelineB.collectMedia w s =
          (if printable (sample_image (PipelineB.pad flag real))
           then Ret (PipelineB.pad flag real) else Throw print_error,
           after_step w "Media Collection" true d s) /\
        (prints d <-> printable (sample_image (PipelineB.pad flag real)) = true) /\
        assoc "total_images" d = Some (JCount (length (PipelineB.pad flag real))) /\
        assoc "pexels_count" d = Some (JCount (count_source "pexels" (PipelineB.pad flag real))) /\
        assoc "simulated_count" d =
          Some (JCount (length (List.filter
                  (fun item => String.eqb (media_source item) "simulated" ||
                               String.eqb (media_source item) "curated")
                  (PipelineB.pad flag real)))) /\
        assoc "api_calls_successful" d =
          Some (JStr (if flag then "partial" else "offline_mode")) /\
        assoc "sample_image" d = Some (sample_image (PipelineB.pad flag real))
  | (Throw _, _) => False
  | (Hang, _) => PipelineB.collectMedia w s = (Hang, s)
  end.
Proof.
  pose proof (B_collect_real_run w s) as Hreal.
  pose proof (B_collect_real_state s) as Hstate.
  unfold PipelineB.collectMedia, bind.
  destruct (PipelineB.collect_real w s) as [[[real flag]|e|] s1]; cbn [snd] in Hstate;
    subst s1; [|exact Hreal|reflexivity].
  destruct Hreal as [_ Hpexels]. split; [exact Hpexels|].
  cbv zeta. cbn [fst snd].
  destruct (printable (sample_image (PipelineB.pad flag real))) eqn:Hp.
  - rewrite logStep_run by media_details_print Hp. cbn [fst snd ret].
    eexists. split; [reflexivity|]. split; [|repeat split].
    split; [reflexivity|]. intros _. media_details_print Hp.
  - rewrite logStep_throws by media_details_print Hp.
    eexists. split; [reflexivity|]. split; [|repeat split].
    split; [|discriminate]. intros Hd. exfalso. revert Hd. media_details_print Hp.
Qed.

Lemma traced_B_collectMedia :
  traced w (PipelineB.collectMedia w)
    (step_then_print "Media Collection"
       (fun media entry => success entry = true /\ 5 <= length media)).
Proof.
  intros s. pose proof (B_collectMedia_run s) as Hrun.
  destruct (PipelineB.collect_real w s) as [[[real flag]|e|] s1]; [| now destruct Hrun |].
  - destruct Hrun as (_ & d & -> & Hd & _). eexists. split.
    + apply (logged_step w s [] s). constructor.
    + cbn [fst]. destruct (printable (sample_image (PipelineB.pad flag real))).
      * simpl. eexists. repeat split. apply pad_length.
      * simpl. split; [reflexivity|]. eexists. repeat split.
        intros Hp. apply Hd in Hp. discriminate.
  - rewrite Hrun. exists []. split; [constructor | reflexivity].
Qed.

(** The six stages of the second variant, run in their order. *)
Lemma traced_B_run_stages :
  traced w (run_stages (SpacePipelineB w)) (stages_post w).
Proof.
  unfold run_stages.
  cbn [SpacePipelineB this_validateEnvironment this_collectNews this_generateScript
       this_collectMedia this_generateTTS this_produceVideo].
  eapply traced_bind; [apply traced_validateEnvironment | | intros e l [] | intros l _; exact I].
  intros envValid l1 (e1 & -> & Hn1 & _).
  eapply traced_bind; [apply traced_B_collectNews | | intros e l [] | intros l _; exact I].
  intros articles l2 (e2 & -> & Hn2 & Hok2 & Hlen).
  eapply traced_bind; [apply traced_generateScript | | intros e l [] | intros l _; exact I].
  intros script l3 (e3 & -> & Hn3 & Hok3 & Hscript).
  eapply traced_bind; [apply traced_B_collectMedia | | | intros l _; exact I].
  2:{ intros e l (-> & e4 & -> & Hn4 & Hprint). simpl. rewrite Hn1, Hn2, Hn3, Hn4.
      split; [reflexivity|]. split; [reflexivity|]. now exists e4. }
  intros media l4 (e4 & -> & Hn4 & Hok4 & Hmedia).
  eapply traced_bind; [apply traced_generateTTS | | intros e l [] | intros l _; exact I].
  intros audio l5 (e5 & -> & Hn5 & Hok5 & Haudio).
  eapply traced_bind; [apply traced_produceVideo | | intros e l [] | intros l _; exact I].
  intros video l6 (e6 & -> & Hn6 & Hok6 & Hdur & Hfile & Hurl & _).
  apply traced_ret. simpl. rewrite Hn1, Hn2, Hn3, Hn4, Hn5, Hn6.
  split; [reflexivity|]. split; [repeat constructor; assumption|].
  split; [eauto|]. repeat split; try assumption. congruence.
Qed.
End MediaTrace.

(** ** A full run, once its stages have returned *)

Section AfterStages.
Variables (w : World) (this : SpacePipeline).

(** The results file can be written: the run returns the completed record
    and the file holds it. *)
Lemma attempt_writes (s s1 : PState) (produced : string * list MediaItem * Audio * Video) :
  run_stages this s = (Ret produced, s1) ->
  writable s1 resultsFile = true ->
  runPipeline w this false s =
    (Ret (Results (completed_record w s1 produced)),
     {| results := completed_record w s1 produced;
        files := <[resultsFile := JsonDoc (RunRecord_to_json (completed_record w s1 produced))]>
                   (files s1);
        ticks := S (ticks s1) |}).
Proof.
  intros Hrun Hw. destruct produced as [[[script media] audio] video].
  unfold writable in Hw.
  unfold runPipeline, try_catch, attempt. unfold bind at 1. rewrite Hrun.
  cbv beta delta [save_results bind modify_results now get_results writeFileSync writable ret
                  completed_record] iota zeta.
  cbn [results files ticks]. now rewrite Hw.
Qed.

(** The results file cannot be written: the write of the [try] throws, the
    [catch] marks the completed record as failed, logs its step, and its own
    write throws again. *)
Lemma attempt_blocked (s s1 : PState) (produced : string * list MediaItem * Audio * Video) :
  run_stages this s = (Ret produced, s1) ->
  writable s1 resultsFile = false ->
  runPipeline w this false s =
    (Throw write_error,
     {| results := push_step (failure_step (clock w (S (ticks s1))) (message write_error))
                     (set_failed (message write_error) (completed_record w s1 produced));
        files := files s1;
        ticks := S (S (ticks s1)) |}).
Proof.
  intros Hrun Hblocked. destruct produced as [[[script media] audio] video].
  unfold writable in Hblocked.
  unfold runPipeline, try_catch, attempt. unfold bind at 1. rewrite Hrun.
  cbv beta delta [save_results bind modify_results now get_results writeFileSync writable ret
                  completed_record on_failure logStep print_details forallb snd printable
                  andb throw] iota zeta.
  cbn [results files ticks]. rewrite Hblocked.
  cbv beta delta [on_failure save_results bind modify_results now get_results writeFileSync
                  writable logStep print_details forallb snd printable andb throw ret]
    iota zeta.
  cbn [results files ticks]. rewrite Hblocked. reflexivity.
Qed.

(** A stage throws: the run is what the [catch] makes of the error. *)
Lemma attempt_raises (s s1 : PState) (e : JsError) :
  run_stages this s = (Throw e, s1) ->
  runPipeline w this false s = on_failure w e s1.
Proof.
  intros Hrun. unfold runPipeline, try_catch, attempt. unfold bind at 1. now rewrite Hrun.
Qed.

(** A run whose stages throw does not return. *)
Lemma attempt_raises_no_return (s s1 s' : PState) (e : JsError) (v : PipelineReturn) :
  run_stages this s = (Throw e, s1) ->
  runPipeline w this false s <> (Ret v, s').
Proof.
  intros Hrun. rewrite (attempt_raises s s1 e Hrun).
  destruct (on_failure_outcome w e s1) as (e' & s2 & -> & _). discriminate.
Qed.

(** A run whose stages return while the results file cannot be written
    does not return. *)
Lemma attempt_blocked_no_return (s s1 s' : PState)
    (produced : string * list MediaItem * Audio * Video) (v : PipelineReturn) :
  run_stages this s = (Ret produced, s1) ->
  writable s1 resultsFile = false ->
  runPipeline w this false s <> (Ret v, s').
Proof. intros Hrun Hw. rewrite (attempt_blocked s s1 produced Hrun Hw). discriminate. Qed.

(** A run that returns the record: its stages returned, the results file
    could be written, and the record is the completed one. *)
Lemma returned_record (s s' : PState) (r : RunRecord) :
  runPipeline w this false s = (Ret (Results r), s') ->
  exists produced s1,
    run_stages this s = (Ret produced, s1) /\
    writable s1 resultsFile = true /\
    r = completed_record w s1 produced /\
    s' = {| results := r;
            files := <[resultsFile := JsonDoc (RunRecord_to_json r)]> (files s1);
            ticks := S (ticks s1) |}.
Proof.
  intros Hret.
  destruct (run_stages this s) as [[produced|e|] s1] eqn:Hrun.
  - destruct (writable s1 resultsFile) eqn:Hw.
    + rewrite (attempt_writes s s1 produced Hrun Hw) in Hret.
      injection Hret as <- <-. now exists produced, s1.
    + now destruct (attempt_blocked_no_return s s1 s' produced (Results r) Hrun Hw).
  - now destruct (attempt_raises_no_return s s1 s' e (Results r) Hrun).
  - unfold runPipeline, try_catch, attempt in Hret. unfold bind at 1 in Hret.
    rewrite Hrun in Hret. discriminate.
Qed.
End AfterStages.

Lemma writable_files (s s' : PState) (path : string) :
  files s' = files s -> writable s' path = writable s path.
Proof. intros Hfiles. unfold writable. now rewrite Hfiles. Qed.

(** ** The second variant, run as a whole *)

(** How a run ends, given what its stages did: they returned after six
    steps, or threw a print error after four. *)
Lemma run_outcomes_of_stages (w : World) (this : SpacePipeline) (s : PState)
    (l : list StepLog) :
  logged w s l (snd (run_stages this s)) ->
  match fst (run_stages this s) with
  | Ret _ => map step l = stage_names
  | Throw e =>
      e = print_error /\
      map step l = firstn 4 stage_names /\
      exists entry, last l = Some entry /\ ~ prints (details entry)
  | Hang => True
  end ->
  match runPipeline w this false s with
  | (Ret (Results r), s') =>
      writable s resultsFile = true /\
      r = results s' /\
      status r = completed /\
      map step (steps r) = (map step (steps (results s)) ++ stage_names)%list /\
      files s' = <[resultsFile := JsonDoc (RunRecord_to_json r)]> (files s) /\
      member "status" (RunRecord_to_json r) = Some (JStr "completed")
  | (Ret (Health _), _) => False
  | (Throw e, s') =>
      status (results s') = failed /\
      (exists done,
         map step (steps (results s')) =
           (map step (steps (results s)) ++ done ++ ["Pipeline Execution"])%list /\
         (done = stage_names /\ writable s resultsFile = false \/
          done = firstn 4 stage_names /\
          error (results s') = Some (message print_error) /\
          exists entry, nth_error (steps (results s')) (length (steps (results s)) + 3)
                          = Some entry /\ ~ prints (details entry))) /\
      if writable s resultsFile
      then e = print_error /\
           files s' = <[resultsFile := JsonDoc (RunRecord_to_json (results s'))]> (files s) /\
           member "status" (RunRecord_to_json (results s')) = Some (JStr "failed") /\
           member "error" (RunRecord_to_json (results s')) = Some (JStr (message e))
      else files s' = files s /\
           writeFileSync resultsFile (JsonDoc (RunRecord_to_json (results s'))) s' =
             (Throw e, s')
  | (Hang, _) => True
  end.
Proof.
  intros Hl Hpost.
  destruct (logged_frame w s _ l Hl) as (Hsteps & Hfiles & _).
  destruct (run_stages this s) as [[produced|e|] s1] eqn:Hrun;
    cbn [fst snd] in Hl, Hpost, Hsteps, Hfiles.
  - pose proof (writable_files s s1 resultsFile Hfiles) as Hwr.
    destruct produced as [[[script media] audio] video].
    rename Hpost into Hnames.
    destruct (writable s resultsFile) eqn:Hfile.
    + rewrite (attempt_writes w _ s s1 _ Hrun Hwr). rewrite <- Hfiles.
      split; [reflexivity|]. split; [reflexivity|]. split; [reflexivity|].
      split; [|split; [reflexivity|]].
      * cbn [steps completed_record set_completed]. now rewrite Hsteps, map_app, Hnames.
      * match goal with |- context [RunRecord_to_json ?r] =>
          destruct (RunRecord_to_json_members r) as (-> & _) end.
        reflexivity.
    + rewrite (attempt_blocked w _ s s1 _ Hrun Hwr). cbn [results files].
      split; [reflexivity|]. split.
      * exists stage_names. split; [|now left].
        cbn [results steps push_step set_failed completed_record set_completed].
        rewrite Hsteps, !map_app, Hnames, <- app_assoc. reflexivity.
      * split; [exact Hfiles|].
        unfold writeFileSync, writable. cbn [files].
        unfold writable in Hwr. now rewrite Hwr.
  - pose proof (writable_files s s1 resultsFile Hfiles) as Hwr.
    destruct Hpost as (-> & Hnames & entry & Hlast & Hprint).
    rewrite (attempt_raises w _ s s1 _ Hrun).
    assert (Hdone : forall r,
              steps r = steps (results s1) ->
              map step (steps (push_step (failure_step (clock w (ticks s1))
                                            (message print_error)) r)) =
                (map step (steps (results s)) ++ firstn 4 stage_names ++
                 ["Pipeline Execution"])%list /\
              exists entry,
                nth_error (steps (push_step (failure_step (clock w (ticks s1))
                                               (message print_error)) r))
                  (length (steps (results s)) + 3) = Some entry /\
                ~ prints (details entry)).
    { intros r Hr. cbn [steps push_step]. rewrite Hr, Hsteps. split.
      - rewrite !map_app, Hnames, <- app_assoc. reflexivity.
      - exists entry. split; [|exact Hprint].
        assert (Hlen : length l = 4) by (rewrite <- (length_map step), Hnames; reflexivity).
        destruct l as [|a [|b [|c [|d [|x l]]]]]; try discriminate.
        cbn [last] in Hlast. injection Hlast as <-.
        rewrite <- List.app_assoc, nth_error_app2 by lia.
        replace (length (steps (results s)) + 3 - length (steps (results s))) with 3 by lia.
        reflexivity. }
    destruct (writable s resultsFile) eqn:Hfile.
    + rewrite (on_failure_run w _ s1 Hwr). cbn [results files].
      destruct (Hdone (set_failed (message print_error) (results s1)) eq_refl)
        as (Hmap & Hentry).
      split; [reflexivity|]. split.
      * exists (firstn 4 stage_names). split; [exact Hmap|]. right.
        split; [reflexivity|]. split; [reflexivity | exact Hentry].
      * rewrite <- Hfiles. split; [reflexivity|]. split; [reflexivity|].
        match goal with |- context [RunRecord_to_json ?r] =>
          destruct (RunRecord_to_json_members r) as (-> & -> & _) end.
        split; reflexivity.
    + rewrite (on_failure_blocked w _ s1 Hwr). cbn [results files].
      destruct (Hdone (set_failed (message print_error) (results s1)) eq_refl)
        as (Hmap & Hentry).
      split; [reflexivity|]. split.
      * exists (firstn 4 stage_names). split; [exact Hmap|]. right.
        split; [reflexivity|]. split; [reflexivity | exact Hentry].
      * split; [exact Hfiles|].
        unfold writeFileSync, writable. cbn [files].
        unfold writable in Hwr. now rewrite Hwr.
  - unfold runPipeline, try_catch, attempt. unfold bind at 1. now rewrite Hrun.
Qed.

(** X1. How a full run of the second variant ends, the items of the news
    service being plain. If it returns, the results file could be written:
    it returns [this.results], completed, with the six stage steps appended
    in the order of the stages, and the results file holds that record.
    If it throws, the record is marked failed and its last step is
    [Pipeline Execution], after the six stage steps when the cause is the
    results file, which cannot be written, and after the first four when the
    cause is the media stage, which logged a sample image that cannot be
    printed. In either case a results file that can be written holds the
    failed record and the error thrown is the one of the stage; one that
    cannot be written leaves every file as it was and the error thrown is the
    one of the write. *)
Theorem B_run_outcomes (rt : JsRuntime) (w : World) (s : PState) :
  plain_news w ->
  match runPipeline w (SpacePipelineB w) false s with
  | (Ret (Results r), s') =>
      writable s resultsFile = true /\
      r = results s' /\
      status r = completed /\
      map step (steps r) = (map step (steps (results s)) ++ stage_names)%list /\
      files s' = <[resultsFile := JsonDoc (RunRecord_to_json r)]> (files s) /\
      member "status" (RunRecord_to_json r) = Some (JStr "completed")
  | (Ret (Health _), _) => False
  | (Throw e, s') =>
      status (results s') = failed /\
      (exists done,
         map step (steps (results s')) =
           (map step (steps (results s)) ++ done ++ ["Pipeline Execution"])%list /\
         (done = stage_names /\ writable s resultsFile = false \/
          done = firstn 4 stage_names /\
          error (results s') = Some (message print_error) /\
          exists entry, nth_error (steps (results s')) (length (steps (results s)) + 3)
                          = Some entry /\ ~ prints (details entry))) /\
      if writable s resultsFile
      then e = print_error /\
           files s' = <[resultsFile := JsonDoc (RunRecord_to_json (results s'))]> (files s) /\
           member "status" (RunRecord_to_json (results s')) = Some (JStr "failed") /\
           member "error" (RunRecord_to_json (results s')) = Some (JStr (message e))
      else files s' = files s /\
           writeFileSync resultsFile (JsonDoc (RunRecord_to_json (results s'))) s' =
             (Throw e, s')
  | (Hang, _) => True
  end.
Proof.
  intros _.
  destruct (traced_B_run_stages w s) as (l & Hl & Hpost).
  apply (run_outcomes_of_stages w _ s l Hl).
  destruct (run_stages (SpacePipelineB w) s) as [[[[[script media] audio] video]|e|] s1];
    cbn [fst] in *; [exact (proj1 Hpost) | exact Hpost | exact I].
Qed.

(** The news service sends two plain items, no credential is set: the run
    completes, and the results file holds the completed record. *)
Lemma B_run_outcomes_witness :
  @plain_news (answering_runtime "{..}" two_items_answer) (service_world "{..}") /\
  exists r s',
    runPipeline (service_world "{..}")
      (@SpacePipelineB (answering_runtime "{..}" two_items_answer) (service_world "{..}"))
      false initial_state = (Ret (Results r), s') /\
    status r = completed /\
    map step (steps r) = stage_names /\
    files s' !! resultsFile = Some (JsonDoc (RunRecord_to_json r)).
Proof.
  assert (Hplain : @plain_news (answering_runtime "{..}" two_items_answer)
                     (service_world "{..}")).
  { intros v items [Hv _] Hitems. vm_compute in Hv. injection Hv as <-.
    vm_compute in Hitems. injection Hitems as <-.
    repeat constructor. }
  split; [exact Hplain|].
  pose proof (B_run_outcomes (answering_runtime "{..}" two_items_answer)
                (service_world "{..}") initial_state Hplain) as Hout.
  destruct (runPipeline (service_world "{..}")
              (@SpacePipelineB (answering_runtime "{..}" two_items_answer)
                 (service_world "{..}")) false initial_state)
    as [[[b|r]|e|] s'] eqn:Hrun; try (vm_compute in Hrun; discriminate).
  destruct Hout as (_ & _ & Hst & Hnames & Hfiles & _).
  exists r, s'. split; [reflexivity|]. split; [exact Hst|]. split; [exact Hnames|].
  rewrite Hfiles. apply lookup_insert_eq.
Defined.

(** X2. The record that a full run of the second variant returns holds, in
    [final_outputs], a script assembled from at most five articles, a media
    count of at least 5, the fixed video file and URL, and an audio duration
    that is the estimate of the narration stage for that script: the double
    of [word count / 150 * 60], unrounded, which is within [2^-51] of four
    tenths of a second for every word, relatively. Its [end_time] is present
    and [total_duration_seconds] is the double of the difference to
    [start_time] divided by 1000. *)
Theorem B_completed_run_outputs (rt : JsRuntime) (w : World) (s s' : PState)
    (r : RunRecord) :
  runPipeline w (SpacePipelineB w) false s = (Ret (Results r), s') ->
  exists outputs articles finished,
    final_outputs r = Some outputs /\
    length articles <= 5 /\
    fo_script outputs = assemble_script w articles /\
    5 <= fo_media_count outputs /\
    fo_audio_duration outputs = estimatedDuration (fo_script outputs) /\
    (let exact := inject_Z (Z.of_nat (wordCount (fo_script outputs))) * (2 # 5) in
     exact - exact * (2 * epsilon) <= fo_audio_duration outputs
       <= exact + exact * (2 * epsilon))%Q /\
    fo_video_file outputs = "output/space_news_video.mp4" /\
    fo_video_url outputs = "https://example.com/space_news_video.mp4" /\
    end_time r = Some finished /\
    total_duration_seconds r =
      Some (double (inject_Z (finished - start_time (results s)) / 1000)).
Proof.
  intros Hret.
  destruct (returned_record w _ s s' r Hret) as (produced & s1 & Hrun & _ & -> & _).
  destruct (traced_B_run_stages w s) as (l & Hl & Hpost).
  rewrite Hrun in Hl, Hpost. cbn [fst snd] in Hl, Hpost.
  destruct (logged_frame w s s1 l Hl) as (_ & _ & _ & Hstart & _).
  destruct produced as [[[script media] audio] video].
  destruct Hpost as (_ & _ & (articles & Hlen & Hscript) & Hmedia & Haudio & _ & Hfile & Hurl).
  eexists _, articles, _.
  cbn [completed_record set_completed final_outputs end_time total_duration_seconds
       fo_script fo_media_count fo_audio_duration fo_video_file fo_video_url].
  rewrite Hstart, Haudio.
  split; [reflexivity|]. split; [exact Hlen|]. split; [exact Hscript|].
  split; [exact Hmedia|]. split; [reflexivity|].
  split; [apply estimatedDuration_error|]. repeat split; assumption.
Qed.

(** Every service down, no credential, the second intro: the run returns a
    script of three stories and 61 pieces, five media items, and a narration
    of 24.400000000000002 seconds, the double that [61 / 150 * 60] gives,
    which is not the double nearest to 24.4. *)
Lemma B_completed_run_outputs_witness :
  exists r s' outputs,
    runPipeline second_intro_world (@SpacePipelineB plain_runtime second_intro_world)
      false initial_state = (Ret (Results r), s') /\
    final_outputs r = Some outputs /\
    fo_media_count outputs = 5 /\
    wordCount (fo_script outputs) = 61 /\
    fo_audio_duration outputs = estimatedDuration (fo_script outputs) /\
    fo_audio_duration outputs = (6867989431740007 # 281474976710656)%Q /\
    fo_audio_duration outputs <> double (122 # 5).
Proof.
  destruct (runPipeline second_intro_world (@SpacePipelineB plain_runtime second_intro_world)
              false initial_state)
    as [[[b|r]|e|] s'] eqn:Hrun; try (vm_compute in Hrun; discriminate).
  destruct (B_completed_run_outputs plain_runtime second_intro_world initial_state s' r Hrun)
    as (outputs & articles & finished & Hout & _ & _ & _ & Haudio & _).
  exists r, s', outputs. split; [reflexivity|]. split; [exact Hout|].
  assert (Hval : final_outputs r = Some outputs) by exact Hout.
  vm_compute in Hrun. injection Hrun as <- _.
  vm_compute in Hval. injection Hval as <-.
  split; [reflexivity|]. split; [vm_compute; reflexivity|].
  split; [exact Haudio|]. split; [vm_compute; reflexivity|].
  vm_compute. discriminate.
Defined.

Lemma Sorted_cons_lower (x : Z) (l : list Z) :
  Sorted Z.le l -> Forall (fun t => (x <= t)%Z) l -> Sorted Z.le (x :: l).
Proof.
  intros Hs Hall. constructor; [exact Hs|].
  destruct l as [|y l]; constructor. now inversion Hall.
Qed.

(** X3. With a clock that never runs backwards, the record that a freshly
    constructed pipeline of the second variant returns has its start time,
    the timestamps of its steps and its end time in this order, none later
    than the next, and a total duration that is not negative. *)
Theorem B_record_is_stamped_in_order (rt : JsRuntime) (w : World) (s0 s' : PState)
    (r : RunRecord) :
  monotone_clock w ->
  (construct w ;; runPipeline w (SpacePipelineB w) false) s0 = (Ret (Results r), s') ->
  exists finished duration,
    end_time r = Some finished /\
    Sorted Z.le (start_time r :: map timestamp (steps r) ++ [finished]) /\
    total_duration_seconds r = Some duration /\
    (0 <= duration)%Q.
Proof.
  intros Hmono. unfold bind at 1. rewrite construct_run.
  set (s := {| results := _; files := files s0; ticks := _ |}). intros Hret.
  destruct (returned_record w _ s s' r Hret) as (produced & s1 & Hrun & _ & Hr & _).
  destruct (traced_B_run_stages w s) as (l & Hl & Hpost).
  rewrite Hrun in Hl, Hpost. cbn [fst snd] in Hl, Hpost.
  - destruct (logged_frame w s s1 l Hl) as (Hsteps & _ & _ & Hstart & _ & Hticks).
    destruct (logged_timestamps w s s1 l Hmono Hl) as [Hsorted Hbounds].
    destruct produced as [[[script media] audio] video]. subst r.
    cbn [completed_record set_completed end_time total_duration_seconds start_time steps].
    rewrite Hstart, Hsteps. cbn [s results start_time steps ticks app] in *.
    assert (Hfirst : (clock w (S (ticks s0)) <= clock w (S (S (ticks s0))))%Z)
      by (apply Hmono; lia).
    assert (Hlast : (clock w (S (S (ticks s0))) <= clock w (ticks s1))%Z)
      by (apply Hmono; exact Hticks).
    eexists _, _. split; [reflexivity|]. split; [|split; [reflexivity|]].
    + change (clock w (S (ticks s0)) :: map timestamp l ++ [clock w (ticks s1)])%list
        with ((clock w (S (ticks s0)) :: map timestamp l) ++ [clock w (ticks s1)])%list.
      apply Sorted_snoc.
      * apply Sorted_cons_lower; [exact Hsorted|].
        eapply Forall_impl; [exact Hbounds|]. intros t [Hlo _]. lia.
      * constructor; [lia|].
        eapply Forall_impl; [exact Hbounds|]. intros t [_ Hhi]. exact Hhi.
    + apply double_nonneg.
      apply Qle_shift_div_l; [reflexivity|]. rewrite Qmult_0_l.
      change 0%Q with (inject_Z 0). rewrite <- Zle_Qle. lia.
Qed.

Lemma sample_clock_monotone (w : World) : clock w = sample_clock -> monotone_clock w.
Proof. intros Hc i j Hij. rewrite Hc. unfold sample_clock. lia. Qed.

(** The sample clock advances by one millisecond at every reading: the
    record of the offline run is stamped in order. *)
Lemma B_record_is_stamped_in_order_witness :
  exists r s' finished,
    (construct offline_world ;;
     runPipeline offline_world (@SpacePipelineB plain_runtime offline_world) false)
      initial_state = (Ret (Results r), s') /\
    end_time r = Some finished /\
    Sorted Z.le (start_time r :: map timestamp (steps r) ++ [finished]).
Proof.
  destruct ((construct offline_world ;;
             runPipeline offline_world (@SpacePipelineB plain_runtime offline_world) false)
              initial_state) as [[[b|r]|e|] s'] eqn:Hrun;
    try (vm_compute in Hrun; discriminate).
  destruct (B_record_is_stamped_in_order plain_runtime offline_world initial_state s' r
              (sample_clock_monotone offline_world eq_refl) Hrun)
    as (finished & duration & Hend & Hsorted & _).
  exists r, s', finished. auto.
Defined.

(** ** The HTTP client, further *)

Section ClientSettles.
Context `{JsRuntime}.

Lemma resolve_settled (v : HttpResult) (r : Request) :
  promise r <> Pending -> promise (resolve v r) = promise r.
Proof. unfold resolve. simpl. now destruct (promise r). Qed.

Lemma reject_settled (msg : string) (r : Request) :
  promise r <> Pending -> promise (reject msg r) = promise r.
Proof. unfold reject. simpl. now destruct (promise r). Qed.

Lemma A_on_event_settled (r : Request) (ev : HttpEvent) :
  promise r <> Pending -> promise (PipelineA.on_event r ev) = promise r.
Proof.
  intros Hr. destruct ev as [code msg | chunk | | msg | msg | ]; simpl;
    try destruct (attached r); simpl;
    try reflexivity; now destruct (promise r).
Qed.

Lemma B_on_event_settled (r : Request) (ev : HttpEvent) :
  promise r <> Pending -> promise (PipelineB.on_event r ev) = promise r.
Proof.
  intros Hr. destruct ev as [[code|] msg | chunk | | msg | msg | ]; simpl;
    try destruct (400 <=? code)%Z; try destruct (attached r); simpl;
    try reflexivity; now destruct (promise r).
Qed.

Lemma A_settled_stays (events : list HttpEvent) (r : Request) :
  promise r <> Pending -> promise (fold_left PipelineA.on_event events r) = promise r.
Proof.
  revert r. induction events as [|ev events IH]; intros r Hr; [reflexivity|].
  simpl. rewrite IH; rewrite A_on_event_settled; auto.
Qed.

Lemma B_settled_stays (events : list HttpEvent) (r : Request) :
  promise r <> Pending -> promise (fold_left PipelineB.on_event events r) = promise r.
Proof.
  revert r. induction events as [|ev events IH]; intros r Hr; [reflexivity|].
  simpl. rewrite IH; rewrite B_on_event_settled; auto.
Qed.

Lemma chunks_arrive (step : Request -> HttpEvent -> Request) (chunks : list string)
    (r : Request) (rest : list HttpEvent) :
  (forall chunk r', attached r' <> None -> step r' (EvData chunk) = append_chunk chunk r') ->
  attached r <> None ->
  fold_left step (map EvData chunks ++ rest)%list r =
    fold_left step rest
      {| promise := promise r; attached := attached r;
         received := fold_left (fun data chunk => data ++ chunk) chunks (received r) |}.
Proof.
  intros Hstep. revert r. induction chunks as [|chunk chunks IH]; intros r Ha.
  - simpl. now destruct r.
  - simpl. rewrite Hstep by exact Ha. rewrite IH by exact Ha. reflexivity.
Qed.

Lemma B_invariant_step (r : Request) (ev : HttpEvent) :
  B_request_invariant r -> B_request_invariant (PipelineB.on_event r ev).
Proof.
  intros Hr.
  assert (Hreject : forall msg, B_request_invariant (reject msg r)).
  { intros msg. split; simpl; [exact (proj1 Hr)|].
    intros v. destruct (promise r) eqn:E; try discriminate.
    intros [= <-]. apply (proj2 Hr). exact E. }
  assert (Hchunk : forall chunk, B_request_invariant (append_chunk chunk r)).
  { intros chunk. split; simpl; [exact (proj1 Hr)|exact (proj2 Hr)]. }
  assert (Hresolve : forall code, attached r = Some code ->
            B_request_invariant
              (resolve {| status_code := code; data := parse_or_raw (received r) |} r)).
  { intros code E. split; simpl; [exact (proj1 Hr)|].
    intros v. destruct (promise r) eqn:Ep.
    - intros [= <-]. simpl. now apply (proj1 Hr).
    - intros [= <-]. now apply (proj2 Hr).
    - discriminate. }
  destruct ev as [[code|] msg | chunk | | msg | msg | ]; simpl; auto.
  - destruct (Z.leb_spec 400 code); [apply Hreject|].
    split; simpl; [|exact (proj2 Hr)].
    intros c [= <-]. exists code. split; [reflexivity|lia].
  - destruct (attached r); [apply Hchunk|exact Hr].
  - destruct (attached r) as [code|] eqn:E; [now apply Hresolve|exact Hr].
  - destruct (attached r); [apply Hreject|exact Hr].
Qed.

Lemma B_invariant_deliver (events : list HttpEvent) (r : Request) :
  B_request_invariant r -> B_request_invariant (fold_left PipelineB.on_event events r).
Proof.
  revert r. induction events as [|ev events IH]; intros r Hr; [exact Hr|].
  simpl. apply IH. now apply B_invariant_step.
Qed.
End ClientSettles.

(** X4. The second variant of the client resolves only with a numeric
    status below 400: whatever events the request receives, a value that
    [makeHttpRequest] returns has [status < 400]; the call leaves the state
    of the pipeline as it was. *)
Theorem B_makeHttpRequest_resolves_below_400 (rt : JsRuntime) (w : World) (url : string)
    (s s' : PState) (v : HttpResult) :
  PipelineB.makeHttpRequest w url s = (Ret v, s') ->
  s' = s /\ exists code, status_code v = Some code /\ (code < 400)%Z.
Proof.
  unfold PipelineB.makeHttpRequest, PipelineB.deliver.
  pose proof (B_invariant_deliver (network w url) new_request) as [_ Hp].
  { split; simpl; discriminate. }
  destruct (promise _) as [|v0|e]; simpl; try discriminate.
  intros [= <- <-]. split; [reflexivity|]. now apply Hp.
Qed.

(** After a response 200 whose body arrives in two chunks, a late timeout
    changes nothing: the call returns status 200. *)
Lemma B_makeHttpRequest_resolves_below_400_witness :
  exists v code,
    @PipelineB.makeHttpRequest plain_runtime late_timeout_world PipelineB.newsUrl
      initial_state = (Ret v, initial_state) /\
    status_code v = Some code /\ (code < 400)%Z.
Proof.
  destruct (B_makeHttpRequest_resolves_below_400 plain_runtime late_timeout_world
              PipelineB.newsUrl initial_state initial_state _ eq_refl)
    as (_ & code & Hcode & Hlt).
  eexists _, code. split; [reflexivity|]. split; [exact Hcode|exact Hlt].
Defined.

(** X5. A request settles once, in both variants of the client: once the
    events delivered so far have fulfilled or rejected the promise, no
    later event (more data, a second [end], an error, a timeout) changes
    the value or the error that [makeHttpRequest] gives. *)
Theorem makeHttpRequest_settles_once (rt : JsRuntime) (events more : list HttpEvent) :
  (promise (PipelineA.deliver events) <> Pending ->
   promise (PipelineA.deliver (events ++ more)) = promise (PipelineA.deliver events)) /\
  (promise (PipelineB.deliver events) <> Pending ->
   promise (PipelineB.deliver (events ++ more)) = promise (PipelineB.deliver events)).
Proof.
  unfold PipelineA.deliver, PipelineB.deliver. rewrite !fold_left_app.
  split; intros Hsettled.
  - now apply A_settled_stays.
  - now apply B_settled_stays.
Qed.

Lemma makeHttpRequest_settles_once_witness :
  promise (@PipelineB.deliver plain_runtime
             ([EvResponse (Some 200%Z) "OK"; EvData "<html>"; EvData "</html>"; EvEnd] ++ [EvTimeout])) =
    Fulfilled {| status_code := Some 200%Z; data := JStr "<html></html>" |}.
Proof.
  rewrite (proj2 (makeHttpRequest_settles_once plain_runtime
                    [EvResponse (Some 200%Z) "OK"; EvData "<html>"; EvData "</html>"; EvEnd]
                    [EvTimeout])).
  - reflexivity.
  - discriminate.
Defined.

(** X6. The path of a successful request: a response followed by its
    chunks and by [end] makes the first variant return the status and the
    decoded concatenation of the chunks (the text itself when it is not
    JSON), whatever the status is and whatever arrives later; the second
    variant does the same for a status below 400. Neither touches the state
    of the pipeline. *)
Theorem makeHttpRequest_returns_decoded_body (rt : JsRuntime) (w : World) (url : string)
    (s : PState) (code : option Z) (msg : string) (chunks : list string)
    (more : list HttpEvent) :
  network w url = (EvResponse code msg :: map EvData chunks ++ EvEnd :: more)%list ->
  PipelineA.makeHttpRequest w url s =
    (Ret {| status_code := code; data := parse_or_raw (joined chunks) |}, s) /\
  (below_400 code ->
   PipelineB.makeHttpRequest w url s =
     (Ret {| status_code := code; data := parse_or_raw (joined chunks) |}, s)) /\
  (JSON_parse (joined chunks) = None ->
   parse_or_raw (joined chunks) = JStr (joined chunks)).
Proof.
  intros Hevents. split; [|split].
  - unfold PipelineA.makeHttpRequest, PipelineA.deliver. rewrite Hevents.
    cbn [fold_left PipelineA.on_event].
    rewrite chunks_arrive;
      [|intros chunk r' Ha; simpl; destruct (attached r'); [reflexivity|contradiction]
       |discriminate].
    cbn [fold_left PipelineA.on_event attached].
    rewrite A_settled_stays by discriminate. reflexivity.
  - intros (c & -> & Hc).
    unfold PipelineB.makeHttpRequest, PipelineB.deliver. rewrite Hevents.
    cbn [fold_left PipelineB.on_event].
    destruct (Z.leb_spec 400 c) as [|_]; [lia|].
    rewrite chunks_arrive;
      [|intros chunk r' Ha; simpl; destruct (attached r'); [reflexivity|contradiction]
       |discriminate].
    cbn [fold_left PipelineB.on_event attached].
    rewrite B_settled_stays by discriminate. reflexivity.
  - intros Hparse. unfold parse_or_raw. now rewrite Hparse.
Qed.

Lemma makeHttpRequest_returns_decoded_body_witness :
  @PipelineB.makeHttpRequest plain_runtime late_timeout_world PipelineB.newsUrl initial_state =
    (Ret {| status_code := Some 200%Z; data := JStr "<html></html>" |}, initial_state).
Proof.
  destruct (makeHttpRequest_returns_decoded_body plain_runtime late_timeout_world
              PipelineB.newsUrl initial_state (Some 200%Z) "OK" ["<html>"; "</html>"] [EvTimeout]
              eq_refl) as (_ & HB & Hraw).
  rewrite HB.
  - rewrite Hraw; reflexivity.
  - exists 200%Z. split; [reflexivity|lia].
Defined.

Section ClientNeverSettles.
Context `{JsRuntime}.

Lemma A_rejection_source (events : list HttpEvent) (r : Request) (e : JsError) :
  promise (fold_left PipelineA.on_event events r) = Rejected e ->
  promise r = Rejected e \/ In (EvRequestError (message e)) events.
Proof.
  revert r. induction events as [|ev events IH]; intros r Hr; [now left|].
  simpl in Hr. destruct (IH _ Hr) as [Hnow | Hlater]; [|right; now right].
  destruct ev as [code msg | chunk | | msg | msg | ]; simpl in Hnow;
    try (now left).
  - destruct (attached r); simpl in Hnow; now left.
  - destruct (attached r); simpl in Hnow; [|now left].
    destruct (promise r); try discriminate. now left.
  - destruct (promise r) eqn:E; try discriminate.
    + injection Hnow as <-. right. now left.
    + now left.
Qed.

Lemma A_stays_pending (events : list HttpEvent) (r : Request) :
  promise r = Pending ->
  ~ In EvEnd events ->
  (forall msg, ~ In (EvRequestError msg) events) ->
  promise (fold_left PipelineA.on_event events r) = Pending.
Proof.
  revert r. induction events as [|ev events IH]; intros r Hr Hend Herr; [exact Hr|].
  simpl. apply IH.
  - destruct ev as [code msg | chunk | | msg | msg | ]; simpl; try exact Hr.
    + now destruct (attached r).
    + destruct Hend. now left.
    + destruct (Herr msg). now left.
  - intros Hin. apply Hend. now right.
  - intros msg Hin. apply (Herr msg). now right.
Qed.

Lemma B_timeout_settles (events : list HttpEvent) (r : Request) :
  In EvTimeout events -> promise (fold_left PipelineB.on_event events r) <> Pending.
Proof.
  revert r. induction events as [|ev events IH]; intros r Hin; [destruct Hin|].
  destruct Hin as [-> | Hin]; [|now apply IH].
  simpl. rewrite B_settled_stays; simpl; now destruct (promise r).
Qed.
End ClientNeverSettles.

(** X7. The first variant of the client rejects on nothing but an [error]
    event of the request, and then with that very error; it has no
    timeout, so a request that receives neither [end] nor an [error] (a
    server that stays silent, a response cut off) makes [makeHttpRequest]
    wait for ever. *)
Theorem A_makeHttpRequest_rejects_or_waits (rt : JsRuntime) (w : World) (url : string)
    (s : PState) :
  (forall e s', PipelineA.makeHttpRequest w url s = (Throw e, s') ->
     In (EvRequestError (message e)) (network w url)) /\
  (~ In EvEnd (network w url) ->
   (forall msg, ~ In (EvRequestError msg) (network w url)) ->
   PipelineA.makeHttpRequest w url s = (Hang, s)).
Proof.
  unfold PipelineA.makeHttpRequest, PipelineA.deliver. split.
  - intros e s' Hrun.
    destruct (promise (fold_left PipelineA.on_event (network w url) new_request))
      as [|v|e0] eqn:E; simpl in Hrun; try discriminate.
    injection Hrun as -> _.
    destruct (A_rejection_source _ _ _ E) as [Hnew | Hin]; [discriminate|exact Hin].
  - intros Hend Herr. now rewrite A_stays_pending.
Qed.

(** The first variant waits for ever on a server that never answers. *)
Lemma A_makeHttpRequest_rejects_or_waits_witness :
  @PipelineA.makeHttpRequest plain_runtime silent_server_world PipelineA.pexelsUrl
    initial_state = (Hang, initial_state).
Proof.
  apply (A_makeHttpRequest_rejects_or_waits plain_runtime silent_server_world
           PipelineA.pexelsUrl initial_state).
  - simpl. intros [Heq | []]. discriminate.
  - simpl. intros msg [Heq | []]. discriminate.
Defined.

Section ClientTimeout.
Context `{JsRuntime}.

(** The events that come before a timeout, the first one, with no response
    and no error of the request among them, leave the request as it was:
    pending, with no listener on a response. *)
Lemma B_quiet_events (events : list HttpEvent) (r : Request) :
  promise r = Pending ->
  attached r = None ->
  first_response events = None ->
  (forall msg, ~ In (EvRequestError msg) events) ->
  promise (fold_left PipelineB.on_event (events ++ [EvTimeout]) r) =
    Rejected {| message := "Request timeout" |}.
Proof.
  revert r. induction events as [|ev events IH]; intros r Hp Ha Hfirst Herr.
  - simpl. now rewrite Hp.
  - assert (Hrest : forall msg, ~ In (EvRequestError msg) events).
    { intros msg Hin. apply (Herr msg). now right. }
    destruct ev as [code msg | chunk | | msg | msg | ]; simpl in Hfirst |- *;
      try discriminate; rewrite ?Ha.
    + now apply IH.
    + now apply IH.
    + now apply IH.
    + destruct (Herr msg). now left.
    + rewrite B_settled_stays; unfold reject; simpl; rewrite Hp;
        [reflexivity | discriminate].
Qed.
End ClientTimeout.

(** X8. In the second variant a timeout settles the request: once the
    socket has timed out [makeHttpRequest] does not wait any longer, and
    when the timeout comes before any response and any error of the request
    the call throws [Request timeout], whatever comes after it (the [error]
    that follows the destruction of the request included). *)
Theorem B_makeHttpRequest_timeout (rt : JsRuntime) (w : World) (url : string) (s : PState)
    (before after : list HttpEvent) :
  network w url = (before ++ EvTimeout :: after)%list ->
  fst (PipelineB.makeHttpRequest w url s) <> Hang /\
  (first_response before = None ->
   (forall msg, ~ In (EvRequestError msg) before) ->
   PipelineB.makeHttpRequest w url s = (Throw {| message := "Request timeout" |}, s)).
Proof.
  intros Hevents. unfold PipelineB.makeHttpRequest, PipelineB.deliver. split.
  - assert (Hin : In EvTimeout (network w url)).
    { rewrite Hevents. apply in_or_app. right. now left. }
    pose proof (B_timeout_settles (network w url) new_request Hin) as Hsettled.
    destruct (promise _); simpl; congruence.
  - intros Hfirst Herr. rewrite Hevents.
    change (before ++ EvTimeout :: after)%list
      with (before ++ [EvTimeout] ++ after)%list.
    rewrite List.app_assoc, fold_left_app.
    rewrite B_settled_stays
      by (rewrite (B_quiet_events before new_request eq_refl eq_refl Hfirst Herr);
          discriminate).
    now rewrite (B_quiet_events before new_request eq_refl eq_refl Hfirst Herr).
Qed.

(** The socket times out on a server that never answers, the client destroys
    the request, and the request emits its error: the call has thrown
    [Request timeout] already. *)
Lemma B_makeHttpRequest_timeout_witness :
  @PipelineB.makeHttpRequest plain_runtime destroyed_request_world PipelineB.newsUrl
    initial_state = (Throw {| message := "Request timeout" |}, initial_state).
Proof.
  apply (B_makeHttpRequest_timeout plain_runtime destroyed_request_world PipelineB.newsUrl
           initial_state [] [EvRequestError "socket hang up"]).
  - reflexivity.
  - reflexivity.
  - intros msg [].
Defined.

(** ** The environment and the health check *)

Lemma no_missing_key {A} (f : A -> bool) (l : list A) :
  Nat.eqb (length (List.filter (fun x => negb (f x)) l)) 0 = forallb f l.
Proof.
  induction l as [|x l IH]; [reflexivity|].
  simpl. destruct (f x); simpl; [exact IH|reflexivity].
Qed.

Lemma filter_split_length {A} (f : A -> bool) (l : list A) :
  length (List.filter f l) + length (List.filter (fun x => negb (f x)) l) = length l.
Proof.
  induction l as [|x l IH]; [reflexivity|].
  simpl. destruct (f x); simpl; lia.
Qed.

Lemma configured_is_nonempty (w : World) (key fallback : string) :
  is_configured w key = true -> nonempty (env_or w key fallback) = true.
Proof.
  unfold is_configured, env_or, nonempty.
  destruct (env w !! key) as [v|]; [|discriminate].
  destruct (String.eqb v "") eqn:E; simpl; [discriminate|]. intros _. now rewrite E.
Qed.

Lemma validateEnvironment_run (w : World) (s : PState) :
  exists details,
    validateEnvironment w s =
      (Ret (forallb (is_configured w) requiredKeys),
       after_step w "Environment Validation" (forallb (is_configured w) requiredKeys)
                  details s) /\
    assoc "configured_keys" details =
      Some (JCount (length (List.filter (is_configured w) requiredKeys))) /\
    assoc "missing_keys" details =
      Some (JCount (3 - length (List.filter (is_configured w) requiredKeys))).
Proof.
  eexists. split; [|split].
  - unfold validateEnvironment. rewrite no_missing_key.
    unfold bind. rewrite logStep_run by details_print. reflexivity.
  - reflexivity.
  - cbn [assoc String.eqb Ascii.eqb Bool.eqb]. do 2 f_equal.
    pose proof (filter_split_length (is_configured w) requiredKeys) as Hlen.
    change (length requiredKeys) with 3 in Hlen.
    change (fun key => is_configured w key) with (is_configured w). lia.
Qed.

(** X9. A run with [healthCheck] set, in either variant, returns the
    boolean of the health check and nothing else: [true] exactly when each
    of the three required variables is set to a value that is not empty and
    holds neither [your_] nor [_here] (the entries for the media and the
    narration services add nothing to the one for the environment). Such a
    run never throws, logs the single step [Environment Validation] with
    the same boolean, reads the clock once, and leaves the status, the
    outputs and the files as they were. *)
Theorem runPipeline_health_check (w : World) (this : SpacePipeline) (s : PState) :
  this_validateEnvironment this = validateEnvironment w ->
  let healthy := forallb (is_configured w) requiredKeys in
  exists entry,
    runPipeline w this true s =
      (Ret (Health healthy),
       {| results := push_step entry (results s); files := files s;
          ticks := S (ticks s) |}) /\
    step entry = "Environment Validation" /\
    success entry = healthy /\
    timestamp entry = clock w (ticks s) /\
    assoc "configured_keys" (details entry) =
      Some (JCount (length (List.filter (is_configured w) requiredKeys))) /\
    assoc "missing_keys" (details entry) =
      Some (JCount (3 - length (List.filter (is_configured w) requiredKeys))).
Proof.
  intros Hthis healthy.
  destruct (validateEnvironment_run w s) as (details & Hrun & Hconfigured & Hmissing).
  eexists {| step := _; timestamp := _; success := _; details := details |}.
  split; [|repeat split; [exact Hconfigured|exact Hmissing]].
  unfold runPipeline, try_catch, attempt, healthCheck. unfold bind at 1 2.
  rewrite Hthis, Hrun. unfold ret, after_step. do 3 f_equal.
  fold healthy. destruct healthy eqn:E; [|reflexivity].
  unfold healthy in E. cbn [forallb requiredKeys] in E.
  apply andb_prop in E as [Htts E]. apply andb_prop in E as [Hpexels E].
  apply andb_prop in E as [Hunsplash _].
  unfold pexels_api_key, unsplash_access_key, tts_openai_api_key.
  now rewrite !configured_is_nonempty.
Qed.

(** With the Pexels variable left at the placeholder of the template, the
    health check of the second variant answers [false] and reports two
    keys configured and one missing. *)
Lemma runPipeline_health_check_witness :
  exists entry s',
    runPipeline placeholder_world (@SpacePipelineB plain_runtime placeholder_world) true
      initial_state = (Ret (Health false), s') /\
    files s' = files initial_state /\
    steps (results s') = [entry] /\
    assoc "configured_keys" (details entry) = Some (JCount 2) /\
    assoc "missing_keys" (details entry) = Some (JCount 1).
Proof.
  destruct (runPipeline_health_check placeholder_world
              (@SpacePipelineB plain_runtime placeholder_world) initial_state eq_refl)
    as (entry & Hrun & _ & _ & _ & Hconfigured & Hmissing).
  exists entry. eexists. split; [exact Hrun|].
  split; [reflexivity|]. split; [reflexivity|].
  split; [exact Hconfigured|exact Hmissing].
Defined.

(** ** The news stage of the second variant, further *)

Section NewsService.
Context `{JsRuntime}.
Variable w : World.

Lemma prop_member (key : string) (item : Json) (found : option Json) :
  prop key (Some item) = Ok found -> member key item = found.
Proof. unfold member. now intros ->. Qed.

Lemma prop_of_value (key : string) (item : Json) :
  item <> JNull -> prop key (Some item) = Ok (member key item).
Proof.
  intros Hitem. unfold member. destruct item; try reflexivity. now destruct Hitem.
Qed.

Lemma B_convert_item_run (item : Json) (s : PState) :
  item <> JNull ->
  exists a n,
    PipelineB.convert_item w item s = (Ret a, later n s) /\ converts_to w item a.
Proof.
  intros Hitem. unfold PipelineB.convert_item. rewrite (prop_of_value _ _ Hitem).
  unfold converts_to.
  destruct (truthy (member "published" item)) eqn:Hp.
  - eexists _, 0. split; [unfold bind, ret; destruct s; reflexivity|].
    cbn [title source url published]. repeat split.
    destruct (member "published" item) as [j|]; [|discriminate].
    unfold or_else. now rewrite Hp.
  - eexists _, 1. split; [reflexivity|].
    cbn [title source url published]. repeat split. eexists. reflexivity.
Qed.

Lemma later_later (n m : nat) (s : PState) : later n (later m s) = later (n + m) s.
Proof. unfold later. cbn [results files ticks]. f_equal; lia. Qed.

Lemma B_map_items_run (items : list Json) (s : PState) :
  Forall (fun item => item <> JNull) items ->
  exists converted n,
    PipelineB.map_items w items s = (Ret converted, later n s) /\
    Forall2 (converts_to w) items converted.
Proof.
  intros Hall. revert s. induction Hall as [|item items Hitem _ IH]; intros s.
  - exists [], 0. split; [destruct s; reflexivity|constructor].
  - destruct (B_convert_item_run item s Hitem) as (a & n & Hrun & Ha).
    destruct (IH (later n s)) as (converted & m & Hrest & Hconverted).
    exists (a :: converted), (m + n). split; [|now constructor].
    cbn [PipelineB.map_items]. unfold bind at 1. rewrite Hrun.
    unfold bind at 1. rewrite Hrest. unfold ret. now rewrite later_later.
Qed.

Lemma B_map_items_null (items : list Json) (s : PState) :
  In JNull items ->
  exists e n, PipelineB.map_items w items s = (Throw e, later n s).
Proof.
  revert s. induction items as [|item items IH]; intros s Hin; [destruct Hin|].
  cbn [PipelineB.map_items]. unfold bind at 1.
  destruct item as [| b | q | text | ms | l | fields];
    try (destruct Hin as [Hin | Hin]; [discriminate|];
         match goal with
         | |- context [PipelineB.convert_item w ?item s] =>
             destruct (B_convert_item_run item s ltac:(discriminate)) as (a & n & -> & _)
         end;
         destruct (IH (later n s) Hin) as (e & m & Hrest);
         unfold bind at 1; rewrite Hrest; exists e, (m + n); now rewrite later_later).
  exists (TypeError "headline_title"), 0. destruct s; reflexivity.
Qed.

(** The path that [collectNews] takes once its [try] has given nothing,
    whatever clock readings the [try] made. *)
Lemma collectNews_fallback_run (s s1 : PState) :
  try_catch (PipelineB.news_from_service w) (fun _ => ret None) s = (Ret None, s1) ->
  let t1 := clock w (ticks s1) in
  let t2 := clock w (S (ticks s1)) in
  let t3 := clock w (S (S (ticks s1))) in
  let sorted := Array_sort by_date_descending (PipelineB.placeholders t1 t2 t3) in
  PipelineB.collectNews w s =
    (Ret sorted,
     after_step w "News Collection" true
       [ ("articles_collected", JCount (length sorted));
         ("sources", JArr [JStr "Simulated Data"]);
         ("successful_feeds", JStr "offline_mode");
         ("latest_article", latest_article sorted) ]
       (later 3 s1)).
Proof.
  intros Htry t1 t2 t3 sorted.
  unfold PipelineB.collectNews. unfold bind at 1. rewrite Htry.
  unfold bind at 1. unfold PipelineB.fallbackNews, bind, now, ret. cbn [results files ticks].
  fold t1 t2 t3. fold sorted. rewrite logStep_run by details_print.
  rewrite firstn_all2; [reflexivity|].
  unfold sorted. rewrite Array_sort_length. simpl. lia.
Qed.

Lemma news_from_service_accepts (v : HttpResult) (s : PState) :
  service_answers w v ->
  PipelineB.news_from_service w s =
    match realNews v with
    | JArr items =>
        (converted <- PipelineB.map_items w items ;;
         let allArticles := Array_sort by_date_descending converted in
         logStep w "News Collection" true
           [ ("articles_collected", JCount (length allArticles));
             ("sources", JArr (map JStr (unique (map source allArticles))));
             ("successful_feeds", JStr "flask_service");
             ("latest_article", latest_article allArticles) ] ;;
         ret (Some (firstn 5 allArticles))) s
    | _ => (Throw {| message := "realNews.map is not a function" |}, s)
    end.
Proof.
  intros (Hpromise & Hstatus & Hsuccess).
  unfold PipelineB.news_from_service, PipelineB.makeHttpRequest. unfold bind at 1.
  rewrite Hpromise. cbn [await ret]. rewrite Hstatus, Hsuccess.
  cbn [is_200 Z.eqb Pos.eqb is_string String.eqb Ascii.eqb Bool.eqb].
  unfold realNews. now destruct (or_else _ _).
Qed.
End NewsService.

Lemma textual_as_text (rt : JsRuntime) (fallback : string) (v : option Json) :
  textual v = true -> as_text (or_else v (JStr fallback)) = text_or fallback v.
Proof.
  destruct v as [[| b | q | t | ms | l | f]|]; simpl; try reflexivity; try discriminate.
  - destruct b; [discriminate | reflexivity].
  - destruct (Qeq_bool q 0); [reflexivity | discriminate].
  - destruct (String.eqb t ""); reflexivity.
Qed.

(** On a plain item the conversion does not depend on how the runtime
    prints a value that is no string. *)
Lemma plain_conversion (rt : JsRuntime) (w : World) (items : list Json)
    (converted : list Article) :
  Forall plain_item items ->
  Forall2 (converts_to w) items converted ->
  Forall2 texts_of items converted.
Proof.
  intros Hplain Hconv. induction Hconv as [|item a items converted Ha _ IH].
  - constructor.
  - inversion Hplain as [|? ? (Ht & Hs & Hu & _) Hrest]; subst.
    constructor; [|now apply IH].
    destruct Ha as (Htitle & Hsource & Hurl & _). unfold texts_of.
    rewrite Htitle, Hsource, Hurl, !textual_as_text by assumption. auto.
Qed.

(** X10. When the news service answers 200 with [status: 'success'] and a
    [data] array of plain items, none of them [null], the news stage of the
    second variant does not fall back: it returns the five first of the
    converted items in sorted order (all of them when there are fewer; most
    recent first when every date is valid), each converted item taking its
    title, source, url and date from the item of the service or the default
    of the source, and it logs one step [News Collection] that counts every
    item received and names the feed [flask_service]. *)
Theorem B_collectNews_uses_the_service (rt : JsRuntime) (w : World) (s : PState)
    (v : HttpResult) (items : list Json) :
  service_answers w v ->
  realNews v = JArr items ->
  Forall (fun item => item <> JNull) items ->
  Forall plain_item items ->
  exists converted sorted entry s',
    PipelineB.collectNews w s = (Ret (firstn 5 sorted), s') /\
    Forall2 (converts_to w) items converted /\
    Forall2 texts_of items converted /\
    Permutation sorted converted /\
    (Forall dated converted -> Sorted newer_or_equal sorted) /\
    length (firstn 5 sorted) = Nat.min 5 (length items) /\
    steps (results s') = (steps (results s) ++ [entry])%list /\
    files s' = files s /\
    step entry = "News Collection" /\
    success entry = true /\
    assoc "articles_collected" (details entry) = Some (JCount (length items)) /\
    assoc "successful_feeds" (details entry) = Some (JStr "flask_service").
Proof.
  intros Hanswer Hdata Hitems Hplain.
  destruct (B_map_items_run w items s Hitems) as (converted & n & Hmap & Hconverted).
  exists converted, (Array_sort by_date_descending converted).
  eexists {| step := _; timestamp := _; success := _; details := _ |}, _.
  split.
  - unfold PipelineB.collectNews. unfold bind at 1. unfold try_catch.
    rewrite (news_from_service_accepts w v s Hanswer), Hdata.
    unfold bind at 1. rewrite Hmap. cbv zeta. unfold bind at 1.
    rewrite logStep_run by details_print. unfold ret, after_step. reflexivity.
  - pose proof (Forall2_length _ _ _ Hconverted) as Hlen.
    split; [exact Hconverted|].
    split; [exact (plain_conversion rt w items converted Hplain Hconverted)|].
    split; [apply Array_sort_perm|].
    split; [apply Array_sort_by_date|].
    split; [now rewrite length_firstn, Array_sort_length, Hlen|].
    cbn [results files steps push_step later step success details assoc
         String.eqb Ascii.eqb Bool.eqb].
    rewrite Array_sort_length, Hlen. repeat split.
Qed.

(** Two items arrive, the older one first: the stage returns the newer one
    first and gives the item without a source the default. *)
Lemma B_collectNews_uses_the_service_witness :
  exists a b s',
    @PipelineB.collectNews (answering_runtime "{..}" two_items_answer)
      (service_world "{..}") initial_state = (Ret [a; b], s') /\
    title a = "New comet sighted" /\ source a = "Unknown Source" /\
    title b = "Probe reaches Ceres" /\ source b = "ESA".
Proof.
  destruct (B_collectNews_uses_the_service (answering_runtime "{..}" two_items_answer)
              (service_world "{..}") initial_state
              {| status_code := Some 200%Z; data := two_items_answer |} two_items)
    as (converted & sorted & entry & s' & Hrun & _).
  - repeat split.
  - reflexivity.
  - repeat constructor; discriminate.
  - repeat constructor.
  - vm_compute in Hrun. eexists _, _, _. split; [reflexivity|]. repeat split.
Defined.

(** X11. An answer of the news service with [status: 'success'] whose
    [data] is truthy and not an array, or is an array with a [null] item,
    is discarded as a whole: the news stage of the second variant returns
    its three placeholder articles and logs the feed as [offline_mode],
    as if the service had not answered. *)
Theorem B_collectNews_discards_malformed_data (rt : JsRuntime) (w : World) (s : PState)
    (v : HttpResult) :
  service_answers w v ->
  match realNews v with
  | JArr items => In JNull items
  | _ => True
  end ->
  exists t1 t2 t3 entry s',
    PipelineB.collectNews w s =
      (Ret (Array_sort by_date_descending (PipelineB.placeholders t1 t2 t3)), s') /\
    steps (results s') = (steps (results s) ++ [entry])%list /\
    files s' = files s /\
    step entry = "News Collection" /\
    assoc "successful_feeds" (details entry) = Some (JStr "offline_mode").
Proof.
  intros Hanswer Hdata.
  assert (Htry : exists n,
            try_catch (PipelineB.news_from_service w) (fun _ => ret None) s =
              (Ret None, later n s)).
  { unfold try_catch. rewrite (news_from_service_accepts w v s Hanswer).
    destruct (realNews v) as [| | | | |items|];
      try (exists 0; destruct s; reflexivity).
    destruct (B_map_items_null w items s Hdata) as (e & n & Hmap).
    exists n. unfold bind at 1. now rewrite Hmap. }
  destruct Htry as [n Htry].
  pose proof (collectNews_fallback_run w s (later n s) Htry) as Hrun.
  cbv zeta in Hrun.
  eexists _, _, _, {| step := _; timestamp := _; success := _; details := _ |}, _.
  split; [exact Hrun|]. repeat split.
Qed.

Lemma B_collectNews_discards_malformed_data_witness :
  exists t1 t2 t3 s',
    @PipelineB.collectNews (answering_runtime "{..}" object_answer)
      (service_world "{..}") initial_state =
      (Ret (@Array_sort Article (@by_date_descending (answering_runtime "{..}" object_answer))
              (PipelineB.placeholders t1 t2 t3)), s').
Proof.
  destruct (B_collectNews_discards_malformed_data (answering_runtime "{..}" object_answer)
              (service_world "{..}") initial_state
              {| status_code := Some 200%Z; data := object_answer |})
    as (t1 & t2 & t3 & entry & s' & Hrun & _).
  - repeat split.
  - exact I.
  - exists t1, t2, t3, s'. exact Hrun.
Defined.

(** ** The scheduler, further *)

Lemma never_throws_bind {A B} (c : M A) (k : A -> M B) :
  never_throws c -> (forall a, never_throws (k a)) -> never_throws (bind c k).
Proof.
  intros Hc Hk s e. unfold bind.
  specialize (Hc s). destruct (c s) as [[a|e0|] s1]; simpl in *.
  - apply Hk.
  - now destruct (Hc e0).
  - discriminate.
Qed.

Lemma never_throws_ret {A} (a : A) : never_throws (ret a).
Proof. intros s e. discriminate. Qed.

Lemma never_throws_caught {A} (c : M A) (a : A) :
  never_throws (try_catch c (fun _ => ret a)).
Proof.
  intros s e. unfold try_catch. destruct (c s) as [[a0|e0|] s1]; discriminate.
Qed.

Section SchedulerRuns.
Context `{JsRuntime}.
Variables (w : World) (pipeline : SpacePipeline).

Lemma never_throws_getLastRunInfo : never_throws Scheduler.getLastRunInfo.
Proof. intros s e. rewrite getLastRunInfo_run. discriminate. Qed.

Lemma never_throws_shouldRunNow : never_throws (Scheduler.shouldRunNow w).
Proof.
  intros s e. destruct (shouldRunNow_run w s) as (s' & -> & _). discriminate.
Qed.

Lemma never_throws_scheduled_run :
  never_throws (Scheduler.runScheduledVideoGeneration w pipeline).
Proof.
  apply never_throws_bind; [apply never_throws_shouldRunNow|].
  intros go. destruct (negb go); [apply never_throws_ret|apply never_throws_caught].
Qed.

Lemma never_throws_interval (n : nat) : never_throws (Scheduler.interval w pipeline n).
Proof.
  induction n as [|n IH]; simpl; [apply never_throws_ret|].
  apply never_throws_bind; [apply never_throws_scheduled_run|]. intros _. exact IH.
Qed.

Lemma saveLastRun_run (outcome : PipelineReturn) (s : PState) :
  writable s Scheduler.lastRunFile = true ->
  Scheduler.saveLastRun w outcome s =
    (Ret tt,
     {| results := results s;
        files := <[Scheduler.lastRunFile :=
                     JsonDoc (Scheduler.runInfo (clock w (ticks s)) outcome)]> (files s);
        ticks := S (ticks s) |}).
Proof.
  intros Hw. unfold writable in Hw.
  cbv beta delta [Scheduler.saveLastRun bind now writeFileSync writable] iota zeta.
  cbn [results files ticks]. now rewrite Hw.
Qed.

Lemma saveLastRun_blocked (outcome : PipelineReturn) (s : PState) :
  writable s Scheduler.lastRunFile = false ->
  exists e, Scheduler.saveLastRun w outcome s = (Throw e, later 1 s).
Proof.
  intros Hw. unfold writable in Hw.
  cbv beta delta [Scheduler.saveLastRun bind now writeFileSync writable] iota zeta.
  cbn [results files ticks]. rewrite Hw. eexists. reflexivity.
Qed.

Lemma stored_of_file (s s' : PState) :
  files s' !! Scheduler.lastRunFile = files s !! Scheduler.lastRunFile ->
  Scheduler.stored s' = Scheduler.stored s.
Proof. intros Hfile. unfold Scheduler.stored. now rewrite Hfile. Qed.

(** A run of the pipeline writes to [pipeline_results.json] only. *)
Lemma runPipeline_keeps_last_run (s : PState) :
  only_logs (run_stages pipeline) ->
  files (snd (runPipeline w pipeline false s)) !! Scheduler.lastRunFile =
    files s !! Scheduler.lastRunFile.
Proof.
  intros Hlogs. pose proof (Hlogs s) as (_ & _ & _ & _ & _ & Hfiles).
  destruct (run_stages pipeline s) as [[produced|e|] s1] eqn:Hrun; cbn [snd] in Hfiles.
  - destruct (writable s1 resultsFile) eqn:Hw.
    + rewrite (attempt_writes w _ s s1 _ Hrun Hw). cbn [snd files].
      rewrite lookup_insert_ne by discriminate. now rewrite Hfiles.
    + rewrite (attempt_blocked w _ s s1 _ Hrun Hw). cbn [snd files]. now rewrite Hfiles.
  - rewrite (attempt_raises w _ s s1 e Hrun).
    destruct (writable s1 resultsFile) eqn:Hw.
    + rewrite (on_failure_run w e s1 Hw). cbn [snd files].
      rewrite lookup_insert_ne by discriminate. now rewrite Hfiles.
    + rewrite (on_failure_blocked w e s1 Hw). cbn [snd files]. now rewrite Hfiles.
  - unfold runPipeline, try_catch, attempt. unfold bind at 1. rewrite Hrun.
    cbn [snd]. now rewrite Hfiles.
Qed.

(** After a scheduled invocation, [last_run.json] is as it was or holds the
    record that [saveLastRun] made. *)
Lemma scheduled_run_last_run_file (s : PState) :
  only_logs (run_stages pipeline) ->
  let s' := snd (Scheduler.runScheduledVideoGeneration w pipeline s) in
  files s' !! Scheduler.lastRunFile = files s !! Scheduler.lastRunFile \/
  exists t outcome,
    files s' !! Scheduler.lastRunFile = Some (JsonDoc (Scheduler.runInfo t outcome)).
Proof.
  intros Hlogs. cbv zeta.
  enough (Hrun : exists o s',
            Scheduler.runScheduledVideoGeneration w pipeline s = (o, s') /\
            (files s' !! Scheduler.lastRunFile = files s !! Scheduler.lastRunFile \/
             exists t outcome,
               files s' !! Scheduler.lastRunFile =
                 Some (JsonDoc (Scheduler.runInfo t outcome))))
    by (destruct Hrun as (o & s' & -> & Hfile); exact Hfile).
  unfold Scheduler.runScheduledVideoGeneration. unfold bind at 1.
  destruct (shouldRunNow_run w s) as (s0 & -> & Hfiles0 & _).
  destruct (decision w s); cbn [negb];
    [|eexists _, _; split; [reflexivity|]; left; now rewrite Hfiles0].
  unfold try_catch.
  change (construct w ;; results <- runPipeline w pipeline false ;;
          Scheduler.saveLastRun w results)
    with (construct w ;; (results <- runPipeline w pipeline false ;;
                          Scheduler.saveLastRun w results)).
  unfold bind at 1. rewrite construct_run.
  set (s1 := {| results := _; files := files s0; ticks := _ |}).
  pose proof (runPipeline_keeps_last_run s1 Hlogs) as Hkept.
  unfold bind at 1.
  destruct (runPipeline w pipeline false s1) as [[outcome|e|] s2]; cbn [snd] in Hkept.
  - destruct (writable s2 Scheduler.lastRunFile) eqn:Hw.
    + rewrite (saveLastRun_run outcome s2 Hw).
      eexists _, _. split; [reflexivity|]. right. cbn [files].
      eexists _, outcome. apply lookup_insert_eq.
    + destruct (saveLastRun_blocked outcome s2 Hw) as (e & ->).
      eexists _, _. split; [reflexivity|]. left.
      cbn [later files]. now rewrite Hkept, <- Hfiles0.
  - eexists _, _. split; [reflexivity|]. left. now rewrite Hkept, <- Hfiles0.
  - eexists _, _. split; [reflexivity|]. left. now rewrite Hkept, <- Hfiles0.
Qed.

Lemma scheduled_run_keeps_timestamp (s : PState) :
  only_logs (run_stages pipeline) ->
  convertible_timestamp s ->
  convertible_timestamp (snd (Scheduler.runScheduledVideoGeneration w pipeline s)).
Proof.
  intros Hlogs Hs.
  destruct (scheduled_run_last_run_file s Hlogs) as [Hsame | (t & outcome & Hnew)].
  - unfold convertible_timestamp. now rewrite (stored_of_file _ _ Hsame).
  - unfold convertible_timestamp, Scheduler.stored. rewrite Hnew.
    destruct outcome; reflexivity.
Qed.

Lemma interval_keeps_timestamp (n : nat) (s : PState) :
  only_logs (run_stages pipeline) ->
  convertible_timestamp s ->
  convertible_timestamp (snd (Scheduler.interval w pipeline n s)).
Proof.
  intros Hlogs. revert s. induction n as [|n IH]; intros s Hs; [exact Hs|].
  cbn [Scheduler.interval]. unfold bind.
  pose proof (scheduled_run_keeps_timestamp s Hlogs Hs) as Hnext.
  destruct (Scheduler.runScheduledVideoGeneration w pipeline s) as [[[]|e|] s1];
    cbn [snd] in *; [now apply IH | exact Hnext | exact Hnext].
Qed.
End SchedulerRuns.

(** X12. The scheduler lets no error of the pipeline out. The one call
    that it makes outside its [try] is [shouldRunNow], whose [new Date]
    throws only on a stored [timestamp] that cannot be converted. When the
    stored record has no such timestamp, a scheduled invocation does not end
    by a throw, whatever the pipeline does (a stage that throws, a record
    that cannot be written); and when the stages of the pipeline write no
    file, the record it leaves has no such timestamp either, so that the
    whole of [startScheduler], with any number of four-hour periods, does not
    end by a throw. *)
Theorem scheduler_never_throws (rt : JsRuntime) (w : World) (pipeline : SpacePipeline)
    (n : nat) (s : PState) (e : JsError) :
  convertible_timestamp s ->
  fst (Scheduler.runScheduledVideoGeneration w pipeline s) <> Throw e /\
  (only_logs (run_stages pipeline) ->
   convertible_timestamp (snd (Scheduler.runScheduledVideoGeneration w pipeline s)) /\
   convertible_timestamp (snd (Scheduler.startScheduler w pipeline n s)) /\
   fst (Scheduler.startScheduler w pipeline n s) <> Throw e).
Proof.
  intros Hs. split; [apply never_throws_scheduled_run|]. intros Hlogs.
  split; [now apply scheduled_run_keeps_timestamp|]. split.
  - unfold Scheduler.startScheduler. unfold bind at 1. rewrite getLastRunInfo_run.
    unfold bind at 1.
    destruct (negb (truthy (Some (Scheduler.stored s)))).
    + pose proof (scheduled_run_keeps_timestamp w pipeline s Hlogs Hs) as Hnext.
      destruct (Scheduler.runScheduledVideoGeneration w pipeline s) as [[[]|e0|] s1];
        cbn [snd] in *; [now apply interval_keeps_timestamp | exact Hnext | exact Hnext].
    + cbn [ret]. now apply interval_keeps_timestamp.
  - clear Hs. revert s e. change (never_throws (Scheduler.startScheduler w pipeline n)).
    apply never_throws_bind; [apply never_throws_getLastRunInfo|]. intros lastRun.
    apply never_throws_bind; [|intros _; apply never_throws_interval].
    destruct (negb (truthy (Some lastRun)));
      [apply never_throws_scheduled_run|apply never_throws_ret].
Qed.

(** The last run failed three hours ago, every service is down: the
    scheduler started with two periods ends without a throw, and the record
    it leaves carries the timestamp of its last run. *)
Lemma scheduler_never_throws_witness :
  @convertible_timestamp plain_runtime failed_run_state /\
  only_logs (run_stages (@SpacePipelineB plain_runtime offline_world)) /\
  (forall e,
     fst (@Scheduler.startScheduler plain_runtime offline_world
            (@SpacePipelineB plain_runtime offline_world) 2 failed_run_state) <> Throw e) /\
  @convertible_timestamp plain_runtime
    (snd (@Scheduler.startScheduler plain_runtime offline_world
            (@SpacePipelineB plain_runtime offline_world) 2 failed_run_state)).
Proof.
  assert (Hs : @convertible_timestamp plain_runtime failed_run_state) by reflexivity.
  pose proof (@only_logs_B_run_stages plain_runtime offline_world) as Hlogs.
  split; [exact Hs|]. split; [exact Hlogs|]. split.
  - intros e.
    apply (scheduler_never_throws plain_runtime offline_world
             (@SpacePipelineB plain_runtime offline_world) 2 failed_run_state e Hs).
    exact Hlogs.
  - apply (scheduler_never_throws plain_runtime offline_world
             (@SpacePipelineB plain_runtime offline_world) 2 failed_run_state
             {| message := "" |} Hs).
    exact Hlogs.
Defined.

(** X13. What [saveLastRun] writes, [getLastRunInfo] reads back: as long as
    [last_run.json] stays as [saveLastRun] left it, [shouldRunNow] answers
    [false] exactly when the saved run had completed and the clock reads
    less than two hours after the reading that [saveLastRun] made; after a
    failed run it answers [true] at once. *)
Theorem saved_run_is_read_back (rt : JsRuntime) (w : World) (r : RunRecord)
    (s s' later_state : PState) :
  Scheduler.saveLastRun w (Results r) s = (Ret tt, s') ->
  files later_state !! Scheduler.lastRunFile = files s' !! Scheduler.lastRunFile ->
  Scheduler.getLastRunInfo later_state =
    (Ret (Scheduler.runInfo (clock w (ticks s)) (Results r)), later_state) /\
  exists go after,
    Scheduler.shouldRunNow w later_state = (Ret go, after) /\
    (go = false <->
     status r = completed /\
     (clock w (ticks later_state) - clock w (ticks s) < 2 * 60 * 60 * 1000)%Z).
Proof.
  intros Hsave Hfile.
  assert (Hw : writable s Scheduler.lastRunFile = true).
  { destruct (writable s Scheduler.lastRunFile) eqn:Hblocked; [reflexivity|].
    destruct (saveLastRun_blocked w (Results r) s Hblocked) as [e He].
    rewrite He in Hsave. discriminate. }
  rewrite (saveLastRun_run w (Results r) s Hw) in Hsave. injection Hsave as <-.
  cbn [files] in Hfile. rewrite lookup_insert_eq in Hfile.
  assert (Hstored : Scheduler.stored later_state =
                      Scheduler.runInfo (clock w (ticks s)) (Results r)).
  { unfold Scheduler.stored. now rewrite Hfile. }
  split; [now rewrite getLastRunInfo_run, Hstored|].
  destruct (shouldRunNow_run w later_state) as (after & Hrun & _).
  exists (decision w later_state), after. split; [exact Hrun|].
  rewrite decision_false_iff, Hstored.
  cbn [Scheduler.runInfo member prop assoc app String.eqb Ascii.eqb Bool.eqb
       Date_getTime is_string].
  split.
  - intros (t & Hstatus & [= <-] & Hlt). split; [|exact Hlt].
    destruct (status r); [discriminate|reflexivity|discriminate].
  - intros [Hstatus Hlt]. exists (clock w (ticks s)). rewrite Hstatus.
    repeat split. exact Hlt.
Qed.

(** One millisecond after the record of a completed run was saved, the
    scheduler declines to run. *)
Lemma saved_run_is_read_back_witness :
  exists s' after,
    Scheduler.saveLastRun offline_world (Results completed_record_sample)
      initial_state = (Ret tt, s') /\
    @Scheduler.shouldRunNow plain_runtime offline_world s' = (Ret false, after).
Proof.
  destruct (saved_run_is_read_back plain_runtime offline_world completed_record_sample
              initial_state _ _ eq_refl eq_refl) as (_ & go & after & Hrun & Hgo).
  eexists _, after. split; [reflexivity|].
  rewrite Hrun. f_equal. f_equal. apply Hgo. split; [reflexivity|].
  vm_compute. reflexivity.
Defined.

(** X14. [startScheduler] runs the pipeline at once only when there is no
    last-run record at all. When [last_run.json] holds any record, be it
    of a failed run or of a run of long ago, nothing runs at the start and
    the first invocation is the one of the timer, four hours later. *)
Theorem startScheduler_waits_when_a_record_exists (rt : JsRuntime) (w : World)
    (pipeline : SpacePipeline) (n : nat) (s : PState) :
  truthy (Some (Scheduler.stored s)) = true ->
  Scheduler.startScheduler w pipeline n s = Scheduler.interval w pipeline n s /\
  Scheduler.startScheduler w pipeline 0 s = (Ret tt, s).
Proof.
  intros Hrecord. unfold Scheduler.startScheduler. unfold bind at 1 3.
  rewrite getLastRunInfo_run, Hrecord. split; reflexivity.
Qed.

(** The last run failed three hours ago: [shouldRunNow] would let a run
    start, yet starting the scheduler runs nothing. *)
Lemma startScheduler_waits_when_a_record_exists_witness :
  @Scheduler.startScheduler plain_runtime offline_world
    (@SpacePipelineB plain_runtime offline_world) 0 failed_run_state =
    (Ret tt, failed_run_state) /\
  @decision plain_runtime offline_world failed_run_state = true.
Proof.
  split; [|reflexivity].
  apply (startScheduler_waits_when_a_record_exists plain_runtime offline_world
           (@SpacePipelineB plain_runtime offline_world) 0 failed_run_state).
  reflexivity.
Defined.

(** ** The media stage, further *)

Section MediaCounts.
Context `{JsRuntime}.

Lemma count_source_all (name : string) (l : list MediaItem) :
  Forall (fun m => media_source m = name) l -> count_source name l = length l.
Proof.
  intros Hall. unfold count_source. rewrite filter_all; [reflexivity|].
  eapply Forall_impl; [exact Hall|]. intros m ->. apply String.eqb_refl.
Qed.

Lemma count_source_other (name other : string) (l : list MediaItem) :
  name <> other ->
  Forall (fun m => media_source m = other) l -> count_source name l = 0.
Proof.
  intros Hne Hall. unfold count_source. rewrite filter_none; [reflexivity|].
  eapply Forall_impl; [exact Hall|]. intros m ->. now apply String.eqb_neq.
Qed.

Lemma unsplash_item_source (photo : Json) (m : MediaItem) :
  PipelineA.unsplash_item photo = Ok m -> media_source m = "unsplash".
Proof.
  unfold PipelineA.unsplash_item.
  destruct (prop "urls" (Some photo)) as [urls|]; [|discriminate].
  destruct (prop "regular" urls); [|discriminate].
  destruct (prop "name" (member "user" photo)); [|discriminate].
  now intros [= <-].
Qed.

Lemma nasa_items_source : Forall (fun m => media_source m = "nasa") PipelineA.nasa_items.
Proof. repeat constructor. Qed.
End MediaCounts.

(** X15. The counts that the media stage of the second variant logs add
    up: whenever it returns, its step reports [total_images] as the number
    of items returned, and [pexels_count + simulated_count = total_images]
    with [unsplash_count] 0; the simulated count is 5 when fewer than five
    Pexels items were collected and 0 otherwise. *)
Theorem B_collectMedia_counts_add_up (rt : JsRuntime) (w : World) (s s' : PState)
    (media : list MediaItem) :
  PipelineB.collectMedia w s = (Ret media, s') ->
  exists entry fromPexels simulated,
    steps (results s') = (steps (results s) ++ [entry])%list /\
    step entry = "Media Collection" /\
    assoc "total_images" (details entry) = Some (JCount (length media)) /\
    assoc "pexels_count" (details entry) = Some (JCount fromPexels) /\
    assoc "unsplash_count" (details entry) = Some (JNum 0) /\
    assoc "simulated_count" (details entry) = Some (JCount simulated) /\
    fromPexels + simulated = length media /\
    simulated = (if Nat.ltb fromPexels 5 then 5 else 0).
Proof.
  intros Hrun. pose proof (B_collect_real_run w s) as Hreal.
  unfold PipelineB.collectMedia, bind in Hrun.
  destruct (PipelineB.collect_real w s) as [[[real flag]|e|] s1]; try discriminate.
  destruct Hreal as [-> Hpexels]. cbv zeta in Hrun. cbn [fst snd] in Hrun.
  destruct (printable (sample_image (PipelineB.pad flag real))) eqn:Hp;
    [rewrite logStep_run in Hrun by media_details_print Hp
    |rewrite logStep_throws in Hrun by media_details_print Hp; discriminate].
  cbn [fst snd ret] in Hrun. injection Hrun as <- <-.
  eexists {| step := _; timestamp := _; success := _; details := _ |}, (length real),
    (if Nat.ltb (length real) 5 then 5 else 0).
  cbn [after_step results steps push_step step details assoc String.eqb Ascii.eqb Bool.eqb].
  split; [reflexivity|]. split; [reflexivity|]. split; [reflexivity|].
  rewrite pad_appends.
  destruct (padding_is_fallback flag) as [Hlen Hfallback].
  assert (Hreal_fallback :
            List.filter (fun item => String.eqb (media_source item) "simulated" ||
                                     String.eqb (media_source item) "curated") real = []).
  { apply filter_none. eapply Forall_impl; [exact Hpexels|]. now intros m ->. }
  assert (Hpadding_fallback :
            List.filter (fun item => String.eqb (media_source item) "simulated" ||
                                     String.eqb (media_source item) "curated")
              (PipelineB.padding flag) = PipelineB.padding flag).
  { apply filter_all. eapply Forall_impl; [exact Hfallback|].
    intros m ->. now destruct flag. }
  assert (Hpadding_pexels : count_source "pexels" (PipelineB.padding flag) = 0).
  { apply (count_source_other _ (PipelineB.fallback_source flag)); [|exact Hfallback].
    now destruct flag. }
  rewrite count_source_app, (count_source_all _ _ Hpexels), List.filter_app,
    Hreal_fallback, !length_app.
  destruct (Nat.ltb (length real) 5).
  - rewrite Hpadding_pexels, Hpadding_fallback, Hlen, Nat.add_0_r.
    repeat split.
  - cbn [count_source List.filter length app]. rewrite !Nat.add_0_r. repeat split.
Qed.

(** Offline, the second variant logs no Pexels item and five simulated
    ones. *)
Lemma B_collectMedia_counts_add_up_witness :
  exists media s' entry,
    @PipelineB.collectMedia plain_runtime offline_world initial_state = (Ret media, s') /\
    steps (results s') = [entry] /\
    assoc "pexels_count" (details entry) = Some (JCount 0) /\
    assoc "simulated_count" (details entry) = Some (JCount 5) /\
    assoc "total_images" (details entry) = Some (JCount (length media)).
Proof.
  destruct (@PipelineB.collectMedia plain_runtime offline_world initial_state)
    as [[media|e|] s'] eqn:Hrun; try (vm_compute in Hrun; discriminate).
  destruct (B_collectMedia_counts_add_up plain_runtime offline_world initial_state s'
              media Hrun)
    as (entry & fromPexels & simulated & Hsteps & _ & Htotal & Hpexels & _ & Hsim & _).
  exists media, s', entry. split; [reflexivity|].
  vm_compute in Hrun. injection Hrun as <- <-.
  vm_compute in Hsteps. injection Hsteps as <-.
  repeat split.
Defined.

Lemma returned_inj {A} (a b : A) (s1 s2 : PState) :
  (Ret a, s1) = (Ret b, s2) -> a = b /\ s1 = s2.
Proof. intros Heq. split; congruence. Qed.

Section FirstVariantMedia.
Context `{JsRuntime}.
Variable w : World.

(** A request block of the first variant only appends to [mediaItems], and
    leaves the state as it is. *)
Lemma A_request_block_run (key url : string) (item : Json -> Try MediaItem)
    (P : MediaItem -> Prop) (mediaItems : list MediaItem) (s : PState) :
  (forall photo m, item photo = Ok m -> P m) ->
  match try_catch
          (response <- PipelineA.makeHttpRequest w url ;;
           ret (fst (push_photos key item response mediaItems)))
          (fun _ => ret mediaItems) s with
  | (Ret items, s') =>
      s' = s /\ exists added, items = (mediaItems ++ added)%list /\ Forall P added
  | (Throw _, _) => False
  | (Hang, _) => True
  end.
Proof.
  intros HP.
  unfold try_catch, bind, PipelineA.makeHttpRequest, await.
  destruct (promise (PipelineA.deliver (network w url))) as [|v|e]; simpl; trivial.
  - split; [reflexivity|]. now apply push_photos_appends.
  - split; [reflexivity|]. exists []. split; [now rewrite app_nil_r|constructor].
Qed.
End FirstVariantMedia.

(** X16. The media stage of the first variant returns what Pexels gave,
    then what Unsplash gave, then its three NASA items, each marked with its
    source; it logs one step [Media Collection] whose counts are the lengths
    of these three parts and whose total is the number of items returned, and
    it changes no file. *)
Theorem A_collectMedia_sources (rt : JsRuntime) (w : World) (s s' : PState)
    (media : list MediaItem) :
  PipelineA.collectMedia w s = (Ret media, s') ->
  exists fromPexels fromUnsplash entry,
    media = (fromPexels ++ fromUnsplash ++ PipelineA.nasa_items)%list /\
    Forall (fun m => media_source m = "pexels") fromPexels /\
    Forall (fun m => media_source m = "unsplash") fromUnsplash /\
    steps (results s') = (steps (results s) ++ [entry])%list /\
    files s' = files s /\
    step entry = "Media Collection" /\
    assoc "total_images" (details entry) = Some (JCount (length media)) /\
    assoc "pexels_count" (details entry) = Some (JCount (length fromPexels)) /\
    assoc "unsplash_count" (details entry) = Some (JCount (length fromUnsplash)) /\
    assoc "nasa_count" (details entry) = Some (JCount 3).
Proof.
  unfold PipelineA.collectMedia. unfold bind at 1.
  assert (Hfirst :
    match (if nonempty (pexels_api_key w)
           then try_catch
                  (response <- PipelineA.makeHttpRequest w PipelineA.pexelsUrl ;;
                   ret (fst (push_photos "photos" pexels_item response [])))
                  (fun _ => ret [])
           else ret []) s with
    | (Ret items, s1) =>
        s1 = s /\ exists added, items = ([] ++ added)%list /\
                                Forall (fun m => media_source m = "pexels") added
    | (Throw _, _) => False
    | (Hang, _) => True
    end).
  { destruct (nonempty (pexels_api_key w)).
    - apply A_request_block_run, pexels_item_source.
    - split; [reflexivity|]. exists []. split; [reflexivity|constructor]. }
  destruct (_ s) as [[fromPexels|e|] s1]; try discriminate; try contradiction.
  destruct Hfirst as (-> & added & -> & Hpexels). cbn [app].
  unfold bind at 1.
  assert (Hsecond :
    match (if nonempty (unsplash_access_key w)
           then try_catch
                  (response <- PipelineA.makeHttpRequest w PipelineA.unsplashUrl ;;
                   ret (fst (push_photos "results" PipelineA.unsplash_item response added)))
                  (fun _ => ret added)
           else ret added) s with
    | (Ret items, s1) =>
        s1 = s /\ exists more, items = (added ++ more)%list /\
                               Forall (fun m => media_source m = "unsplash") more
    | (Throw _, _) => False
    | (Hang, _) => True
    end).
  { destruct (nonempty (unsplash_access_key w)).
    - apply A_request_block_run, unsplash_item_source.
    - split; [reflexivity|]. exists []. split; [now rewrite app_nil_r|constructor]. }
  destruct (_ s) as [[fromBoth|e|] s1]; try discriminate; try contradiction.
  destruct Hsecond as (-> & more & -> & Hunsplash).
  cbv zeta. unfold bind at 1.
  destruct (printable (sample_image
              (PipelineA.forEach_nasa PipelineA.nasaImages 0 (added ++ more)%list))) eqn:Hp;
    [rewrite logStep_run by media_details_print Hp
    |rewrite logStep_throws by media_details_print Hp; discriminate].
  unfold ret.
  rewrite forEach_nasa_appends. fold PipelineA.nasa_items.
  intros Hrun. apply returned_inj in Hrun as [<- <-].
  exists added, more.
  eexists {| step := _; timestamp := _; success := _; details := _ |}.
  cbn [after_step results steps files push_step step details assoc
       String.eqb Ascii.eqb Bool.eqb].
  rewrite <- app_assoc.
  split; [reflexivity|]. split; [exact Hpexels|]. split; [exact Hunsplash|].
  split; [reflexivity|]. split; [reflexivity|]. split; [reflexivity|].
  split; [reflexivity|].
  rewrite !count_source_app.
  rewrite (count_source_all _ _ Hpexels), (count_source_all _ _ Hunsplash).
  rewrite (count_source_other "pexels" "unsplash" more), 
    (count_source_other "pexels" "nasa" PipelineA.nasa_items),
    (count_source_other "unsplash" "pexels" added),
    (count_source_other "unsplash" "nasa" PipelineA.nasa_items),
    (count_source_other "nasa" "pexels" added),
    (count_source_other "nasa" "unsplash" more);
    try discriminate; try assumption; try apply nasa_items_source.
  rewrite (count_source_all _ _ nasa_items_source).
  rewrite !Nat.add_0_r. repeat split.
Qed.

(** Without credentials the first variant returns its three NASA items and
    counts them as such. *)
Lemma A_collectMedia_sources_witness :
  exists media s' entry,
    @PipelineA.collectMedia plain_runtime offline_world initial_state = (Ret media, s') /\
    media = PipelineA.nasa_items /\
    steps (results s') = [entry] /\
    assoc "nasa_count" (details entry) = Some (JCount 3).
Proof.
  destruct (@PipelineA.collectMedia plain_runtime offline_world initial_state)
    as [[media|e|] s'] eqn:Hrun; try (vm_compute in Hrun; discriminate).
  destruct (A_collectMedia_sources plain_runtime offline_world initial_state s' media Hrun)
    as (fromPexels & fromUnsplash & entry & _ & _ & _ & Hsteps & _ & _ & _ & _ & _ & Hnasa).
  exists media, s', entry. split; [reflexivity|].
  vm_compute in Hrun. injection Hrun as <- <-.
  split; [reflexivity|]. split; [exact Hsteps|exact Hnasa].
Defined.

(** ** Termination of the second variant *)

Lemma never_hangs_ret {A} (a : A) : never_hangs (ret a).
Proof. intros s. discriminate. Qed.

Lemma never_hangs_throw {A} (e : JsError) : never_hangs (@throw A e).
Proof. intros s. discriminate. Qed.

Lemma never_hangs_bind {A B} (c : M A) (k : A -> M B) :
  never_hangs c -> (forall a, never_hangs (k a)) -> never_hangs (bind c k).
Proof.
  intros Hc Hk s. unfold bind. specialize (Hc s).
  destruct (c s) as [[a|e|] s1]; simpl in *; [apply Hk|discriminate|now destruct Hc].
Qed.

Lemma never_hangs_try_catch {A} (c : M A) (h : JsError -> M A) :
  never_hangs c -> (forall e, never_hangs (h e)) -> never_hangs (try_catch c h).
Proof.
  intros Hc Hh s. unfold try_catch. specialize (Hc s).
  destruct (c s) as [[a|e|] s1]; simpl in *; [discriminate|apply Hh|now destruct Hc].
Qed.

Lemma never_hangs_now (w : World) : never_hangs (now w).
Proof. intros s. discriminate. Qed.

Lemma never_hangs_logStep (w : World) (name : string) (ok : bool)
    (d : list (string * Json)) : never_hangs (logStep w name ok d).
Proof.
  intros s. destruct (prints_or_not d) as [Hd | Hd];
    [rewrite logStep_run by exact Hd | rewrite logStep_throws by exact Hd];
    cbn [fst]; discriminate.
Qed.

Lemma never_hangs_modify (f : RunRecord -> RunRecord) : never_hangs (modify_results f).
Proof. intros s. discriminate. Qed.

Lemma never_hangs_save_results : never_hangs save_results.
Proof.
  intros s. unfold save_results, bind, get_results, writeFileSync.
  destruct (writable s resultsFile); discriminate.
Qed.

Lemma never_hangs_get_results : never_hangs get_results.
Proof. intros s. discriminate. Qed.

Create HintDb never_hangs.

#[local] Hint Resolve never_hangs_ret never_hangs_throw never_hangs_now never_hangs_logStep
  never_hangs_modify never_hangs_save_results never_hangs_get_results : never_hangs.

Ltac never_hangs_step :=
  cbv zeta;
  repeat first
    [ solve [auto with never_hangs]
    | apply never_hangs_bind; [|intros ?]
    | apply never_hangs_try_catch; [|intros ?] ].

Section SecondVariantTerminates.
Context `{JsRuntime}.
Variable w : World.

Lemma never_hangs_B_makeHttpRequest (url : string) :
  settles w url -> never_hangs (PipelineB.makeHttpRequest w url).
Proof.
  intros Hsettles s. unfold PipelineB.makeHttpRequest.
  unfold settles in Hsettles.
  destruct (promise (PipelineB.deliver (network w url))); simpl; congruence.
Qed.

Lemma never_hangs_B_convert_item (item : Json) :
  never_hangs (PipelineB.convert_item w item).
Proof.
  unfold PipelineB.convert_item.
  destruct (prop "headline_title" (Some item)); [|auto with never_hangs].
  destruct (truthy (member "published" item)); never_hangs_step.
Qed.

Lemma never_hangs_B_map_items (items : list Json) :
  never_hangs (PipelineB.map_items w items).
Proof.
  induction items as [|item items IH]; simpl; [auto with never_hangs|].
  apply never_hangs_bind; [apply never_hangs_B_convert_item|]. intros a.
  apply never_hangs_bind; [exact IH|]. intros l. auto with never_hangs.
Qed.

Lemma never_hangs_B_collectNews :
  settles w PipelineB.newsUrl -> never_hangs (PipelineB.collectNews w).
Proof.
  intros Hsettles. unfold PipelineB.collectNews.
  apply never_hangs_bind.
  - apply never_hangs_try_catch; [|auto with never_hangs].
    unfold PipelineB.news_from_service.
    apply never_hangs_bind; [now apply never_hangs_B_makeHttpRequest|].
    intros response.
    destruct (is_200 (status_code response)); [|auto with never_hangs].
    destruct (prop "status" (Some (data response))) as [st|e]; [|auto with never_hangs].
    destruct (is_string "success" st); [|auto with never_hangs].
    destruct (or_else (member "data" (data response)) (JArr [])); auto with never_hangs.
    apply never_hangs_bind; [apply never_hangs_B_map_items|]. intros converted.
    never_hangs_step.
  - intros [articles|]; [auto with never_hangs|].
    unfold PipelineB.fallbackNews. never_hangs_step.
Qed.

Lemma never_hangs_B_collectMedia :
  (nonempty (pexels_api_key w) = true -> settles w PipelineB.pexelsUrl) ->
  never_hangs (PipelineB.collectMedia w).
Proof.
  intros Hsettles. unfold PipelineB.collectMedia.
  apply never_hangs_bind; [|intros collected; cbv zeta; never_hangs_step].
  unfold PipelineB.collect_real.
  destruct (nonempty (pexels_api_key w)); [|cbn [andb]; auto with never_hangs].
  destruct (negb (String.eqb (pexels_api_key w) "")); cbn [andb];
    [|auto with never_hangs].
  apply never_hangs_try_catch; [|auto with never_hangs].
  apply never_hangs_bind; [|auto with never_hangs].
  now apply never_hangs_B_makeHttpRequest, Hsettles.
Qed.

Lemma never_hangs_B_runPipeline (healthCheckOnly : bool) :
  settles w PipelineB.newsUrl ->
  (nonempty (pexels_api_key w) = true -> settles w PipelineB.pexelsUrl) ->
  never_hangs (runPipeline w (SpacePipelineB w) healthCheckOnly).
Proof.
  intros Hnews Hpexels. unfold runPipeline.
  apply never_hangs_try_catch.
  - unfold attempt. destruct healthCheckOnly.
    + unfold healthCheck, SpacePipelineB, this_validateEnvironment, validateEnvironment.
      never_hangs_step.
    + apply never_hangs_bind.
      * unfold run_stages, SpacePipelineB. cbn [this_validateEnvironment this_collectNews
          this_generateScript this_collectMedia this_generateTTS this_produceVideo].
        apply never_hangs_bind; [unfold validateEnvironment; never_hangs_step|].
        intros envValid.
        apply never_hangs_bind; [now apply never_hangs_B_collectNews|]. intros articles.
        apply never_hangs_bind; [unfold generateScript; never_hangs_step|]. intros script.
        apply never_hangs_bind; [now apply never_hangs_B_collectMedia|]. intros media.
        apply never_hangs_bind; [unfold generateTTS; never_hangs_step|]. intros audio.
        apply never_hangs_bind; [unfold produceVideo; never_hangs_step|]. intros video.
        auto with never_hangs.
      * intros [[[script media] audio] video]. never_hangs_step.
  - intros e. unfold on_failure. never_hangs_step.
Qed.
End SecondVariantTerminates.

Section SecondVariantWaits.
Context `{JsRuntime}.
Variable w : World.

Lemma B_collectNews_waits (s : PState) :
  promise (PipelineB.deliver (network w PipelineB.newsUrl)) = Pending ->
  PipelineB.collectNews w s = (Hang, s).
Proof.
  intros Hpending.
  unfold PipelineB.collectNews, try_catch, PipelineB.news_from_service,
    PipelineB.makeHttpRequest.
  unfold bind at 1 2. now rewrite Hpending.
Qed.

Lemma B_collectMedia_waits (s : PState) :
  nonempty (pexels_api_key w) = true ->
  promise (PipelineB.deliver (network w PipelineB.pexelsUrl)) = Pending ->
  PipelineB.collectMedia w s = (Hang, s).
Proof.
  intros Hkey Hpending.
  unfold PipelineB.collectMedia, PipelineB.collect_real.
  replace (negb (String.eqb (pexels_api_key w) "")) with true by exact (eq_sym Hkey).
  rewrite Hkey. cbn [andb].
  unfold try_catch, PipelineB.makeHttpRequest. unfold bind at 1 2.
  now rewrite Hpending.
Qed.

Lemma B_collectNews_returns_or_waits (s : PState) :
  (exists articles s', PipelineB.collectNews w s = (Ret articles, s')) \/
  PipelineB.collectNews w s = (Hang, s) /\
  promise (PipelineB.deliver (network w PipelineB.newsUrl)) = Pending.
Proof.
  destruct (promise (PipelineB.deliver (network w PipelineB.newsUrl))) eqn:Hp.
  - right. split; [now apply B_collectNews_waits|reflexivity].
  - left. assert (Hsettles : settles w PipelineB.newsUrl)
      by (unfold settles; rewrite Hp; discriminate).
    pose proof (never_hangs_B_collectNews w Hsettles s) as Hhang.
    destruct (traced_B_collectNews w s) as (l & _ & Hpost).
    destruct (PipelineB.collectNews w s) as [[articles|e|] s']; simpl in *.
    + now eexists _, _.
    + destruct Hpost.
    + now destruct Hhang.
  - left. assert (Hsettles : settles w PipelineB.newsUrl)
      by (unfold settles; rewrite Hp; discriminate).
    pose proof (never_hangs_B_collectNews w Hsettles s) as Hhang.
    destruct (traced_B_collectNews w s) as (l & _ & Hpost).
    destruct (PipelineB.collectNews w s) as [[articles|e0|] s']; simpl in *.
    + now eexists _, _.
    + destruct Hpost.
    + now destruct Hhang.
Qed.
End SecondVariantWaits.

(** X17. The items of the news service being plain, a run of the second
    variant waits for ever in two cases only: the request to the news service
    never settles, or a Pexels key is set and the request to Pexels never
    settles. As the client of this variant settles every request that gets a
    response end, an error or a timeout, a run whose requests are settled
    always ends, by returning its record or by a throw. *)
Theorem B_run_waits_only_on_requests (rt : JsRuntime) (w : World) (s : PState) :
  plain_news w ->
  (fst (runPipeline w (SpacePipelineB w) false s) = Hang <->
   promise (PipelineB.deliver (network w PipelineB.newsUrl)) = Pending \/
   (nonempty (pexels_api_key w) = true /\
    promise (PipelineB.deliver (network w PipelineB.pexelsUrl)) = Pending)).
Proof.
  intros _. split.
  - intros Hhang.
    destruct (promise (PipelineB.deliver (network w PipelineB.newsUrl))) eqn:Hnews;
      [now left| |];
      (destruct (nonempty (pexels_api_key w)) eqn:Hkey;
       [destruct (promise (PipelineB.deliver (network w PipelineB.pexelsUrl))) eqn:Hpexels;
        [right; now split| |]|]);
      exfalso; revert Hhang;
      apply (never_hangs_B_runPipeline w false);
      unfold settles; rewrite ?Hnews, ?Hpexels, ?Hkey; congruence.
  - intros Hpending.
    unfold runPipeline, try_catch, attempt. unfold bind at 1.
    assert (Hstages : exists s1, run_stages (SpacePipelineB w) s = (Hang, s1));
      [|destruct Hstages as [s1 ->]; reflexivity].
    unfold run_stages, SpacePipelineB.
    cbn [this_validateEnvironment this_collectNews this_generateScript
         this_collectMedia this_generateTTS this_produceVideo].
    unfold bind at 1.
    destruct (validateEnvironment_run w s) as (d & -> & _).
    set (s1 := after_step _ _ _ _ s).
    unfold bind at 1.
    destruct Hpending as [Hnews | [Hkey Hpexels]].
    + rewrite (B_collectNews_waits w s1 Hnews). now eexists.
    + destruct (B_collectNews_returns_or_waits w s1) as [(articles & s2 & ->) | [-> _]];
        [|now eexists].
      unfold bind at 1. rewrite generateScript_run.
      unfold bind at 1. rewrite (B_collectMedia_waits w _ Hkey Hpexels). now eexists.
Qed.

(** The news service sends two plain items, a Pexels key is set and Pexels
    never answers: the run waits in its media stage. *)
Lemma B_run_waits_only_on_requests_witness :
  @plain_news (answering_runtime "{..}" two_items_answer) pexels_silent_world /\
  fst (runPipeline pexels_silent_world
         (@SpacePipelineB (answering_runtime "{..}" two_items_answer) pexels_silent_world)
         false initial_state) = Hang.
Proof.
  assert (Hplain : @plain_news (answering_runtime "{..}" two_items_answer)
                     pexels_silent_world).
  { intros v items [Hv _] Hitems. vm_compute in Hv. injection Hv as <-.
    vm_compute in Hitems. injection Hitems as <-.
    repeat constructor. }
  split; [exact Hplain|].
  apply (B_run_waits_only_on_requests (answering_runtime "{..}" two_items_answer)
           pexels_silent_world initial_state Hplain).
  right. split; reflexivity.
Defined.

(** ** The news server *)

Section NewsServerFacts.
Import NewsServer.

Lemma pick_in (array : list string) (x : Q) :
  array <> [] -> (0 <= x)%Q -> (x < 1)%Q ->
  exists element, pick array x = Some element /\ In element array.
Proof.
  intros Harray Hlow Hhigh. unfold pick. cbv zeta.
  set (n := inject_Z (Z.of_nat (length array))).
  assert (Hn : (0 < n)%Q).
  { unfold n. change 0%Q with (inject_Z 0). rewrite <- Zlt_Qlt.
    destruct array; [now destruct Harray|simpl; lia]. }
  assert (H0 : (0 <= Qfloor (x * n))%Z).
  { change 0%Z with (Qfloor (inject_Z 0)). apply Qfloor_resp_le.
    change (inject_Z 0) with 0%Q. apply Qmult_le_0_compat; [exact Hlow|].
    now apply Qlt_le_weak. }
  assert (H1 : (Qfloor (x * n) < Z.of_nat (length array))%Z).
  { rewrite Zlt_Qlt. eapply Qle_lt_trans; [apply Qfloor_le|]. fold n.
    rewrite <- (Qmult_1_l n) at 2. apply Qmult_lt_compat_r; assumption. }
  destruct (Z.ltb_spec (Qfloor (x * n)) 0) as [|_]; [lia|].
  destruct (nth_error array (Z.to_nat (Qfloor (x * n)))) as [element|] eqn:E.
  - exists element. split; [reflexivity|]. eapply nth_error_In. exact E.
  - apply nth_error_None in E. lia.
Qed.

Lemma toISOString_in_range (o : Outside) (i : nat) :
  in_range o -> i <= 4 ->
  toISOString (server_clock o - Z.of_nat i * 3600000) = Ok (JIso (published_at o i)).
Proof.
  unfold in_range, toISOString, published_at. intros Hrange Hi.
  destruct (Z.leb_spec (Z.abs (server_clock o - Z.of_nat i * 3600000)) max_time);
    [reflexivity|].
  unfold max_time in *. lia.
Qed.

Lemma round_in_range (o : Outside) (rest i : nat) (news : list Json) :
  in_range o -> i <= 4 ->
  rounds o (S rest) i news =
    rounds o rest (S i)
      (news ++ [news_item (pick headlines (random o (2 * i)))
                          (pick sources (random o (2 * i + 1)))
                          (JIso (published_at o i)) i]).
Proof.
  intros Hrange Hi. cbn [rounds]. cbv zeta. now rewrite toISOString_in_range.
Qed.

Lemma fair_item (o : Outside) (i : nat) :
  fair o ->
  item_of_round o i (news_item (pick headlines (random o (2 * i)))
                               (pick sources (random o (2 * i + 1)))
                               (JIso (published_at o i)) i).
Proof.
  intros Hfair.
  destruct (Hfair (2 * i)) as [Hl1 Hh1]. destruct (Hfair (2 * i + 1)) as [Hl2 Hh2].
  destruct (pick_in headlines (random o (2 * i))) as (headline & -> & Hheadline);
    [discriminate|assumption|assumption|].
  destruct (pick_in sources (random o (2 * i + 1))) as (source & -> & Hsource);
    [discriminate|assumption|assumption|].
  exists headline, source. repeat split; assumption.
Qed.

Lemma generateSpaceNews_in_range (o : Outside) :
  in_range o ->
  generateSpaceNews o =
    Ok (map (fun i => news_item (pick headlines (random o (2 * i)))
                                (pick sources (random o (2 * i + 1)))
                                (JIso (published_at o i)) i)
            (seq 0 5)).
Proof.
  intros Hrange. unfold generateSpaceNews.
  rewrite !round_in_range by (assumption || lia). reflexivity.
Qed.
End NewsServerFacts.

(** X18. [generateSpaceNews] returns five items whenever the clock of the
    server is at least four hours inside the range of time values. With
    draws of [Math.random] in [[0, 1)] the item of round [i] (from 0) has a
    headline and a source taken from the two lists of the source, the
    address [https://example.com/news/<i + 1>], and is published [i] hours
    before the clock reading: the items come most recent first. *)
Theorem generateSpaceNews_items (o : NewsServer.Outside) :
  NewsServer.in_range o ->
  NewsServer.fair o ->
  exists news,
    NewsServer.generateSpaceNews o = Ok news /\
    length news = 5 /\
    Forall2 (NewsServer.item_of_round o) (seq 0 5) news.
Proof.
  intros Hrange Hfair. eexists. split; [|split].
  - now apply generateSpaceNews_in_range.
  - reflexivity.
  - cbn [seq map]. repeat constructor; now apply fair_item.
Qed.

Lemma generateSpaceNews_items_witness :
  exists news,
    NewsServer.generateSpaceNews NewsServer.sample_outside = Ok news /\
    Forall2 (NewsServer.item_of_round NewsServer.sample_outside) (seq 0 5) news.
Proof.
  destruct (generateSpaceNews_items NewsServer.sample_outside) as (news & Hrun & _ & Hitems).
  - unfold NewsServer.in_range, max_time. simpl. lia.
  - intros k. split; [unfold Qle|unfold Qlt]; simpl; lia.
  - exists news. split; assumption.
Defined.




(** ** The pipeline and the news server together *)

Section SortedInput.
Context {A : Type} (compare : A -> A -> option Z).

(** [sort] leaves alone a list that is in order already. *)
Lemma Array_sort_in_order (l : list A) :
  Sorted (in_order compare) l -> Array_sort compare l = l.
Proof.
  induction 1 as [|x l Hsorted IH Hhd]; [reflexivity|].
  cbn [Array_sort fold_right]. fold (Array_sort compare l). rewrite IH.
  destruct Hhd as [|y l Hxy]; [reflexivity|].
  cbn [insert_sorted]. unfold in_order in Hxy. now rewrite Hxy.
Qed.
End SortedInput.

Lemma Forall2_compose {A B C} (P : A -> B -> Prop) (Q : B -> C -> Prop)
    (R : A -> C -> Prop) (la : list A) (lb : list B) (lc : list C) :
  (forall a b c, P a b -> Q b c -> R a c) ->
  Forall2 P la lb -> Forall2 Q lb lc -> Forall2 R la lc.
Proof.
  intros HR HP. revert lc. induction HP as [|a b la lb Hab _ IH]; intros lc HQ.
  - inversion HQ. constructor.
  - inversion HQ as [|? c ? lc' Hbc HQ']; subst. constructor; eauto.
Qed.

Section Together.
Context `{JsRuntime}.
Variable w : World.

Lemma B_deliver_body (code : Z) (msg : string) (chunks : list string)
    (more : list HttpEvent) :
  (code < 400)%Z ->
  promise (PipelineB.deliver
             (EvResponse (Some code) msg :: map EvData chunks ++ EvEnd :: more)%list) =
    Fulfilled {| status_code := Some code; data := parse_or_raw (joined chunks) |}.
Proof.
  intros Hcode. unfold PipelineB.deliver. cbn [fold_left PipelineB.on_event].
  destruct (Z.leb_spec 400 code) as [|_]; [lia|].
  rewrite chunks_arrive;
    [|intros chunk r' Ha; simpl; destruct (attached r'); [reflexivity|contradiction]
     |discriminate].
  cbn [fold_left PipelineB.on_event attached].
  rewrite B_settled_stays by discriminate. reflexivity.
Qed.

Lemma named_is_truthy (name : string) (names : list string) (fallback : Json) :
  In name names -> Forall (fun n => n <> "") names ->
  as_text (or_else (Some (JStr name)) fallback) = name.
Proof.
  intros Hin Hall. rewrite List.Forall_forall in Hall. specialize (Hall name Hin).
  unfold or_else, truthy. apply String.eqb_neq in Hall. now rewrite Hall.
Qed.

Lemma converts_item_of_round (o : NewsServer.Outside) (i : nat) (item : Json)
    (a : Article) :
  NewsServer.item_of_round o i item -> converts_to w item a -> article_of_round o i a.
Proof.
  intros (headline & source & Hheadline & Hsource & ->) (Htitle & Hsrc & Hurl & Hpublished).
  cbn [member prop assoc String.eqb Ascii.eqb Bool.eqb truthy] in *.
  assert (Hheadlines : Forall (fun n => n <> "") NewsServer.headlines)
    by (repeat constructor; discriminate).
  assert (Hsources : Forall (fun n => n <> "") NewsServer.sources)
    by (repeat constructor; discriminate).
  rewrite (named_is_truthy _ _ _ Hheadline Hheadlines) in Htitle.
  rewrite (named_is_truthy _ _ _ Hsource Hsources) in Hsrc.
  unfold article_of_round. rewrite Htitle, Hsrc, Hurl.
  injection Hpublished as ->. repeat split; try assumption.
Qed.

Lemma rounds_in_order (o : NewsServer.Outside) (i : nat) (a b : Article) :
  article_of_round o i a -> article_of_round o (S i) b ->
  in_order by_date_descending a b.
Proof.
  intros (_ & _ & Ha & _) (_ & _ & Hb & _).
  unfold in_order, by_date_descending. rewrite Ha, Hb. cbn [Date_getTime is_positive].
  apply Z.ltb_ge. unfold NewsServer.published_at. lia.
Qed.
End Together.

(** X20. The second variant of the pipeline against the news server of the
    repository. When [handleRequest] has answered a request for
    [/scrape-news] (any method but [OPTIONS], fair draws, a clock in range)
    and the client receives that status and decodes that body, the news
    stage returns five articles and no placeholder: the article at position
    [i] has a headline and a source of the server's lists, the address
    [https://example.com/news/<i + 1>], and the published time of the
    server's round [i]. The sort by date leaves the server's order as it
    is, and nothing is cut off. *)
Theorem B_collectNews_reads_the_news_server (rt : JsRuntime) (w : World) (s : PState)
    (URL_pathname : string -> option string) (o : NewsServer.Outside)
    (req : NewsServer.IncomingMessage) (response : NewsServer.ServerResponse)
    (body : Json) (msg : string) (chunks : list string) :
  NewsServer.fair o ->
  NewsServer.in_range o ->
  NewsServer.req_method req <> "OPTIONS" ->
  URL_pathname (NewsServer.req_url req) = Some "/scrape-news" ->
  NewsServer.handleRequest URL_pathname o req = Ok response ->
  NewsServer.res_body response = Some body ->
  network w PipelineB.newsUrl =
    (EvResponse (Some (NewsServer.res_status response)) msg
       :: map EvData chunks ++ [EvEnd])%list ->
  JSON_parse (joined chunks) = Some body ->
  exists articles entry s',
    PipelineB.collectNews w s = (Ret articles, s') /\
    Forall2 (article_of_round o) (seq 0 5) articles /\
    steps (results s') = (steps (results s) ++ [entry])%list /\
    assoc "articles_collected" (details entry) = Some (JCount 5) /\
    assoc "successful_feeds" (details entry) = Some (JStr "flask_service").
Proof.
  intros Hfair Hrange Hmethod Hpath Hhandled Hbody Hnetwork Hdecoded.
  pose proof (generateSpaceNews_in_range o Hrange) as Hnews.
  unfold NewsServer.handleRequest in Hhandled. rewrite Hpath in Hhandled.
  apply String.eqb_neq in Hmethod. rewrite Hmethod in Hhandled.
  cbn [String.eqb Ascii.eqb Bool.eqb] in Hhandled. rewrite Hnews in Hhandled.
  injection Hhandled as <-. cbn [NewsServer.respond NewsServer.res_body
    NewsServer.res_status] in Hbody, Hnetwork. injection Hbody as <-.
  set (news := map _ (seq 0 5)) in *.
  assert (Hitems : Forall2 (NewsServer.item_of_round o) (seq 0 5) news).
  { unfold news. cbn [seq map]. repeat constructor; now apply fair_item. }
  set (v := {| status_code := Some 200%Z;
               data := NewsServer.success_envelope (JArr news) |}).
  assert (Hanswer : service_answers w v).
  { split; [|split; reflexivity]. rewrite Hnetwork, B_deliver_body by lia.
    unfold parse_or_raw. now rewrite Hdecoded. }
  assert (Hnonnull : Forall (fun item => item <> JNull) news).
  { unfold news. cbn [seq map]. repeat constructor; discriminate. }
  destruct (B_map_items_run w news s Hnonnull) as (converted & n & Hmap & Hconverted).
  assert (Harticles : Forall2 (article_of_round o) (seq 0 5) converted).
  { eapply Forall2_compose; [|exact Hitems|exact Hconverted].
    intros i item a. apply converts_item_of_round. }
  assert (Hsorted : Array_sort by_date_descending converted = converted).
  { apply Array_sort_in_order. cbn [seq] in Harticles.
    inversion Harticles as [|? a0 ? l0 H0 T0]; subst.
    inversion T0 as [|? a1 ? l1 H1 T1]; subst.
    inversion T1 as [|? a2 ? l2 H2 T2]; subst.
    inversion T2 as [|? a3 ? l3 H3 T3]; subst.
    inversion T3 as [|? a4 ? l4 H4 T4]; subst.
    inversion T4; subst.
    repeat constructor; eapply rounds_in_order; eassumption. }
  pose proof (Forall2_length _ _ _ Harticles) as Hlen. cbn [seq length] in Hlen.
  exists converted.
  eexists {| step := _; timestamp := _; success := _; details := _ |}, _.
  split.
  - unfold PipelineB.collectNews. unfold bind at 1. unfold try_catch.
    rewrite (news_from_service_accepts w v s Hanswer).
    change (realNews v) with (JArr news). cbv iota.
    unfold bind at 1. rewrite Hmap. cbv zeta. unfold bind at 1.
    rewrite logStep_run by details_print. unfold ret, after_step. rewrite Hsorted.
    rewrite firstn_all2 by lia. reflexivity.
  - split; [exact Harticles|].
    cbn [results steps push_step later details assoc String.eqb Ascii.eqb Bool.eqb].
    rewrite <- Hlen. repeat split.
Qed.

(** The sample server, whose draws are all one half, read by the pipeline:
    five articles, the first published at the server's clock reading, all
    with the sixth headline and the third source. *)
Lemma B_collectNews_reads_the_news_server_witness :
  exists articles s',
    @PipelineB.collectNews (answering_runtime "[...]" sample_body)
      (served_world sample_response "[...]") initial_state = (Ret articles, s') /\
    map title articles =
      repeat "European Space Agency Announces New Venus Mission" 5 /\
    map source articles = repeat "ESA" 5 /\
    map published articles =
      [ JIso 1793620800000; JIso 1793617200000; JIso 1793613600000;
        JIso 1793610000000; JIso 1793606400000 ].
Proof.
  destruct (B_collectNews_reads_the_news_server (answering_runtime "[...]" sample_body)
              (served_world sample_response "[...]") initial_state
              NewsServer.sample_pathname NewsServer.sample_outside sample_request
              sample_response sample_body "OK" ["[...]"])
    as (articles & entry & s' & Hrun & _).
  - intros k. split; [unfold Qle|unfold Qlt]; simpl; lia.
  - unfold NewsServer.in_range, max_time. simpl. lia.
  - discriminate.
  - reflexivity.
  - reflexivity.
  - reflexivity.
  - reflexivity.
  - reflexivity.
  - exists articles, s'. split; [exact Hrun|].
    vm_compute in Hrun. injection Hrun as <- _. repeat split.
Defined.

(** ** The first variant: its feed reader and its run *)

Lemma traced_caught {A} (w : World) (c : M A) (fallback : A) (P : A -> Prop) :
  traced w c (quiet_or_throws P) ->
  P fallback ->
  traced w (try_catch c (fun _ => ret fallback)) (quiet P).
Proof.
  intros Hc Hfallback.
  eapply traced_try_catch; [exact Hc| | |].
  - intros e l1 [-> _]. apply traced_ret. now split.
  - intros a l [-> Ha]. now split.
  - intros l [-> _]. now split.
Qed.

Lemma traced_bind_quiet {A B} (w : World) (c : M A) (k : A -> M B) (P : A -> Prop)
    (Q : Outcome B -> list StepLog -> Prop) :
  traced w c (quiet P) ->
  (forall a, P a -> traced w (k a) Q) ->
  Q Hang [] ->
  traced w (bind c k) Q.
Proof.
  intros Hc Hk Hhang.
  apply (traced_bind w c k (quiet P) Q Hc).
  - intros a l1 [-> Ha]. now apply Hk.
  - intros e l [_ []].
  - intros l [-> _]. exact Hhang.
Qed.

Section FirstVariantTraces.
Context `{JsRuntime} `{XmlScanner}.
Variable w : World.

Lemma traced_A_read_item (itemXml : string) :
  traced w (FeedsA.read_item w itemXml) (quiet (fun _ => True)).
Proof.
  unfold FeedsA.read_item. cbv zeta.
  eapply traced_bind_quiet with (P := fun _ => True).
  - destruct (tag_text "pubDate" itemXml).
    + apply traced_ret. now split.
    + intros s. exists []. split; [|now split].
      apply (logged_tick w s [] s). constructor.
  - intros published _. apply traced_ret. now split.
  - now split.
Qed.

Lemma traced_A_read_items (itemMatches : list string) :
  traced w (FeedsA.read_items w itemMatches)
    (quiet (fun items => length items = length itemMatches)).
Proof.
  induction itemMatches as [|itemXml rest IH]; simpl.
  - apply traced_ret. now split.
  - eapply traced_bind_quiet; [apply traced_A_read_item| |now split].
    intros item _. eapply traced_bind_quiet; [exact IH| |now split].
    intros items Hitems. apply traced_ret. split; [reflexivity|].
    simpl. now rewrite Hitems.
Qed.

Lemma traced_A_parseRSSFeed (url : string) :
  traced w (FeedsA.parseRSSFeed w url) (quiet (fun items => length items <= 5)).
Proof.
  unfold FeedsA.parseRSSFeed. apply traced_caught; [|simpl; lia].
  apply traced_bind_silent; [apply traced_A_makeHttpRequest| |now split|now split].
  intros response.
  destruct (negb (is_200 (status_code response))); [apply traced_throw; now split|].
  assert (Hthrow : forall e, traced w (@throw (list FeedItem) e)
                               (quiet_or_throws (fun items => length items <= 5)))
    by (intros e; apply traced_throw; now split).
  destruct (data response) as [| | |xmlData| | |]; try apply Hthrow.
  - eapply traced_weaken; [|apply traced_A_read_items].
    intros o l [-> Ho]. split; [reflexivity|]. destruct o; try exact I.
    rewrite Ho. apply firstn_le_length.
  - apply traced_ret. split; [reflexivity|]. simpl. lia.
Qed.

Lemma traced_A_read_feeds (entries : list (string * string)) (allArticles : list Article) :
  (forall entry, In entry entries -> In (fst entry) (map fst FeedsA.feeds)) ->
  Forall from_a_feed allArticles ->
  traced w (FeedsA.read_feeds w entries allArticles)
    (quiet (fun collected =>
              Forall from_a_feed collected /\
              length collected <= length allArticles + 5 * length entries)).
Proof.
  revert allArticles. induction entries as [|[name url] rest IH];
    intros allArticles Hentries Hall; simpl.
  - apply traced_ret. split; [reflexivity|]. split; [exact Hall|lia].
  - eapply traced_bind_quiet
      with (P := fun l => Forall from_a_feed l /\ length l <= length allArticles + 5).
    + apply traced_caught; [|split; [exact Hall|lia]].
      eapply traced_bind_quiet with (P := fun items => length items <= 5);
        [apply traced_A_parseRSSFeed| |now split].
      intros items Hitems. apply traced_ret. split; [reflexivity|]. split.
      * apply Forall_app. split; [exact Hall|].
        unfold FeedsA.articles_of. apply Forall_map. apply Forall_forall.
        intros item _. unfold from_a_feed. cbn [source].
        apply (Hentries (name, url)). now left.
      * unfold FeedsA.articles_of. rewrite length_app, length_map. lia.
    + intros collected [Hcollected Hlen].
      eapply traced_weaken; [|apply IH; [|exact Hcollected]].
      * intros o l [-> Ho]. split; [reflexivity|]. destruct o; try exact Ho.
        destruct Ho as [Hfrom Hbound]. split; [exact Hfrom|lia].
      * intros entry Hin. apply Hentries. now right.
    + now split.
Qed.

Lemma traced_A_collectNews :
  traced w (FeedsA.collectNews w)
    (one_step "News Collection"
       (fun articles entry =>
          success entry = true /\ length articles <= 5 /\ Forall from_a_feed articles /\
          exists collected,
            assoc "articles_collected" (details entry) = Some (JCount collected) /\
            collected <= 20)).
Proof.
  unfold FeedsA.collectNews.
  eapply traced_bind_quiet; [apply traced_A_read_feeds; [|constructor]| |reflexivity].
  - intros entry Hin. now apply in_map.
  - intros collected [Hcollected Hlen]. cbv zeta.
    apply traced_log_then_ret; [details_print|]. intros t. simpl. eexists. repeat split.
    + apply firstn_le_length.
    + apply Forall_take.
      eapply Permutation_Forall; [symmetry; apply Array_sort_perm|exact Hcollected].
    + eexists. split; [reflexivity|]. rewrite Array_sort_length. simpl in Hlen. lia.
Qed.

Lemma traced_A_request_block (key url : string) (item : Json -> Try MediaItem)
    (mediaItems : list MediaItem) :
  traced w
    (try_catch
       (response <- PipelineA.makeHttpRequest w url ;;
        ret (fst (push_photos key item response mediaItems)))
       (fun _ => ret mediaItems))
    (quiet (fun _ => True)).
Proof.
  apply traced_caught; [|exact I].
  apply traced_bind_silent; [apply traced_A_makeHttpRequest| |now split|now split].
  intros response. apply traced_ret. now split.
Qed.

Lemma traced_A_collectMedia :
  traced w (PipelineA.collectMedia w)
    (step_then_print "Media Collection"
       (fun media entry => success entry = true /\ 3 <= length media)).
Proof.
  unfold PipelineA.collectMedia.
  eapply traced_bind_quiet with (P := fun _ => True).
  - destruct (nonempty (pexels_api_key w));
      [apply traced_A_request_block|apply traced_ret; now split].
  - intros fromPexels _.
    eapply traced_bind_quiet with (P := fun _ => True).
    + destruct (nonempty (unsplash_access_key w));
        [apply traced_A_request_block|apply traced_ret; now split].
    + intros fromBoth _. cbv zeta.
      apply traced_log_or_throw.
      * intros t _. rewrite forEach_nasa_appends.
        simpl. eexists. repeat split. rewrite length_app. simpl. lia.
      * intros t Hprint. simpl. split; [reflexivity|]. eexists. repeat split.
        exact Hprint.
    + reflexivity.
  - reflexivity.
Qed.

(** The six stages of the first variant, run in their order. *)
Lemma traced_A_run_stages :
  traced w (run_stages (SpacePipelineA w)) (stages_post_A w).
Proof.
  unfold run_stages.
  cbn [SpacePipelineA this_validateEnvironment this_collectNews this_generateScript
       this_collectMedia this_generateTTS this_produceVideo].
  eapply traced_bind; [apply traced_validateEnvironment | | intros e l [] | intros l _; exact I].
  intros envValid l1 (e1 & -> & Hn1 & _).
  eapply traced_bind; [apply traced_A_collectNews | | intros e l [] | intros l _; exact I].
  intros articles l2 (e2 & -> & Hn2 & Hok2 & Hlen & Hsources & _).
  eapply traced_bind; [apply traced_generateScript | | intros e l [] | intros l _; exact I].
  intros script l3 (e3 & -> & Hn3 & Hok3 & Hscript).
  eapply traced_bind; [apply traced_A_collectMedia | | | intros l _; exact I].
  2:{ intros e l (-> & e4 & -> & Hn4 & Hprint). simpl. rewrite Hn1, Hn2, Hn3, Hn4.
      split; [reflexivity|]. split; [reflexivity|]. now exists e4. }
  intros media l4 (e4 & -> & Hn4 & Hok4 & Hmedia).
  eapply traced_bind; [apply traced_generateTTS | | intros e l [] | intros l _; exact I].
  intros audio l5 (e5 & -> & Hn5 & Hok5 & Haudio).
  eapply traced_bind; [apply traced_produceVideo | | intros e l [] | intros l _; exact I].
  intros video l6 (e6 & -> & Hn6 & Hok6 & Hdur & Hfile & Hurl & _).
  apply traced_ret. simpl. rewrite Hn1, Hn2, Hn3, Hn4, Hn5, Hn6.
  split; [reflexivity|]. split; [repeat constructor; assumption|].
  split; [eauto|]. repeat split; try assumption. congruence.
Qed.
End FirstVariantTraces.

Section FeedsFail.
Context `{JsRuntime} `{XmlScanner}.
Variable w : World.

Lemma A_parseRSSFeed_fails (url : string) (s : PState) :
  feed_fails w url -> FeedsA.parseRSSFeed w url s = (Ret [], s).
Proof.
  unfold feed_fails, FeedsA.parseRSSFeed, try_catch, PipelineA.makeHttpRequest.
  unfold bind at 1.
  destruct (promise (PipelineA.deliver (network w url))) as [|v|e]; simpl.
  - intros [].
  - now intros ->.
  - reflexivity.
Qed.

Lemma A_read_feeds_fail (entries : list (string * string)) (allArticles : list Article)
    (s : PState) :
  (forall entry, In entry entries -> feed_fails w (snd entry)) ->
  FeedsA.read_feeds w entries allArticles s = (Ret allArticles, s).
Proof.
  induction entries as [|[name url] rest IH]; intros Hfail; [reflexivity|].
  cbn [FeedsA.read_feeds]. unfold bind at 1. unfold try_catch. unfold bind at 1.
  rewrite A_parseRSSFeed_fails by (apply (Hfail (name, url)); now left).
  unfold ret. cbn [FeedsA.articles_of map]. rewrite app_nil_r.
  apply IH. intros entry Hin. apply Hfail. now right.
Qed.
End FeedsFail.

(** X21. The news stage of the first variant never throws: a feed that
    cannot be read counts for nothing. When it returns, it gives at most five
    articles, each under the name of one of the four feeds, and has logged the
    single step [News Collection], marked as a success, which counts at most
    twenty articles collected; no file and no other member of the record has
    changed. *)
Theorem A_collectNews_contract (rt : JsRuntime) (scanner : XmlScanner) (w : World)
    (s : PState) :
  match FeedsA.collectNews w s with
  | (Ret articles, s') =>
      length articles <= 5 /\
      Forall from_a_feed articles /\
      untouched s s' /\
      exists entry collected,
        steps (results s') = (steps (results s) ++ [entry])%list /\
        step entry = "News Collection" /\
        success entry = true /\
        assoc "articles_collected" (details entry) = Some (JCount collected) /\
        collected <= 20
  | (Throw _, _) => False
  | (Hang, s') => steps (results s') = steps (results s)
  end.
Proof.
  destruct (traced_A_collectNews w s) as (l & Hl & Hpost).
  destruct (logged_frame w s _ l Hl) as (Hsteps & _ & _ & _ & Huntouched & _).
  destruct (FeedsA.collectNews w s) as [[articles|e|] s']; cbn [fst snd] in *.
  - destruct Hpost as (entry & -> & Hname & Hok & Hlen & Hfrom & collected & Hcount & Hmax).
    split; [exact Hlen|]. split; [exact Hfrom|]. split; [exact Huntouched|].
    exists entry, collected. auto.
  - destruct Hpost.
  - simpl in Hpost. subst l. now rewrite app_nil_r in Hsteps.
Qed.

(** X22. The first variant has no placeholder articles: when each of the
    four feeds fails (its request is rejected or answered with a status
    other than 200) the news stage returns the empty list, and still logs
    its step as a success, with no article collected and [None] as the
    latest article. *)
Theorem A_collectNews_without_feeds (rt : JsRuntime) (scanner : XmlScanner) (w : World)
    (s : PState) :
  (forall entry, In entry FeedsA.feeds -> feed_fails w (snd entry)) ->
  exists d,
    FeedsA.collectNews w s = (Ret [], after_step w "News Collection" true d s) /\
    assoc "articles_collected" d = Some (JCount 0) /\
    assoc "latest_article" d = Some (JStr "None").
Proof.
  intros Hfail. eexists. split.
  - unfold FeedsA.collectNews. unfold bind at 1.
    rewrite (A_read_feeds_fail w _ [] s Hfail). cbv zeta.
    unfold bind at 1. rewrite logStep_run by details_print. reflexivity.
  - split; reflexivity.
Qed.

(** Offline, every feed is refused: the stage returns no article. *)
Lemma A_collectNews_without_feeds_witness :
  exists s',
    @FeedsA.collectNews plain_runtime sample_scanner offline_world initial_state =
      (Ret [], s') /\
    map step (steps (results s')) = ["News Collection"] /\
    map success (steps (results s')) = [true].
Proof.
  destruct (A_collectNews_without_feeds plain_runtime sample_scanner offline_world
              initial_state) as (d & Hrun & _).
  - intros entry Hin. unfold feed_fails. exact I.
  - eexists. split; [exact Hrun|]. split; reflexivity.
Defined.

(** X23. How a full run of the first variant ends. If it returns, the
    results file could be written: it returns [this.results], completed, with
    the six stage steps appended in the order of the stages, a script
    assembled from at most five articles of its feeds and at least three
    media items, and the results file holds that record. If it throws, the
    record is marked failed and its last step is [Pipeline Execution], after
    the six stage steps when the cause is the results file, which cannot be
    written, and after the first four when the cause is the media stage,
    which logged a sample image that cannot be printed. In either case a
    results file that can be written holds the failed record and the error
    thrown is the one of the stage; one that cannot be written leaves every
    file as it was and the error thrown is the one of the write. *)
Theorem A_run_outcomes (rt : JsRuntime) (scanner : XmlScanner)
    (w : World) (s : PState) :
  match runPipeline w (SpacePipelineA w) false s with
  | (Ret (Results r), s') =>
      writable s resultsFile = true /\
      r = results s' /\
      status r = completed /\
      map step (steps r) = (map step (steps (results s)) ++ stage_names)%list /\
      files s' = <[resultsFile := JsonDoc (RunRecord_to_json r)]> (files s) /\
      member "status" (RunRecord_to_json r) = Some (JStr "completed") /\
      exists outputs articles,
        final_outputs r = Some outputs /\
        length articles <= 5 /\
        Forall from_a_feed articles /\
        fo_script outputs = assemble_script w articles /\
        3 <= fo_media_count outputs
  | (Ret (Health _), _) => False
  | (Throw e, s') =>
      status (results s') = failed /\
      (exists done,
         map step (steps (results s')) =
           (map step (steps (results s)) ++ done ++ ["Pipeline Execution"])%list /\
         (done = stage_names /\ writable s resultsFile = false \/
          done = firstn 4 stage_names /\
          error (results s') = Some (message print_error) /\
          exists entry, nth_error (steps (results s')) (length (steps (results s)) + 3)
                          = Some entry /\ ~ prints (details entry))) /\
      if writable s resultsFile
      then e = print_error /\
           files s' = <[resultsFile := JsonDoc (RunRecord_to_json (results s'))]> (files s) /\
           member "status" (RunRecord_to_json (results s')) = Some (JStr "failed") /\
           member "error" (RunRecord_to_json (results s')) = Some (JStr (message e))
      else files s' = files s /\
           writeFileSync resultsFile (JsonDoc (RunRecord_to_json (results s'))) s' =
             (Throw e, s')
  | (Hang, _) => True
  end.
Proof.
  destruct (traced_A_run_stages w s) as (l & Hl & Hpost).
  assert (Hgen := run_outcomes_of_stages w (SpacePipelineA w) s l Hl).
  assert (Hstages :
    match fst (run_stages (SpacePipelineA w) s) with
    | Ret _ => map step l = stage_names
    | Throw e =>
        e = print_error /\
        map step l = firstn 4 stage_names /\
        exists entry, last l = Some entry /\ ~ prints (details entry)
    | Hang => True
    end).
  { destruct (run_stages (SpacePipelineA w) s) as [[[[[script media] audio] video]|e|] s1];
      cbn [fst] in *; [exact (proj1 Hpost) | exact Hpost | exact I]. }
  specialize (Hgen Hstages).
  destruct (runPipeline w (SpacePipelineA w) false s) as [[[b|r]|e|] s'] eqn:Hret;
    try exact Hgen.
  destruct Hgen as (Hw & Hr & Hst & Hnames & Hfiles & Hdoc).
  do 6 (split; [assumption|]).
  destruct (returned_record w _ s s' r Hret) as (produced & s1 & Hrun & _ & Hrec & _).
  rewrite Hrun in Hpost. cbn [fst] in Hpost.
  destruct produced as [[[script media] audio] video].
  destruct Hpost as (_ & _ & (articles & Hlen & Hfrom & Hscript) & Hmedia & _).
  rewrite Hrec. eexists _, articles.
  cbn [completed_record set_completed final_outputs fo_script fo_media_count].
  split; [reflexivity|]. repeat split; assumption.
Qed.

(** One feed answers with two items, the second without a date: the run of
    the first variant completes with a script of two stories and three
    media items. *)
Lemma A_run_with_one_feed :
  exists r s' outputs,
    runPipeline one_feed_world
      (@SpacePipelineA feed_runtime sample_scanner one_feed_world) false initial_state =
      (Ret (Results r), s') /\
    final_outputs r = Some outputs /\
    fo_media_count outputs = 3 /\
    includes "Story 1: Crew returns. This update comes from NASA News. "
      (fo_script outputs) = true /\
    includes "Story 2: Launch window opens. This update comes from NASA News. "
      (fo_script outputs) = true.
Proof.
  eexists _, _, _. split; [vm_compute; reflexivity|].
  split; [reflexivity|]. split; vm_compute; auto.
Qed.

(** ** The script, further *)

Lemma prefix_append (sub rest : string) : String.prefix sub (sub ++ rest) = true.
Proof.
  induction sub as [|c sub IH]; [now destruct rest|].
  rewrite append_String. cbn [String.prefix].
  destruct (ascii_dec c c); [exact IH|contradiction].
Qed.

Lemma prefix_self (text : string) : String.prefix text text = true.
Proof.
  induction text as [|c text IH]; [reflexivity|]. cbn [String.prefix].
  destruct (ascii_dec c c); [exact IH|contradiction].
Qed.

Lemma includes_self (text : string) : includes text text = true.
Proof. destruct text; cbn [includes]; [reflexivity|]. now rewrite prefix_self. Qed.

Lemma includes_here (sub rest : string) : includes sub (sub ++ rest) = true.
Proof.
  destruct (sub ++ rest) eqn:E; cbn [includes]; rewrite <- E, prefix_append; reflexivity.
Qed.

Lemma includes_later (sub before rest : string) :
  includes sub rest = true -> includes sub (before ++ rest) = true.
Proof.
  intros Hrest. induction before as [|c before IH]; [now rewrite append_empty|].
  rewrite append_String. cbn [includes]. rewrite IH. apply orb_true_r.
Qed.

Lemma includes_inside (sub before rest : string) :
  includes sub (before ++ sub ++ rest) = true.
Proof. apply includes_later, includes_here. Qed.

Lemma stories_cons (b : Article) (articles : list Article) (index : nat) :
  stories (b :: articles) index = story index b ++ LF ++ LF ++ stories articles (S index).
Proof. cbn [stories]. unfold story. now rewrite !append_assoc. Qed.

Lemma stories_tell (articles : list Article) (index k : nat) (a : Article) (rest : string) :
  nth_error articles k = Some a ->
  includes (story (index + k) a) (stories articles index ++ rest) = true.
Proof.
  revert index k. induction articles as [|b articles IH]; intros index k Hk.
  - now destruct k.
  - rewrite stories_cons, !append_assoc. destruct k as [|k]; cbn [nth_error] in Hk.
    + injection Hk as ->. rewrite Nat.add_0_r. apply includes_here.
    + apply includes_later, includes_later, includes_later.
      replace (index + S k) with (S index + k) by lia. now apply IH.
Qed.

(** X24. The script tells every article it is given: for the article at
    position [k] the text returned by [generateScript] holds the sentences
    [Story <k + 1>: <title>. This update comes from <source>. ]; it begins
    with one of the three intros and holds one of the three outros; and the
    step it logs counts one segment per article. *)
Theorem generateScript_tells_every_story (w : World) (articles : list Article)
    (s : PState) (k : nat) (a : Article) :
  nth_error articles k = Some a ->
  exists script entry,
    generateScript w articles s =
      (Ret script, {| results := push_step entry (results s); files := files s;
                      ticks := S (ticks s) |}) /\
    includes (story k a) script = true /\
    (exists intro, In intro intros /\ String.prefix intro script = true) /\
    (exists outro, In outro outros /\ includes outro script = true) /\
    assoc "segments" (details entry) = Some (JCount (length articles)).
Proof.
  intros Hk. rewrite generateScript_run.
  eexists _, {| step := _; timestamp := _; success := _; details := _ |}.
  split; [reflexivity|].
  assert (Hscript : assemble_script w articles =
                      at_draw intros (intro_draw w) ++
                      (LF ++ LF) ++ stories articles 0 ++ at_draw outros (outro_draw w)).
  { unfold assemble_script. destruct articles as [|b articles]; [now destruct k|].
    cbn [length Nat.ltb Nat.leb]. now rewrite forEach_story_appends, !append_assoc. }
  rewrite Hscript. split; [|split; [|split; [|reflexivity]]].
  - apply includes_later, includes_later. now apply (stories_tell articles 0 k).
  - exists (at_draw intros (intro_draw w)). split; [|apply prefix_append].
    destruct (intro_draw w); simpl; auto.
  - exists (at_draw outros (outro_draw w)). split; [destruct (outro_draw w); simpl; auto|].
    apply includes_later, includes_later, includes_later, includes_self.
Qed.

Lemma generateScript_tells_every_story_witness :
  exists script s',
    generateScript offline_world [sample_article] initial_state = (Ret script, s') /\
    includes "Story 1: Lunar Gateway module docks. This update comes from ESA. " script = true.
Proof.
  destruct (generateScript_tells_every_story offline_world [sample_article] initial_state
              0 sample_article eq_refl) as (script & entry & Hrun & Hstory & _).
  exists script. eexists. split; [exact Hrun|exact Hstory].
Defined.

(** ** The command line *)

Lemma health_check_only_run (w : World) (this : SpacePipeline) (s : PState) :
  this_validateEnvironment this = validateEnvironment w ->
  exists entry,
    runPipeline w this true s =
      (Ret (Health (forallb (is_configured w) requiredKeys)),
       {| results := push_step entry (results s); files := files s;
          ticks := S (ticks s) |}).
Proof.
  intros Hthis. destruct (validateEnvironment_run w s) as (details & Hrun & _).
  eexists. unfold runPipeline, try_catch, attempt, healthCheck. unfold bind at 1 2.
  rewrite Hthis, Hrun. unfold ret, after_step. do 3 f_equal.
  destruct (forallb (is_configured w) requiredKeys) eqn:E; [|reflexivity].
  cbn [forallb requiredKeys] in E.
  apply andb_prop in E as [Htts E]. apply andb_prop in E as [Hpexels E].
  apply andb_prop in E as [Hunsplash _].
  unfold pexels_api_key, unsplash_access_key, tts_openai_api_key.
  now rewrite !configured_is_nonempty.
Qed.

(** X25. The exit code of the command line of the second variant. With
    [--health-check] among its arguments [main] never exits with code 1 and
    writes no file. Without it, [main] exits with code 1 exactly when the
    run throws: the record is then marked failed and carries the message of
    the error, and [pipeline_results.json] holds that record if it can be
    written, while no file has changed if it cannot. Otherwise [main] ends
    normally with the completed record of the run in
    [pipeline_results.json], or waits for ever on a request. It never lets
    an error out. *)
Theorem main_exit_code (rt : JsRuntime) (w : World) (args : list string) (s : PState) :
  match main w (SpacePipelineB w) args s with
  | (Ret (Some code), s') =>
      code = 1%Z /\
      health_check_asked args = false /\
      status (results s') = failed /\
      exists msg,
        error (results s') = Some msg /\
        if writable s resultsFile
        then files s' = <[resultsFile := JsonDoc (RunRecord_to_json (results s'))]> (files s) /\
             member "status" (RunRecord_to_json (results s')) = Some (JStr "failed") /\
             member "error" (RunRecord_to_json (results s')) = Some (JStr msg)
        else files s' = files s
  | (Ret None, s') =>
      if health_check_asked args then files s' = files s
      else writable s resultsFile = true /\
           files s' = <[resultsFile := JsonDoc (RunRecord_to_json (results s'))]> (files s) /\
           status (results s') = completed /\
           member "status" (RunRecord_to_json (results s')) = Some (JStr "completed")
  | (Throw _, _) => False
  | (Hang, _) => health_check_asked args = false
  end.
Proof.
  unfold main, try_catch. cbv zeta. unfold bind at 1. rewrite construct_run.
  set (s0 := {| results := _; files := files s; ticks := _ |}).
  unfold bind at 1.
  destruct (health_check_asked args).
  - destruct (health_check_only_run w (SpacePipelineB w) s0 eq_refl)
      as (entry & ->).
    reflexivity.
  - pose proof (only_logs_B_run_stages w s0) as (_ & _ & _ & _ & _ & Hfiles).
    change (files s0) with (files s) in Hfiles.
    destruct (run_stages (SpacePipelineB w) s0) as [[produced|e|] s1] eqn:Hrun;
      cbn [snd] in Hfiles.
    + assert (Hwr : writable s1 resultsFile = writable s resultsFile)
        by (unfold writable; now rewrite Hfiles).
      destruct (writable s resultsFile) eqn:Hfile.
      * rewrite (attempt_writes w _ s0 s1 _ Hrun Hwr).
        cbn [ret files results]. rewrite <- Hfiles.
        destruct produced as [[[script media] audio] video].
        split; [reflexivity|]. split; [reflexivity|]. split; [reflexivity|].
        match goal with |- context [RunRecord_to_json ?r] =>
          destruct (RunRecord_to_json_members r) as (-> & _) end.
        reflexivity.
      * rewrite (attempt_blocked w _ s0 s1 _ Hrun Hwr). cbn [ret files results].
        split; [reflexivity|]. split; [reflexivity|]. split; [reflexivity|].
        eexists. split; [reflexivity | exact Hfiles].
    + assert (Hwr : writable s1 resultsFile = writable s resultsFile)
        by (unfold writable; now rewrite Hfiles).
      rewrite (attempt_raises w _ s0 s1 e Hrun).
      destruct (writable s resultsFile) eqn:Hfile.
      * rewrite (on_failure_run w e s1 Hwr). cbn [ret files results].
        split; [reflexivity|]. split; [reflexivity|]. split; [reflexivity|].
        eexists. split; [reflexivity|]. rewrite <- Hfiles. split; [reflexivity|].
        match goal with |- context [RunRecord_to_json ?r] =>
          destruct (RunRecord_to_json_members r) as (-> & -> & _) end.
        split; reflexivity.
      * rewrite (on_failure_blocked w e s1 Hwr). cbn [ret files results].
        split; [reflexivity|]. split; [reflexivity|]. split; [reflexivity|].
        eexists. split; [reflexivity | exact Hfiles].
    + unfold runPipeline, try_catch, attempt. unfold bind at 1. now rewrite Hrun.
Qed.

(** ** The simulated stages *)

(** X26. The narration and the video stages are simulations that cannot
    fail: whatever the script, the media and the credentials, each returns
    after logging its one step as a success, without a request and without
    touching a file. The narration lasts as long as the estimate of the
    script, the doubles of [word count / 150 * 60], and the video exactly as
    long as the audio it is given. The durations that the two steps report
    are that estimate rounded to one decimal: for a script of at most
    [2^40] words, the double nearest to four tenths of the word count in the
    narration step and its numeral in the video step. [api_called] of the
    narration step is true exactly when [TTS_OPENAI_API_KEY] is set to a
    non-empty value, placeholder or not. *)
Theorem simulated_stages_always_succeed (w : World) (script : string)
    (media : list MediaItem) (s : PState) :
  exists audio narration video production s1 s2,
    generateTTS w script s = (Ret audio, s1) /\
    produceVideo w script media audio s1 = (Ret video, s2) /\
    steps (results s2) = (steps (results s) ++ [narration; production])%list /\
    files s2 = files s /\
    step narration = "TTS Generation" /\ success narration = true /\
    step production = "Video Production" /\ success production = true /\
    audio_duration audio = estimatedDuration script /\
    video_duration video = audio_duration audio /\
    assoc "duration_seconds" (details narration) =
      Some (JNum (rounded 10 (estimatedDuration script))) /\
    ((Z.of_nat (wordCount script) <= 2 ^ 40)%Z ->
     assoc "duration_seconds" (details narration) =
       Some (JNum (double (inject_Z (4 * Z.of_nat (wordCount script)) / 10))) /\
     assoc "video_duration" (details production) =
       Some (JStr (print_tenths (4 * Z.of_nat (wordCount script)) ++ " seconds"))) /\
    assoc "images_used" (details production) = Some (JCount (length media)) /\
    exists called,
      assoc "api_called" (details narration) = Some (JBool called) /\
      (called = true <->
       exists key, env w !! "TTS_OPENAI_API_KEY" = Some key /\ key <> "").
Proof.
  assert (Htts : exists d,
            generateTTS w script s =
              (Ret {| audio_file := "output/narration.mp3";
                      audio_duration := estimatedDuration script;
                      audio_config := ttsConfig |},
               after_step w "TTS Generation" true d s) /\
            assoc "duration_seconds" d =
              Some (JNum (rounded 10 (estimatedDuration script))) /\
            assoc "api_called" d = Some (JBool (nonempty (tts_openai_api_key w)))).
  { eexists. split;
      [unfold generateTTS, bind; cbv zeta; rewrite logStep_run by details_print;
       reflexivity
      |split; reflexivity]. }
  destruct Htts as (d1 & Htts & Hduration & Hcalled).
  set (audio := {| audio_file := "output/narration.mp3";
                   audio_duration := estimatedDuration script;
                   audio_config := ttsConfig |}) in *.
  set (s1 := after_step w "TTS Generation" true d1 s) in *.
  assert (Hvideo : exists d,
            produceVideo w script media audio s1 =
              (Ret {| video_file := "output/space_news_video.mp4";
                      video_url := "https://example.com/space_news_video.mp4";
                      video_duration := estimatedDuration script;
                      video_config := productionConfig |},
               after_step w "Video Production" true d s1) /\
            assoc "video_duration" d =
              Some (JStr (print_tenths
                            (Math_round (double (estimatedDuration script * 10))) ++
                          " seconds")) /\
            assoc "images_used" d = Some (JCount (length media))).
  { eexists. split;
      [unfold produceVideo, bind; cbv zeta; rewrite logStep_run by details_print;
       reflexivity
      |split; reflexivity]. }
  destruct Hvideo as (d2 & Hvideo & Hnumeral & Himages).
  eexists audio, {| step := _; timestamp := _; success := _; details := d1 |}, _,
    {| step := _; timestamp := _; success := _; details := d2 |}, s1, _.
  split; [exact Htts|]. split; [exact Hvideo|].
  cbn [s1 after_step results steps files push_step step success details
       audio audio_duration video_duration].
  split; [now rewrite <- List.app_assoc|].
  do 7 (split; [reflexivity|]).
  split; [exact Hduration|]. split.
  { intros Hwords. rewrite Hduration, Hnumeral.
    rewrite rounded_estimatedDuration, tenths_of_estimatedDuration by exact Hwords.
    split; reflexivity. }
  split; [exact Himages|].
  eexists. split; [exact Hcalled|].
  unfold tts_openai_api_key, env_or, nonempty.
  destruct (env w !! "TTS_OPENAI_API_KEY") as [key|].
  - destruct (String.eqb_spec key "") as [->|Hkey]; simpl.
    + split; [discriminate|]. intros (k & [= <-] & Hne). now destruct Hne.
    + rewrite (proj2 (String.eqb_neq key "") Hkey). split; [|reflexivity].
      intros _. now exists key.
  - simpl. split; [discriminate|]. intros (k & [=] & _).
Qed.

(** The script of one story with a headline of five words has 36 pieces:
    the narration lasts 14.399999999999999 seconds, and both steps report
    14.4. *)
Lemma simulated_stages_always_succeed_witness :
  let script := assemble_script offline_world [long_headline_article] in
  exists audio narration production s1,
    generateTTS offline_world script initial_state = (Ret audio, s1) /\
    audio_duration audio = (2026619832316723 # 140737488355328)%Q /\
    assoc "duration_seconds" (details narration) = Some (JNum (double (72 # 5))) /\
    assoc "video_duration" (details production) = Some (JStr "14.4 seconds").
Proof.
  intros script.
  destruct (simulated_stages_always_succeed offline_world script [] initial_state)
    as (audio & narration & video & production & s1 & s2 & Htts & _ & _ & _ & _ & _ & _ &
        _ & Haudio & _ & _ & Hreported & _).
  assert (Hwords : (Z.of_nat (wordCount script) <= 2 ^ 40)%Z)
    by (vm_compute; discriminate).
  destruct (Hreported Hwords) as (Hduration & Hnumeral).
  exists audio, narration, production, s1.
  split; [exact Htts|]. split; [rewrite Haudio; vm_compute; reflexivity|].
  split; [rewrite Hduration; vm_compute; reflexivity|].
  rewrite Hnumeral. vm_compute. reflexivity.
Defined.

(** With the placeholder of the template as its key, the narration step
    reports an API call, while the environment check counts the key as
    missing. *)
Lemma simulated_stages_with_a_placeholder_key :
  exists audio s1 narration,
    generateTTS placeholder_tts_world "Welcome" initial_state = (Ret audio, s1) /\
    steps (results s1) = [narration] /\
    assoc "api_called" (details narration) = Some (JBool true) /\
    is_configured placeholder_tts_world "TTS_OPENAI_API_KEY" = false.
Proof. eexists _, _, _. repeat split. Qed.

(** ** The scheduler and the second variant together *)

(** X27. From one scheduled invocation to the next. When the scheduler
    decides to run the second variant, both [pipeline_results.json] and
    [last_run.json] can be written and the invocation returns, one of two
    things has happened. Either the run has completed, and [last_run.json]
    holds a record with status [completed], the address of the video, and
    the time of the save; from then on, as long as that file stays as it is,
    [shouldRunNow] answers [false] exactly while the clock reads less than
    two hours after the save. Or a stage has thrown: the run is recorded as
    failed in [pipeline_results.json], with the message of the error, and
    [last_run.json] is as it was, so that the scheduler decides as if the run
    had not taken place. *)
Theorem scheduled_run_and_cooldown (rt : JsRuntime) (w : World) (s s1 : PState) :
  decision w s = true ->
  writable s resultsFile = true ->
  writable s Scheduler.lastRunFile = true ->
  Scheduler.runScheduledVideoGeneration w (SpacePipelineB w) s = (Ret tt, s1) ->
  (status (results s1) = completed /\
   exists saved,
     member "status" (Scheduler.stored s1) = Some (JStr "completed") /\
     member "timestamp" (Scheduler.stored s1) = Some (JIso saved) /\
     member "video_url" (Scheduler.stored s1) =
       Some (JStr "https://example.com/space_news_video.mp4") /\
     forall next,
       files next !! Scheduler.lastRunFile = files s1 !! Scheduler.lastRunFile ->
       exists go after,
         Scheduler.shouldRunNow w next = (Ret go, after) /\
         (go = false <-> (clock w (ticks next) - saved < 2 * 60 * 60 * 1000)%Z)) \/
  (status (results s1) = failed /\
   (exists msg,
      error (results s1) = Some msg /\
      member "error" (RunRecord_to_json (results s1)) = Some (JStr msg)) /\
   files s1 !! resultsFile = Some (JsonDoc (RunRecord_to_json (results s1))) /\
   member "status" (RunRecord_to_json (results s1)) = Some (JStr "failed") /\
   files s1 !! Scheduler.lastRunFile = files s !! Scheduler.lastRunFile /\
   Scheduler.stored s1 = Scheduler.stored s).
Proof.
  intros Hgo Hresults Hlast Hrun.
  destruct (shouldRunNow_run w s) as (s0 & Hdecide & Hfiles0 & Hresults0).
  rewrite Hgo in Hdecide.
  pose proof (construct_run w s0) as Hconstruct.
  set (sc := {| results := _; files := files s0; ticks := S (S (ticks s0)) |}) in Hconstruct.
  destruct (traced_B_run_stages w sc) as (l & Hl & Hpost).
  destruct (logged_frame w sc _ l Hl) as (_ & Hfiles2 & _).
  change (files sc) with (files s0) in Hfiles2. rewrite Hfiles0 in Hfiles2.
  destruct (run_stages (SpacePipelineB w) sc) as [[produced|e|] s2] eqn:Hstages;
    cbn [fst snd] in Hl, Hpost, Hfiles2.
  - left.
    assert (Hwritable : writable s2 resultsFile = true)
      by (rewrite (writable_files s s2 resultsFile Hfiles2); exact Hresults).
    pose proof (attempt_writes w _ sc s2 produced Hstages Hwritable) as Hpipeline.
    set (r := completed_record w s2 produced) in Hpipeline.
    set (s3 := {| results := r; files := _; ticks := S (ticks s2) |}) in Hpipeline.
    assert (Hwhole : (construct w ;; runPipeline w (SpacePipelineB w) false) s0 =
                       (Ret (Results r), s3)).
    { unfold bind at 1. now rewrite Hconstruct. }
    assert (Hlast3 : writable s3 Scheduler.lastRunFile = true).
    { unfold writable, s3. cbn [files]. rewrite lookup_insert_ne by discriminate.
      rewrite Hfiles2. exact Hlast. }
    rewrite (scheduled_run_that_returns w _ s s0 s3 _ Hdecide Hwhole Hlast3) in Hrun.
    injection Hrun as <-.
    destruct produced as [[[script media] audio] video].
    split; [reflexivity|].
    exists (clock w (ticks s3)).
    match goal with
    | |- context [Scheduler.stored ?final] =>
        assert (Hstored : Scheduler.stored final =
                            Scheduler.runInfo (clock w (ticks s3)) (Results r))
          by (unfold Scheduler.stored; cbn [files]; now rewrite lookup_insert_eq)
    end.
    rewrite Hstored.
    destruct Hpost as (_ & _ & _ & _ & _ & _ & _ & Hurl).
    assert (Hinfo : Scheduler.runInfo (clock w (ticks s3)) (Results r) =
                      JObj [ ("timestamp", JIso (clock w (ticks s3)));
                             ("status", JStr "completed");
                             ("duration",
                              JNum (double
                                      (inject_Z (clock w (ticks s2) - start_time (results s2))
                                       / 1000)));
                             ("video_url", JStr (video_url video)) ]).
    { reflexivity. }
    rewrite Hinfo, Hurl.
    split; [reflexivity|]. split; [reflexivity|]. split; [reflexivity|].
    intros next Hnext.
    cbn [files] in Hnext. rewrite lookup_insert_eq in Hnext.
    assert (Hnext_stored : Scheduler.stored next =
                             Scheduler.runInfo (clock w (ticks s3)) (Results r)).
    { unfold Scheduler.stored. now rewrite Hnext. }
    destruct (shouldRunNow_run w next) as (after & Hnext_run & _).
    exists (decision w next), after. split; [exact Hnext_run|].
    rewrite decision_false_iff, Hnext_stored, Hinfo.
    cbn [member prop assoc String.eqb Ascii.eqb Bool.eqb Date_getTime is_string].
    split.
    + intros (t & _ & [= <-] & Hlt). exact Hlt.
    + intros Hlt. exists (clock w (ticks s3)). repeat split. exact Hlt.
  - right.
    assert (Hwritable : writable s2 resultsFile = true)
      by (rewrite (writable_files s s2 resultsFile Hfiles2); exact Hresults).
    pose proof (attempt_raises w _ sc s2 e Hstages) as Hpipeline.
    rewrite (on_failure_run w e s2 Hwritable) in Hpipeline.
    assert (Hwhole : forall final,
              runPipeline w (SpacePipelineB w) false sc = (Throw e, final) ->
              (construct w ;; runPipeline w (SpacePipelineB w) false) s0 =
                (Throw e, final)).
    { intros final Hfinal. unfold bind at 1. now rewrite Hconstruct. }
    rewrite (scheduled_run_that_throws w _ s s0 _ e Hdecide (Hwhole _ Hpipeline)) in Hrun.
    injection Hrun as <-. cbn [results files].
    match goal with |- context [RunRecord_to_json ?r] =>
      destruct (RunRecord_to_json_members r) as (Hst & Herr & _) end.
    split; [reflexivity|]. split.
    { eexists. split; [reflexivity | exact Herr]. }
    split; [apply lookup_insert_eq|]. split; [exact Hst|].
    assert (Hfile : (<[resultsFile := JsonDoc
                         (RunRecord_to_json
                            (push_step
                               {| step := "Pipeline Execution";
                                  timestamp := clock w (ticks s2);
                                  success := false;
                                  details := [("error", JStr (message e))] |}
                               (set_failed (message e) (results s2))))]> (files s2))
                      !! Scheduler.lastRunFile = files s !! Scheduler.lastRunFile).
    { rewrite lookup_insert_ne by discriminate. now rewrite Hfiles2. }
    split; [exact Hfile|].
    unfold Scheduler.stored. cbn [files]. now rewrite Hfile.
  - exfalso. unfold Scheduler.runScheduledVideoGeneration in Hrun.
    unfold bind at 1 in Hrun. rewrite Hdecide in Hrun. cbn [negb] in Hrun.
    unfold try_catch in Hrun. unfold bind at 1 in Hrun. rewrite Hconstruct in Hrun.
    unfold bind at 1 in Hrun.
    unfold runPipeline, try_catch, attempt in Hrun. unfold bind at 1 in Hrun.
    rewrite Hstages in Hrun. discriminate.
Qed.

(** Offline and in an empty directory, the first scheduled invocation
    completes, and one reading of the clock later the scheduler declines
    to run again. *)
Lemma scheduled_run_and_cooldown_witness :
  exists s1 after,
    @Scheduler.runScheduledVideoGeneration plain_runtime offline_world
      (@SpacePipelineB plain_runtime offline_world) initial_state = (Ret tt, s1) /\
    status (results s1) = completed /\
    @Scheduler.shouldRunNow plain_runtime offline_world s1 = (Ret false, after).
Proof.
  destruct (@Scheduler.runScheduledVideoGeneration plain_runtime offline_world
              (@SpacePipelineB plain_runtime offline_world) initial_state)
    as [[[]|e|] s1] eqn:Hrun; try (vm_compute in Hrun; discriminate).
  destruct (scheduled_run_and_cooldown plain_runtime offline_world initial_state s1
              eq_refl eq_refl eq_refl Hrun)
    as [(Hst & saved & _ & Hsaved & _ & Hnext) | (Hst & _)].
  - destruct (Hnext s1 eq_refl) as (go & after & Hgo & Hiff).
    exists s1, after. split; [reflexivity|]. split; [exact Hst|].
    rewrite Hgo. f_equal. f_equal. apply Hiff.
    vm_compute in Hrun. injection Hrun as <-.
    vm_compute in Hsaved. injection Hsaved as <-.
    vm_compute. reflexivity.
  - vm_compute in Hrun. injection Hrun as <-. discriminate Hst.
Defined.
